(** * daxfs: the delta log, its indices and the resolver

    A shallow embedding of the delta-log engine of daxfs
    (kernel/dir.c, the delta-log part that follows it, kernel/dax_mem.c,
    the file operations and include/daxfs_format.h).

    - Little-endian fixed-width fields are integers in [Z]; every
      arithmetic step that can wrap in C has its wrap-around written out
      ([u64], [u32], [u16]).
    - The delta log of a branch is memory addressed by byte offset: a
      finite map from the offset of a slot to the entry stored there.  An
      offset with no entry is memory that is still zero (the delta region
      is zeroed when the image is made), so its header reads
      [total_size = 0].
    - A pointer to an entry header ([struct daxfs_delta_hdr *]) is the
      offset of the entry in the log of the branch that holds it.
    - The two red-black trees of a branch are binary search trees; the
      walk of [index_add_inode], [index_add_dirent] and of the lookups is
      the walk of the source.  [rb_link_node] hangs the new node where the
      walk ended; the recolouring of [rb_insert_color] belongs to the
      kernel's rbtree library and is not part of this development.
    - [kzalloc], [kmalloc] and [kmemdup] may fail: every call consumes one
      answer of an allocation oracle. *)

From Stdlib Require Import ZArith Lia.
From Stdlib.Strings Require Import Byte.
From stdpp Require Import base option list gmap strings.

Local Open Scope Z_scope.

(** ** Fixed-width integers *)

Definition u64 (x : Z) : Z := x mod 2 ^ 64.
Definition u32 (x : Z) : Z := x mod 2 ^ 32.
Definition u16 (x : Z) : Z := x mod 2 ^ 16.

(** [(u64)-1] and [(u32)-1], the "leave this field alone" arguments of
    [index_add_inode]. *)
Definition U64_MAX : Z := 2 ^ 64 - 1.
Definition U32_MAX : Z := 2 ^ 32 - 1.

(** ** include/daxfs_format.h *)

Definition DAXFS_DELTA_WRITE : Z := 1.
Definition DAXFS_DELTA_CREATE : Z := 2.
Definition DAXFS_DELTA_DELETE : Z := 3.
Definition DAXFS_DELTA_TRUNCATE : Z := 4.
Definition DAXFS_DELTA_MKDIR : Z := 5.
Definition DAXFS_DELTA_RENAME : Z := 6.
Definition DAXFS_DELTA_SETATTR : Z := 7.

Definition DAXFS_ATTR_MODE : Z := 1.
Definition DAXFS_ATTR_UID : Z := 2.
Definition DAXFS_ATTR_GID : Z := 4.
Definition DAXFS_ATTR_SIZE : Z := 8.

(** Kernel error numbers and the rename flag the handlers use. *)
Definition ENOENT : Z := 2.
Definition ENOMEM : Z := 12.
Definition EFAULT : Z := 14.
Definition EEXIST : Z := 17.
Definition EINVAL : Z := 22.
Definition ENOSPC : Z := 28.
Definition RENAME_NOREPLACE : Z := 1.

Record daxfs_delta_hdr := mk_hdr {
  hdr_type : Z;            (* __le32 type *)
  hdr_total_size : Z;      (* __le32 total_size *)
  hdr_ino : Z;             (* __le64 ino *)
  hdr_timestamp : Z        (* __le64 timestamp *)
}.

Record daxfs_delta_write := mk_write {
  wr_offset : Z; wr_len : Z; wr_flags : Z
}.

Record daxfs_delta_create := mk_create {
  cr_parent_ino : Z; cr_new_ino : Z; cr_mode : Z; cr_name_len : Z; cr_flags : Z
}.

Record daxfs_delta_delete := mk_delete {
  del_parent_ino : Z; del_name_len : Z; del_flags : Z; del_reserved : Z
}.

Record daxfs_delta_truncate := mk_truncate { tr_new_size : Z }.

Record daxfs_delta_rename := mk_rename {
  rn_old_parent_ino : Z; rn_new_parent_ino : Z; rn_ino : Z;
  rn_old_name_len : Z; rn_new_name_len : Z; rn_reserved : Z
}.

Record daxfs_delta_setattr := mk_setattr {
  sa_mode : Z; sa_uid : Z; sa_gid : Z; sa_valid : Z; sa_size : Z
}.

(** The fixed struct that follows the header.  CREATE and MKDIR share
    [struct daxfs_delta_create]. *)
Inductive delta_body :=
| BodyWrite (wr : daxfs_delta_write)
| BodyCreate (cr : daxfs_delta_create)
| BodyDelete (del : daxfs_delta_delete)
| BodyTruncate (tr : daxfs_delta_truncate)
| BodyRename (rn : daxfs_delta_rename)
| BodySetattr (sa : daxfs_delta_setattr).

(** [sizeof] of the structs above. *)
Definition sizeof_hdr : Z := 24.

Definition sizeof_body (b : delta_body) : Z :=
  match b with
  | BodyWrite _ => 16
  | BodyCreate _ => 24
  | BodyDelete _ => 16
  | BodyTruncate _ => 8
  | BodyRename _ => 32
  | BodySetattr _ => 24
  end.

(** One entry of the log: header, fixed struct, trailing bytes (name
    bytes or file data). *)
Record delta_entry := mk_entry {
  e_hdr : daxfs_delta_hdr;
  e_body : delta_body;
  e_payload : list byte
}.

#[export] Instance byte_eq_dec : EqDecision byte := Byte.byte_eq_dec.

(** The bytes of a string literal. *)
Definition bytes (s : string) : list byte := String.list_byte_of_string s.

(** [n] bytes starting [off] bytes into a buffer.  A buffer here is the
    payload of one entry (or the string table, or the mapped window): a
    length field that reaches past its end yields the bytes there are,
    where the C code would read on into whatever memory follows. *)
Definition bytes_at (buf : list byte) (off n : Z) : list byte :=
  take (Z.to_nat n) (drop (Z.to_nat off) buf).

(** ** Allocation oracle *)

(** The answers of the successive atomic or blocking allocations; when
    the list is used up every later allocation succeeds. *)
Definition alloc_oracle := list bool.

Definition kzalloc (o : alloc_oracle) : bool * alloc_oracle :=
  match o with
  | [] => (true, [])
  | ok :: o' => (ok, o')
  end.

(** ** In-memory indices *)

Inductive rb_root (A : Type) : Type :=
| rb_nil
| rb_node (rb_left : rb_root A) (entry : A) (rb_right : rb_root A).
Arguments rb_nil {A}.
Arguments rb_node {A} rb_left entry rb_right.

Record daxfs_delta_inode_entry := mk_inode_entry {
  ie_ino : Z;
  ie_hdr : Z;              (* offset of the entry header in the log *)
  ie_deleted : bool;
  ie_size : Z;
  ie_mode : Z
}.

Record daxfs_delta_dirent_entry := mk_dirent_entry {
  de_parent_ino : Z;
  de_name_hash : Z;
  de_name : list byte;
  de_name_len : Z;
  de_hdr : Z;
  de_deleted : bool
}.

(** ** Branch context *)

#[local] Set Warnings "-register-all,-notation-for-abbreviation".

Inductive daxfs_branch_ctx := mk_branch {
  delta_log : gmap Z delta_entry;
  delta_size : Z;
  delta_capacity : Z;
  on_dax_delta_log_size : Z;     (* branch->on_dax->delta_log_size *)
  inode_index : rb_root daxfs_delta_inode_entry;
  dirent_index : rb_root daxfs_delta_dirent_entry;
  parent : option daxfs_branch_ctx
}.

(** The header read at [branch->delta_log + offset]; zero memory where
    nothing was written. *)
Definition zero_hdr : daxfs_delta_hdr := mk_hdr 0 0 0 0.

Definition hdr_at (log : gmap Z delta_entry) (offset : Z) : daxfs_delta_hdr :=
  match log !! offset with
  | Some e => e_hdr e
  | None => zero_hdr
  end.

Definition set_delta_size (b : daxfs_branch_ctx) (n : Z) : daxfs_branch_ctx :=
  mk_branch (delta_log b) n (delta_capacity b) n
            (inode_index b) (dirent_index b) (parent b).

Definition set_delta_log (b : daxfs_branch_ctx) (log : gmap Z delta_entry)
  : daxfs_branch_ctx :=
  mk_branch log (delta_size b) (delta_capacity b) (on_dax_delta_log_size b)
            (inode_index b) (dirent_index b) (parent b).

Definition set_inode_index (b : daxfs_branch_ctx)
    (t : rb_root daxfs_delta_inode_entry) : daxfs_branch_ctx :=
  mk_branch (delta_log b) (delta_size b) (delta_capacity b)
            (on_dax_delta_log_size b) t (dirent_index b) (parent b).

Definition set_dirent_index (b : daxfs_branch_ctx)
    (t : rb_root daxfs_delta_dirent_entry) : daxfs_branch_ctx :=
  mk_branch (delta_log b) (delta_size b) (delta_capacity b)
            (on_dax_delta_log_size b) (inode_index b) t (parent b).

Definition set_parent (b : daxfs_branch_ctx) (p : option daxfs_branch_ctx)
  : daxfs_branch_ctx :=
  mk_branch (delta_log b) (delta_size b) (delta_capacity b)
            (on_dax_delta_log_size b) (inode_index b) (dirent_index b) p.

(** ** The kernel's [jhash]

    [jhash] is the kernel's (linux/jhash.h), not this repository's: the
    development is parametric in it. *)
Class Jhash := jhash : list byte -> Z -> Z -> Z.

Section DeltaLog.
Context `{Jhash}.

(** [dirent_hash]: the 32-bit result of xoring the hash with the high
    half of the parent inode number. *)
Definition dirent_hash (parent_ino : Z) (name : list byte) (namelen : Z) : Z :=
  let hash := u32 (jhash name namelen (u32 parent_ino)) in
  u32 (Z.lxor hash (Z.shiftr parent_ino 32)).

(** [(parent_ino << 32) | hash] in 64 bits. *)
Definition dirent_key (parent_ino hash : Z) : Z :=
  Z.lor (u64 (Z.shiftl parent_ino 32)) hash.

(** [namelen == entry->name_len && memcmp(name, entry->name, namelen) == 0] *)
Definition same_name (name : list byte) (namelen : Z)
    (entry : daxfs_delta_dirent_entry) : bool :=
  (namelen =? de_name_len entry) &&
  bool_decide (bytes_at name 0 namelen = bytes_at (de_name entry) 0 namelen).

(** [daxfs_delta_alloc]: the bump inside the branch's log.  [None] is the
    NULL return. *)
Definition daxfs_delta_alloc (branch : daxfs_branch_ctx) (size : Z)
  : option Z * daxfs_branch_ctx :=
  let new_size := u64 (delta_size branch + size) in
  if delta_capacity branch <? new_size then (None, branch)
  else (Some (delta_size branch), set_delta_size branch new_size).

(** The walk and the update or insertion of [index_add_inode]. *)
Fixpoint index_add_inode_at (root : rb_root daxfs_delta_inode_entry)
    (ino hdr : Z) (deleted : bool) (size mode : Z) (o : alloc_oracle)
  : Z * rb_root daxfs_delta_inode_entry * alloc_oracle :=
  match root with
  | rb_node l entry r =>
      if ino <? ie_ino entry then
        let '(ret, l', o') := index_add_inode_at l ino hdr deleted size mode o in
        (ret, rb_node l' entry r, o')
      else if ie_ino entry <? ino then
        let '(ret, r', o') := index_add_inode_at r ino hdr deleted size mode o in
        (ret, rb_node l entry r', o')
      else
        (0, rb_node l
              (mk_inode_entry (ie_ino entry) hdr deleted
                 (if size =? U64_MAX then ie_size entry else size)
                 (if mode =? U32_MAX then ie_mode entry else mode))
              r, o)
  | rb_nil =>
      let '(ok, o') := kzalloc o in
      if ok then
        (0, rb_node rb_nil
              (mk_inode_entry ino hdr deleted
                 (if size =? U64_MAX then 0 else size)
                 (if mode =? U32_MAX then 0 else mode))
              rb_nil, o')
      else (- ENOMEM, rb_nil, o')
  end.

Definition index_add_inode (branch : daxfs_branch_ctx) (ino hdr : Z)
    (deleted : bool) (size mode : Z) (o : alloc_oracle)
  : Z * daxfs_branch_ctx * alloc_oracle :=
  let '(ret, t, o') :=
    index_add_inode_at (inode_index branch) ino hdr deleted size mode o in
  (ret, set_inode_index branch t, o').

(** The walk and the update or insertion of [index_add_dirent]; the new
    node needs two allocations, the node and the copy of the name. *)
Fixpoint index_add_dirent_at (root : rb_root daxfs_delta_dirent_entry)
    (parent_ino : Z) (name : list byte) (namelen : Z) (hdr : Z)
    (deleted : bool) (o : alloc_oracle)
  : Z * rb_root daxfs_delta_dirent_entry * alloc_oracle :=
  let hash := dirent_hash parent_ino name namelen in
  let key := dirent_key parent_ino hash in
  match root with
  | rb_node l entry r =>
      let entry_key := dirent_key (de_parent_ino entry) (de_name_hash entry) in
      if key <? entry_key then
        let '(ret, l', o') :=
          index_add_dirent_at l parent_ino name namelen hdr deleted o in
        (ret, rb_node l' entry r, o')
      else if entry_key <? key then
        let '(ret, r', o') :=
          index_add_dirent_at r parent_ino name namelen hdr deleted o in
        (ret, rb_node l entry r', o')
      else if same_name name namelen entry then
        (0, rb_node l
              (mk_dirent_entry (de_parent_ino entry) (de_name_hash entry)
                 (de_name entry) (de_name_len entry) hdr deleted)
              r, o)
      else
        (* hash collision: right subtree *)
        let '(ret, r', o') :=
          index_add_dirent_at r parent_ino name namelen hdr deleted o in
        (ret, rb_node l entry r', o')
  | rb_nil =>
      let '(ok, o1) := kzalloc o in
      if ok then
        let '(ok_name, o2) := kzalloc o1 in
        if ok_name then
          (0, rb_node rb_nil
                (mk_dirent_entry parent_ino hash (bytes_at name 0 namelen)
                   namelen hdr deleted)
                rb_nil, o2)
        else (- ENOMEM, rb_nil, o2)
      else (- ENOMEM, rb_nil, o1)
  end.

Definition index_add_dirent (branch : daxfs_branch_ctx) (parent_ino : Z)
    (name : list byte) (namelen : Z) (hdr : Z) (deleted : bool)
    (o : alloc_oracle)
  : Z * daxfs_branch_ctx * alloc_oracle :=
  let '(ret, t, o') :=
    index_add_dirent_at (dirent_index branch) parent_ino name namelen hdr
                        deleted o in
  (ret, set_dirent_index branch t, o').

(** The [switch (type)] that indexes one entry.  [daxfs_delta_append]
    and [daxfs_delta_build_index] carry the same switch, case by case;
    both drop the value the [index_add_*] calls return.  The struct is
    read back from the log; a slot whose struct is not the one its type
    names stands for bytes this development does not decode, and is left
    out of the indices. *)
Definition index_delta_entry (branch : daxfs_branch_ctx) (type ino hdr : Z)
    (body : delta_body) (payload : list byte) (o : alloc_oracle)
  : daxfs_branch_ctx * alloc_oracle :=
  if bool_decide (type = DAXFS_DELTA_CREATE \/ type = DAXFS_DELTA_MKDIR) then
    match body with
    | BodyCreate cr =>
        let name := bytes_at payload 0 (cr_name_len cr) in
        let '(_, b1, o1) :=
          index_add_inode branch (cr_new_ino cr) hdr false 0 (cr_mode cr) o in
        let '(_, b2, o2) :=
          index_add_dirent b1 (cr_parent_ino cr) name (cr_name_len cr) hdr
                           false o1 in
        (b2, o2)
    | _ => (branch, o)
    end
  else if type =? DAXFS_DELTA_DELETE then
    match body with
    | BodyDelete del =>
        let name := bytes_at payload 0 (del_name_len del) in
        let '(_, b1, o1) :=
          index_add_inode branch ino hdr true U64_MAX U32_MAX o in
        let '(_, b2, o2) :=
          index_add_dirent b1 (del_parent_ino del) name (del_name_len del) hdr
                           true o1 in
        (b2, o2)
    | _ => (branch, o)
    end
  else if type =? DAXFS_DELTA_TRUNCATE then
    match body with
    | BodyTruncate tr =>
        let '(_, b1, o1) :=
          index_add_inode branch ino hdr false (tr_new_size tr) U32_MAX o in
        (b1, o1)
    | _ => (branch, o)
    end
  else if type =? DAXFS_DELTA_WRITE then
    match body with
    | BodyWrite wr =>
        let end_ := u64 (wr_offset wr + wr_len wr) in
        (* "Update size if write extends file" *)
        let '(_, b1, o1) :=
          index_add_inode branch ino hdr false end_ U32_MAX o in
        (b1, o1)
    | _ => (branch, o)
    end
  else if type =? DAXFS_DELTA_SETATTR then
    match body with
    | BodySetattr sa =>
        let valid := sa_valid sa in
        let size := if Z.land valid DAXFS_ATTR_SIZE =? 0 then U64_MAX
                    else sa_size sa in
        let mode := if Z.land valid DAXFS_ATTR_MODE =? 0 then U32_MAX
                    else sa_mode sa in
        let '(_, b1, o1) := index_add_inode branch ino hdr false size mode o in
        (b1, o1)
    | _ => (branch, o)
    end
  else if type =? DAXFS_DELTA_RENAME then
    match body with
    | BodyRename rn =>
        let old_name := bytes_at payload 0 (rn_old_name_len rn) in
        let new_name :=
          bytes_at payload (rn_old_name_len rn) (rn_new_name_len rn) in
        (* Delete from old location *)
        let '(_, b1, o1) :=
          index_add_dirent branch (rn_old_parent_ino rn) old_name
                           (rn_old_name_len rn) hdr true o in
        (* Add at new location *)
        let '(_, b2, o2) :=
          index_add_dirent b1 (rn_new_parent_ino rn) new_name
                           (rn_new_name_len rn) hdr false o1 in
        (b2, o2)
    | _ => (branch, o)
    end
  else (branch, o).

(** [daxfs_delta_append].  [data] is the struct and the bytes after it,
    [data_len] their size; [now] is [ktime_get_real_ns()]. *)
Definition daxfs_delta_append (branch : daxfs_branch_ctx) (type ino : Z)
    (body : delta_body) (payload : list byte) (now : Z) (o : alloc_oracle)
  : Z * daxfs_branch_ctx * alloc_oracle :=
  let data_len := sizeof_body body + Z.of_nat (length payload) in
  let total_size := u64 (sizeof_hdr + data_len) in
  match daxfs_delta_alloc branch total_size with
  | (None, _) => (- ENOSPC, branch, o)
  | (Some entry, b1) =>
      let hdr := mk_hdr (u32 type) (u32 total_size) (u64 ino) (u64 now) in
      let b2 :=
        set_delta_log b1 (<[entry := mk_entry hdr body payload]> (delta_log b1)) in
      let '(b3, o') := index_delta_entry b2 type ino entry body payload o in
      (0, b3, o')
  end.

(** The loop of [daxfs_delta_build_index] over the log.  Every round
    moves [offset] forward by a non-zero [total_size], so
    [delta_size - offset] rounds are enough; [None] is a scan that has
    not ended within [fuel] rounds. *)
Fixpoint build_index_scan (fuel : nat) (branch : daxfs_branch_ctx)
    (offset : Z) (o : alloc_oracle)
  : option (daxfs_branch_ctx * alloc_oracle) :=
  if offset <? delta_size branch then
    match fuel with
    | O => None
    | S fuel' =>
        let hdr := hdr_at (delta_log branch) offset in
        let type := u32 (hdr_type hdr) in
        let total_size := u32 (hdr_total_size hdr) in
        if (total_size =? 0)
           || (delta_size branch <? u64 (offset + total_size)) then
          Some (branch, o)
        else
          let '(b', o') :=
            match delta_log branch !! offset with
            | Some e =>
                index_delta_entry branch type (hdr_ino hdr) offset
                                  (e_body e) (e_payload e) o
            | None => (branch, o)
            end in
          build_index_scan fuel' b' (u64 (offset + total_size)) o'
    end
  else Some (branch, o).

(** [daxfs_delta_build_index]: the parent first when its inode index is
    empty ([rb_first(...) == NULL]), then this branch's log. *)
Fixpoint daxfs_delta_build_index (branch : daxfs_branch_ctx)
    (o : alloc_oracle) : option (Z * daxfs_branch_ctx * alloc_oracle) :=
  let scan b o :=
    match build_index_scan (Z.to_nat (delta_size b)) b 0 o with
    | Some (b', o') => Some (0, b', o')
    | None => None
    end in
  match branch with
  | mk_branch log sz cap dax ii di (Some p) =>
      match inode_index p with
      | rb_nil =>
          match daxfs_delta_build_index p o with
          | Some (ret, p', o') =>
              let branch' := mk_branch log sz cap dax ii di (Some p') in
              if ret =? 0 then scan branch' o' else Some (ret, branch', o')
          | None => None
          end
      | rb_node _ _ _ => scan branch o
      end
  | mk_branch _ _ _ _ _ _ None => scan branch o
  end.

(** The walk shared by [daxfs_delta_lookup_inode],
    [daxfs_delta_is_deleted], [daxfs_delta_get_size] and the second walk
    of [daxfs_resolve_inode]: four copies of one loop in the source. *)
Fixpoint inode_index_walk (node : rb_root daxfs_delta_inode_entry) (ino : Z)
  : option daxfs_delta_inode_entry :=
  match node with
  | rb_node l entry r =>
      if ino <? ie_ino entry then inode_index_walk l ino
      else if ie_ino entry <? ino then inode_index_walk r ino
      else Some entry
  | rb_nil => None
  end.

Definition daxfs_delta_lookup_inode (branch : daxfs_branch_ctx) (ino : Z)
  : option Z :=
  ie_hdr <$> inode_index_walk (inode_index branch) ino.

Fixpoint dirent_index_walk (node : rb_root daxfs_delta_dirent_entry)
    (key : Z) (name : list byte) (namelen : Z)
  : option daxfs_delta_dirent_entry :=
  match node with
  | rb_node l entry r =>
      let entry_key := dirent_key (de_parent_ino entry) (de_name_hash entry) in
      if key <? entry_key then dirent_index_walk l key name namelen
      else if entry_key <? key then dirent_index_walk r key name namelen
      else if same_name name namelen entry then Some entry
      else dirent_index_walk r key name namelen
  | rb_nil => None
  end.

Definition daxfs_delta_lookup_dirent (branch : daxfs_branch_ctx)
    (parent_ino : Z) (name : list byte) (namelen : Z) : option Z :=
  let hash := dirent_hash parent_ino name namelen in
  let key := dirent_key parent_ino hash in
  de_hdr <$> dirent_index_walk (dirent_index branch) key name namelen.

Definition daxfs_delta_is_deleted (branch : daxfs_branch_ctx) (ino : Z)
  : bool :=
  match inode_index_walk (inode_index branch) ino with
  | Some entry => ie_deleted entry
  | None => false
  end.

(** [daxfs_delta_get_size]: [inl size] for 0 with [*size] set, [inr]
    for the error. *)
Definition daxfs_delta_get_size (branch : daxfs_branch_ctx) (ino : Z)
  : Z + Z :=
  match inode_index_walk (inode_index branch) ino with
  | Some entry => inl (ie_size entry)
  | None => inr (- ENOENT)
  end.

(** ** Filesystem state

    [struct daxfs_info] and the VFS inode are declared outside the files
    at hand; the fields are the ones the code reads and writes. *)

Record daxfs_base_inode := mk_base_inode {
  bi_ino : Z; bi_mode : Z; bi_uid : Z; bi_gid : Z; bi_size : Z;
  bi_data_offset : Z; bi_name_offset : Z; bi_name_len : Z;
  bi_parent_ino : Z; bi_nlink : Z; bi_first_child : Z; bi_next_sibling : Z
}.

Record daxfs_super := mk_super {
  sb_base_offset : Z;
  sb_next_inode_id : Z;
  sb_delta_region_offset : Z;
  sb_delta_region_size : Z;
  sb_delta_alloc_offset : Z
}.

Record daxfs_info := mk_info {
  super : daxfs_super;
  mem : list byte;                    (* the mapped window, read for base data *)
  size : Z;
  delta_alloc_offset : Z;
  base_inodes : option (list daxfs_base_inode);   (* None: no base image *)
  base_inode_count : Z;
  base_strtab : list byte;
  current_branch : option daxfs_branch_ctx
}.

Definition set_current_branch (info : daxfs_info)
    (b : option daxfs_branch_ctx) : daxfs_info :=
  mk_info (super info) (mem info) (size info) (delta_alloc_offset info)
          (base_inodes info) (base_inode_count info) (base_strtab info) b.

Record vfs_inode := mk_vfs_inode { i_ino : Z; i_size : Z; i_mode : Z }.

(** [&array[i - 1]] for a 1-based inode number; [None] is a read outside
    the array. *)
Definition base_inode_at (inodes : list daxfs_base_inode) (i : Z)
  : option daxfs_base_inode :=
  if 1 <=? i then inodes !! Z.to_nat (i - 1) else None.

(** ** dax_mem.c *)

(** [daxfs_mem_ptr]: [None] is NULL. *)
Definition daxfs_mem_ptr (info : daxfs_info) (offset : Z) : option Z :=
  if size info <=? offset then None else Some offset.

(** [daxfs_mem_alloc_region]: returns the offset, or 0 when out of
    space. *)
Definition daxfs_mem_alloc_region (info : daxfs_info) (size_ : Z)
  : Z * daxfs_info :=
  let offset := delta_alloc_offset info in
  let end_ := u64 (offset + size_) in
  let region_end :=
    u64 (sb_delta_region_offset (super info)
         + sb_delta_region_size (super info)) in
  if region_end <? end_ then (0, info)
  else
    (offset,
     mk_info (mk_super (sb_base_offset (super info))
                       (sb_next_inode_id (super info))
                       (sb_delta_region_offset (super info))
                       (sb_delta_region_size (super info))
                       end_)
             (mem info) (size info) end_
             (base_inodes info) (base_inode_count info) (base_strtab info)
             (current_branch info)).

(** ** Resolution through the branch chain *)

(** [for (b = ...; b; b = b->parent) if (daxfs_delta_is_deleted(b, ino))] *)
Fixpoint deleted_in_chain (b : daxfs_branch_ctx) (ino : Z) : bool :=
  if daxfs_delta_is_deleted b ino then true
  else match b with
       | mk_branch _ _ _ _ _ _ (Some p) => deleted_in_chain p ino
       | mk_branch _ _ _ _ _ _ None => false
       end.

Inductive name_result :=
| NameFound (ino : Z)     (* true, with [*ino_out] *)
| NameAbsent.             (* false *)

(** First loop of [daxfs_name_exists]: the delta logs from child to
    parent.  [None]: no branch decided. *)
Fixpoint name_exists_delta (b : daxfs_branch_ctx) (parent_ino : Z)
    (name : list byte) (namelen : Z) : option name_result :=
  let next :=
    match b with
    | mk_branch _ _ _ _ _ _ (Some p) =>
        name_exists_delta p parent_ino name namelen
    | mk_branch _ _ _ _ _ _ None => None
    end in
  match daxfs_delta_lookup_dirent b parent_ino name namelen with
  | Some hdr =>
      let type := u32 (hdr_type (hdr_at (delta_log b) hdr)) in
      if type =? DAXFS_DELTA_DELETE then Some NameAbsent
      else if bool_decide (type = DAXFS_DELTA_CREATE
                           \/ type = DAXFS_DELTA_MKDIR) then
        match e_body <$> delta_log b !! hdr with
        | Some (BodyCreate cr) => Some (NameFound (cr_new_ino cr))
        | _ => next
        end
      else next
  | None => next
  end.

(** Second loop: the children of [parent_ino] in the base image, from
    [child_ino] on.  A sibling list without a cycle has at most
    [base_inode_count] members; [None] is a walk that has not ended
    within [fuel] rounds, or a read outside the inode table. *)
Fixpoint name_exists_base (fuel : nat) (info : daxfs_info)
    (inodes : list daxfs_base_inode) (child_ino : Z)
    (name : list byte) (namelen : Z) : option name_result :=
  if negb (child_ino =? 0) && (child_ino <=? base_inode_count info) then
    match fuel with
    | O => None
    | S fuel' =>
        match base_inode_at inodes child_ino with
        | None => None
        | Some child =>
            let child_name :=
              bytes_at (base_strtab info) (bi_name_offset child)
                       (bi_name_len child) in
            if (namelen =? bi_name_len child)
               && bool_decide (bytes_at name 0 namelen
                               = bytes_at child_name 0 namelen) then
              if match current_branch info with
                 | Some b => deleted_in_chain b child_ino
                 | None => false
                 end
              then Some NameAbsent
              else Some (NameFound child_ino)
            else
              name_exists_base fuel' info inodes (bi_next_sibling child)
                               name namelen
        end
    end
  else Some NameAbsent.

Definition daxfs_name_exists (info : daxfs_info) (parent_ino : Z)
    (name : list byte) (namelen : Z) : option name_result :=
  match match current_branch info with
        | Some b => name_exists_delta b parent_ino name namelen
        | None => None
        end with
  | Some r => Some r
  | None =>
      match base_inodes info with
      | Some inodes =>
          if base_inode_count info <? parent_ino then Some NameAbsent
          else
            match base_inode_at inodes parent_ino with
            | None => None
            | Some parent_raw =>
                name_exists_base (S (Z.to_nat (base_inode_count info))) info
                                 inodes (bi_first_child parent_raw)
                                 name namelen
            end
      | None => Some NameAbsent
      end
  end.

Inductive inode_result :=
| InodeDeleted                       (* 0, [*deleted = true] *)
| InodeAttr (mode size : Z)          (* 0, [*mode] and [*size] set *)
| InodeNoent.                        (* -ENOENT *)

(** The loop of [daxfs_resolve_inode] over the chain; [None]: no branch
    knows the inode. *)
Fixpoint resolve_inode_delta (b : daxfs_branch_ctx) (ino : Z)
  : option inode_result :=
  let next :=
    match b with
    | mk_branch _ _ _ _ _ _ (Some p) => resolve_inode_delta p ino
    | mk_branch _ _ _ _ _ _ None => None
    end in
  if daxfs_delta_is_deleted b ino then Some InodeDeleted
  else
    match daxfs_delta_lookup_inode b ino with
    | Some hdr =>
        let type := u32 (hdr_type (hdr_at (delta_log b) hdr)) in
        if type =? DAXFS_DELTA_DELETE then Some InodeDeleted
        else
          match inode_index_walk (inode_index b) ino with
          | Some entry => Some (InodeAttr (ie_mode entry) (ie_size entry))
          | None => next
          end
    | None => next
    end.

(** [daxfs_resolve_inode]; [None] is a read outside the inode table
    ([ino = 0]). *)
Definition daxfs_resolve_inode (info : daxfs_info) (ino : Z)
  : option inode_result :=
  match match current_branch info with
        | Some b => resolve_inode_delta b ino
        | None => None
        end with
  | Some r => Some r
  | None =>
      match base_inodes info with
      | Some inodes =>
          if ino <=? base_inode_count info then
            match base_inode_at inodes ino with
            | Some raw => Some (InodeAttr (bi_mode raw) (bi_size raw))
            | None => None
            end
          else Some InodeNoent
      | None => Some InodeNoent
      end
  end.

(** A pointer into file data: into the payload of a WRITE entry of the
    branch [depth] steps up the chain, or into the mapped window. *)
Inductive data_ptr :=
| PtrDelta (depth : nat) (entry : Z) (data_off : Z)
| PtrMem (offset : Z).

(** The scan of one branch's log in [daxfs_resolve_file_data].  Outer
    [None]: not ended within [fuel] rounds.  [Some None]: the scan ended
    and no entry covers [pos]. *)
Fixpoint file_data_scan (fuel : nat) (b : daxfs_branch_ctx) (depth : nat)
    (offset ino pos len : Z) : option (option (data_ptr * Z)) :=
  if offset <? delta_size b then
    match fuel with
    | O => None
    | S fuel' =>
        let hdr := hdr_at (delta_log b) offset in
        let type := u32 (hdr_type hdr) in
        let total_size := u32 (hdr_total_size hdr) in
        if total_size =? 0 then Some None
        else
          let next :=
            file_data_scan fuel' b depth (u64 (offset + total_size))
                           ino pos len in
          if (type =? DAXFS_DELTA_WRITE) && (hdr_ino hdr =? ino) then
            match e_body <$> delta_log b !! offset with
            | Some (BodyWrite wr) =>
                let wr_offset := wr_offset wr in
                let wr_len := wr_len wr in
                if (wr_offset <=? pos) && (pos <? u64 (wr_offset + wr_len))
                then
                  (* Found data at this position *)
                  let data_off := pos - wr_offset in
                  let avail := u64 (wr_len - data_off) in
                  Some (Some (PtrDelta depth offset data_off, Z.min len avail))
                else next
            | _ => next
            end
          else next
    end
  else Some None.

Fixpoint resolve_file_data_delta (b : daxfs_branch_ctx) (depth : nat)
    (ino pos len : Z) : option (option (data_ptr * Z)) :=
  match file_data_scan (Z.to_nat (delta_size b)) b depth 0 ino pos len with
  | None => None
  | Some (Some r) => Some (Some r)
  | Some None =>
      match b with
      | mk_branch _ _ _ _ _ _ (Some p) =>
          resolve_file_data_delta p (S depth) ino pos len
      | mk_branch _ _ _ _ _ _ None => Some None
      end
  end.

(** [daxfs_resolve_file_data]: the returned pointer ([None] for NULL)
    and [*out_len]. *)
Definition daxfs_resolve_file_data (info : daxfs_info) (ino pos len : Z)
  : option (option data_ptr * Z) :=
  match match current_branch info with
        | Some b => resolve_file_data_delta b 0 ino pos len
        | None => Some None
        end with
  | None => None
  | Some (Some (p, out_len)) => Some (Some p, out_len)
  | Some None =>
      (* Fall back to base image using storage layer *)
      match base_inodes info with
      | Some inodes =>
          if ino <=? base_inode_count info then
            match base_inode_at inodes ino with
            | None => None
            | Some raw =>
                let file_size := bi_size raw in
                if file_size <=? pos then Some (None, 0)
                else
                  let out_len := Z.min len (file_size - pos) in
                  let abs_offset :=
                    u64 (sb_base_offset (super info) + bi_data_offset raw
                         + pos) in
                  Some (PtrMem <$> daxfs_mem_ptr info abs_offset, out_len)
            end
          else Some (None, 0)
      | None => Some (None, 0)
      end
  end.

Fixpoint nth_branch (b : daxfs_branch_ctx) (depth : nat)
  : option daxfs_branch_ctx :=
  match depth with
  | O => Some b
  | S d => match b with
           | mk_branch _ _ _ _ _ _ (Some p) => nth_branch p d
           | mk_branch _ _ _ _ _ _ None => None
           end
  end.

(** The [n] bytes a pointer points at. *)
Definition load (info : daxfs_info) (p : data_ptr) (n : Z) : list byte :=
  match p with
  | PtrMem offset => bytes_at (mem info) offset n
  | PtrDelta depth entry data_off =>
      match current_branch info ≫= (fun b => nth_branch b depth) with
      | Some b =>
          match delta_log b !! entry with
          | Some e => bytes_at (e_payload e) data_off n
          | None => []
          end
      | None => []
      end
  end.

(** ** File operations *)

(** The loop of [daxfs_read_iter].  [room] is how many bytes the
    destination takes before [copy_to_iter] comes up short; [out] is
    what has been copied out.  Result: return value, [iocb->ki_pos],
    bytes copied out. *)
Fixpoint read_iter_loop (fuel : nat) (info : daxfs_info) (ino ki_pos : Z)
    (pos count total room : Z) (out : list byte)
  : option (Z * Z * list byte) :=
  if 0 <? count then
    match fuel with
    | O => None
    | S fuel' =>
        match daxfs_resolve_file_data info ino pos count with
        | None => None
        | Some (None, _) => Some (total, pos, out)
        | Some (Some src, chunk) =>
            if chunk =? 0 then Some (total, pos, out)
            else
              let copied := Z.min chunk room in
              let out' := out ++ load info src copied in
              if copied =? chunk then
                read_iter_loop fuel' info ino ki_pos (pos + chunk)
                               (count - chunk) (total + chunk)
                               (room - chunk) out'
              else
                Some (if total =? 0 then - EFAULT else total, ki_pos, out')
        end
    end
  else Some (total, pos, out).

Definition daxfs_read_iter (info : daxfs_info) (inode : vfs_inode)
    (ki_pos count room : Z) : option (Z * Z * list byte) :=
  let pos := ki_pos in
  if i_size inode <=? pos then Some (0, ki_pos, [])
  else
    let count :=
      if i_size inode <? u64 (pos + count) then i_size inode - pos
      else count in
    read_iter_loop (Z.to_nat count) info (i_ino inode) ki_pos pos count 0
                   room [].

(** "Manually update index for this write": the walk of
    [daxfs_write_iter] over the inode index. *)
Fixpoint write_iter_index (root : rb_root daxfs_delta_inode_entry)
    (inode : vfs_inode) (hdr end_ : Z) (o : alloc_oracle)
  : rb_root daxfs_delta_inode_entry * alloc_oracle :=
  match root with
  | rb_node l ie r =>
      if i_ino inode <? ie_ino ie then
        let '(l', o') := write_iter_index l inode hdr end_ o in
        (rb_node l' ie r, o')
      else if ie_ino ie <? i_ino inode then
        let '(r', o') := write_iter_index r inode hdr end_ o in
        (rb_node l ie r', o')
      else
        (* Update existing *)
        (rb_node l
           (mk_inode_entry (ie_ino ie) hdr (ie_deleted ie)
              (if ie_size ie <? end_ then end_ else ie_size ie)
              (ie_mode ie))
           r, o)
  | rb_nil =>
      let '(ok, o') := kzalloc o in
      if ok then
        (rb_node rb_nil
           (mk_inode_entry (i_ino inode) hdr false end_ (i_mode inode))
           rb_nil, o')
      else (rb_nil, o')
  end.

(** [daxfs_write_iter].  [from] is the user buffer, [copied] the number
    of bytes [copy_from_iter] manages to copy ([len] when all goes
    well).  Result: return value, filesystem state, inode,
    [iocb->ki_pos], oracle.  [None]: no current branch to write to. *)
Definition daxfs_write_iter (info : daxfs_info) (inode : vfs_inode)
    (ki_pos : Z) (from : list byte) (copied : Z) (now : Z)
    (o : alloc_oracle)
  : option (Z * daxfs_info * vfs_inode * Z * alloc_oracle) :=
  let pos := ki_pos in
  let len := Z.of_nat (length from) in
  if len =? 0 then Some (0, info, inode, ki_pos, o)
  else
    match current_branch info with
    | None => None
    | Some branch =>
        let entry_size := u64 (sizeof_hdr + 16 + len) in
        match daxfs_delta_alloc branch entry_size with
        | (None, _) => Some (- ENOSPC, info, inode, ki_pos, o)
        | (Some entry, b1) =>
            let hdr := mk_hdr DAXFS_DELTA_WRITE (u32 entry_size)
                              (u64 (i_ino inode)) (u64 now) in
            let wr := mk_write (u64 pos) (u32 len) 0 in
            let data :=
              bytes_at from 0 copied
              ++ replicate (Z.to_nat (len - copied)) x00 in
            let b2 :=
              set_delta_log b1
                (<[entry := mk_entry hdr (BodyWrite wr) data]> (delta_log b1)) in
            if negb (copied =? len) then
              Some (- EFAULT, set_current_branch info (Some b2), inode,
                    ki_pos, o)
            else
              let end_ := u64 (pos + len) in
              (* Update inode size if extending *)
              let inode' :=
                if i_size inode <? end_
                then mk_vfs_inode (i_ino inode) end_ (i_mode inode)
                else inode in
              let '(t, o') :=
                write_iter_index (inode_index b2) inode entry end_ o in
              let b3 := set_inode_index b2 t in
              Some (len, set_current_branch info (Some b3), inode',
                    u64 (pos + len), o')
        end
  end.

(** ** Directory operations

    The handlers up to the point where they hand over to the VFS
    ([daxfs_new_inode], [d_instantiate], link counts).  [new_ino] is what
    [daxfs_alloc_ino] returns.  Result: return value, filesystem state,
    oracle; [None]: no current branch, or [daxfs_name_exists] has no
    defined result. *)

Definition set_next_inode_id (info : daxfs_info) (n : Z) : daxfs_info :=
  mk_info (mk_super (sb_base_offset (super info)) n
                    (sb_delta_region_offset (super info))
                    (sb_delta_region_size (super info))
                    (sb_delta_alloc_offset (super info)))
          (mem info) (size info) (delta_alloc_offset info)
          (base_inodes info) (base_inode_count info) (base_strtab info)
          (current_branch info).

Definition S_IFDIR : Z := 16384.

(** The common body of [daxfs_create] and [daxfs_mkdir], which differ in
    the entry type and in the mode they record. *)
Definition create_entry (info : daxfs_info) (type dir_ino : Z)
    (name : list byte) (mode new_ino now : Z) (o : alloc_oracle)
  : option (Z * daxfs_info * alloc_oracle) :=
  let namelen := Z.of_nat (length name) in
  match daxfs_name_exists info dir_ino name namelen with
  | None => None
  | Some (NameFound _) => Some (- EEXIST, info, o)
  | Some NameAbsent =>
      match current_branch info with
      | None => None
      | Some branch =>
          let info1 :=
            if sb_next_inode_id (super info) <=? new_ino
            then set_next_inode_id info (u64 (new_ino + 1)) else info in
          let cr := mk_create (u64 dir_ino) (u64 new_ino) (u32 mode)
                              (u16 namelen) 0 in
          let '(ok, o1) := kzalloc o in
          if ok then
            let '(ret, b', o2) :=
              daxfs_delta_append branch type new_ino (BodyCreate cr) name
                                 now o1 in
            Some (ret, set_current_branch info1 (Some b'), o2)
          else Some (- ENOMEM, info1, o1)
      end
  end.

Definition daxfs_create (info : daxfs_info) (dir_ino : Z) (name : list byte)
    (mode new_ino now : Z) (o : alloc_oracle) :=
  create_entry info DAXFS_DELTA_CREATE dir_ino name mode new_ino now o.

Definition daxfs_mkdir (info : daxfs_info) (dir_ino : Z) (name : list byte)
    (mode new_ino now : Z) (o : alloc_oracle) :=
  create_entry info DAXFS_DELTA_MKDIR dir_ino name (Z.lor mode S_IFDIR)
               new_ino now o.

Definition daxfs_unlink (info : daxfs_info) (dir_ino : Z) (name : list byte)
    (inode_ino now : Z) (o : alloc_oracle)
  : option (Z * daxfs_info * alloc_oracle) :=
  match current_branch info with
  | None => None
  | Some branch =>
      let del := mk_delete (u64 dir_ino) (u16 (Z.of_nat (length name))) 0 0 in
      let '(ok, o1) := kzalloc o in
      if ok then
        let '(ret, b', o2) :=
          daxfs_delta_append branch DAXFS_DELTA_DELETE inode_ino
                             (BodyDelete del) name now o1 in
        Some (ret, set_current_branch info (Some b'), o2)
      else Some (- ENOMEM, info, o1)
  end.

Definition daxfs_rename (info : daxfs_info) (old_dir_ino : Z)
    (old_name : list byte) (new_dir_ino : Z) (new_name : list byte)
    (inode_ino flags now : Z) (o : alloc_oracle)
  : option (Z * daxfs_info * alloc_oracle) :=
  if negb (Z.land flags (Z.lnot RENAME_NOREPLACE) =? 0) then
    Some (- EINVAL, info, o)
  else
    match daxfs_name_exists info new_dir_ino new_name
                            (Z.of_nat (length new_name)) with
    | None => None
    | Some target =>
        if match target with NameFound _ => true | NameAbsent => false end
           && negb (Z.land flags RENAME_NOREPLACE =? 0)
        then Some (- EEXIST, info, o)
        else
          match current_branch info with
          | None => None
          | Some branch =>
              let rn := mk_rename (u64 old_dir_ino) (u64 new_dir_ino)
                                  (u64 inode_ino)
                                  (u16 (Z.of_nat (length old_name)))
                                  (u16 (Z.of_nat (length new_name))) 0 in
              let '(ok, o1) := kzalloc o in
              if ok then
                let '(ret, b', o2) :=
                  daxfs_delta_append branch DAXFS_DELTA_RENAME inode_ino
                                     (BodyRename rn) (old_name ++ new_name)
                                     now o1 in
                Some (ret, set_current_branch info (Some b'), o2)
              else Some (- ENOMEM, info, o1)
          end
    end.

(** [daxfs_lookup], as far as the name resolution goes: the inode number
    handed to [daxfs_iget], or nothing for a negative dentry. *)
Definition daxfs_lookup (info : daxfs_info) (dir_ino : Z) (name : list byte)
  : option name_result :=
  daxfs_name_exists info dir_ino name (Z.of_nat (length name)).

End DeltaLog.

(** ** Notions the properties are stated with *)

(** The entries of an index, left to right. *)
Fixpoint rb_entries {A : Type} (t : rb_root A) : list A :=
  match t with
  | rb_nil => []
  | rb_node l e r => rb_entries l ++ e :: rb_entries r
  end.

(** The branch has an inode-index entry for [ino]. *)
Definition has_inode_entry (b : daxfs_branch_ctx) (ino : Z) : Prop :=
  exists e, e ∈ rb_entries (inode_index b) /\ ie_ino e = ino.

(** The branches from [b] up to the root of the chain. *)
Fixpoint branch_chain (b : daxfs_branch_ctx) : list daxfs_branch_ctx :=
  b :: match b with
       | mk_branch _ _ _ _ _ _ (Some p) => branch_chain p
       | mk_branch _ _ _ _ _ _ None => []
       end.

(** What the last part of [daxfs_resolve_inode] answers from the base
    image alone. *)
Definition resolve_inode_base (info : daxfs_info) (ino : Z)
  : option inode_result :=
  match base_inodes info with
  | Some inodes =>
      if ino <=? base_inode_count info then
        match base_inode_at inodes ino with
        | Some raw => Some (InodeAttr (bi_mode raw) (bi_size raw))
        | None => None
        end
      else Some InodeNoent
  | None => Some InodeNoent
  end.

(** A hash to run examples with; any function would do. *)
Definition sample_jhash : Jhash :=
  fun name len seed =>
    fold_left (fun acc b => u32 (acc * 31 + Z.of_N (Byte.to_N b)))
              name (u32 (seed + len)).

(** A branch with nothing in it. *)
Definition fresh_branch (capacity : Z) (p : option daxfs_branch_ctx)
  : daxfs_branch_ctx :=
  mk_branch ∅ 0 capacity 0 rb_nil rb_nil p.

(** A base image with the root directory (inode 1) and one file
    [/foo] (inode 2) holding the bytes "base", under a main branch with
    an empty log and a child branch forked from it.  Of the mapped window
    the bytes up to the end of the file data are spelled out. *)
Definition sample_base : list daxfs_base_inode :=
  [ mk_base_inode 1 16877 0 0 0 0 0 0 0 2 2 0;
    mk_base_inode 2 33188 0 0 4 64 0 3 1 1 0 0 ].

Definition sample_info : daxfs_info :=
  mk_info (mk_super 0 3 4096 65536 12288)
          (replicate 64 x00 ++ bytes "base") 69632 12288
          (Some sample_base) 2 (bytes "foo")
          (Some (fresh_branch 4096 (Some (fresh_branch 4096 None)))).

(** The inode numbers an index has entries for. *)
Definition rb_inos (t : rb_root daxfs_delta_inode_entry) : list Z :=
  ie_ino <$> rb_entries t.

(** The inode number under which the indexing switch files an entry,
    if it files it in the inode index at all. *)
Definition entry_inode (e : delta_entry) : option Z :=
  match e_body e with
  | BodyCreate cr => Some (cr_new_ino cr)
  | BodyRename _ => None
  | _ => Some (hdr_ino (e_hdr e))
  end.

(** No entry of the log is about [ino]. *)
Definition log_silent_on (log : gmap Z delta_entry) (ino : Z) : Prop :=
  forall offset e, log !! offset = Some e -> entry_inode e <> Some ino.

(** *** The indexing switch as a list of index calls *)

Inductive index_request :=
| ReqInode (ino hdr : Z) (deleted : bool) (size mode : Z)
| ReqDirent (parent_ino : Z) (name : list byte) (namelen hdr : Z)
            (deleted : bool).

(** The [index_add_*] calls the switch makes for one entry, in order. *)
Definition entry_requests (type ino hdr : Z) (body : delta_body)
    (payload : list byte) : list index_request :=
  match body with
  | BodyCreate cr =>
      if bool_decide (type = DAXFS_DELTA_CREATE \/ type = DAXFS_DELTA_MKDIR)
      then [ReqInode (cr_new_ino cr) hdr false 0 (cr_mode cr);
            ReqDirent (cr_parent_ino cr)
                      (bytes_at payload 0 (cr_name_len cr))
                      (cr_name_len cr) hdr false]
      else []
  | BodyDelete del =>
      if type =? DAXFS_DELTA_DELETE
      then [ReqInode ino hdr true U64_MAX U32_MAX;
            ReqDirent (del_parent_ino del)
                      (bytes_at payload 0 (del_name_len del))
                      (del_name_len del) hdr true]
      else []
  | BodyTruncate tr =>
      if type =? DAXFS_DELTA_TRUNCATE
      then [ReqInode ino hdr false (tr_new_size tr) U32_MAX]
      else []
  | BodyWrite wr =>
      if type =? DAXFS_DELTA_WRITE
      then [ReqInode ino hdr false (u64 (wr_offset wr + wr_len wr)) U32_MAX]
      else []
  | BodySetattr sa =>
      if type =? DAXFS_DELTA_SETATTR
      then [ReqInode ino hdr false
              (if Z.land (sa_valid sa) DAXFS_ATTR_SIZE =? 0 then U64_MAX
               else sa_size sa)
              (if Z.land (sa_valid sa) DAXFS_ATTR_MODE =? 0 then U32_MAX
               else sa_mode sa)]
      else []
  | BodyRename rn =>
      if type =? DAXFS_DELTA_RENAME
      then [ReqDirent (rn_old_parent_ino rn)
                      (bytes_at payload 0 (rn_old_name_len rn))
                      (rn_old_name_len rn) hdr true;
            ReqDirent (rn_new_parent_ino rn)
                      (bytes_at payload (rn_old_name_len rn)
                                (rn_new_name_len rn))
                      (rn_new_name_len rn) hdr false]
      else []
  end.

(** Making the calls, return values dropped as the switch drops them. *)
Fixpoint apply_requests `{Jhash} (b : daxfs_branch_ctx)
    (reqs : list index_request) (o : alloc_oracle)
  : daxfs_branch_ctx * alloc_oracle :=
  match reqs with
  | [] => (b, o)
  | ReqInode ino hdr deleted sz mode :: reqs' =>
      let '(_, b1, o1) := index_add_inode b ino hdr deleted sz mode o in
      apply_requests b1 reqs' o1
  | ReqDirent parent_ino name namelen hdr deleted :: reqs' =>
      let '(_, b1, o1) :=
        index_add_dirent b parent_ino name namelen hdr deleted o in
      apply_requests b1 reqs' o1
  end.

(** The entries the loop of [daxfs_delta_build_index] visits, with their
    offsets. *)
Fixpoint build_index_entries (fuel : nat) (log : gmap Z delta_entry)
    (dsize offset : Z) : option (list (Z * delta_entry)) :=
  if offset <? dsize then
    match fuel with
    | O => None
    | S fuel' =>
        match log !! offset with
        | None => Some []
        | Some e =>
            let total_size := u32 (hdr_total_size (e_hdr e)) in
            if (total_size =? 0) || (dsize <? u64 (offset + total_size))
            then Some []
            else
              ((offset, e) ::.)
                <$> build_index_entries fuel' log dsize
                                        (u64 (offset + total_size))
        end
    end
  else Some [].

(** The index calls for a list of visited entries. *)
Definition entries_requests (es : list (Z * delta_entry))
  : list index_request :=
  es ≫= (fun '(offset, e) =>
           entry_requests (u32 (hdr_type (e_hdr e))) (hdr_ino (e_hdr e))
                          offset (e_body e) (e_payload e)).

(** A branch with its two indices replaced. *)
Definition with_indices (b : daxfs_branch_ctx)
    (ii : rb_root daxfs_delta_inode_entry)
    (di : rb_root daxfs_delta_dirent_entry) : daxfs_branch_ctx :=
  mk_branch (delta_log b) (delta_size b) (delta_capacity b)
            (on_dax_delta_log_size b) ii di (parent b).

(** The second half of [daxfs_delta_build_index]: the scan of the
    branch's own log. *)
Definition build_index_own `{Jhash} (b : daxfs_branch_ctx) (o : alloc_oracle)
  : option (Z * daxfs_branch_ctx * alloc_oracle) :=
  match build_index_scan (Z.to_nat (delta_size b)) b 0 o with
  | Some (b', o') => Some (0, b', o')
  | None => None
  end.

(** What a non-empty run of updates does to an entry: header pointer and
    deleted flag are those of the last update, size and mode those of the
    last update that sets them. *)
Definition inode_settled (s : Z * bool * option Z * option Z)
    (e : daxfs_delta_inode_entry) : daxfs_delta_inode_entry :=
  let '(hdr, d, sz, m) := s in
  mk_inode_entry (ie_ino e) hdr d (default (ie_size e) sz)
                 (default (ie_mode e) m).

(** *** The records of a log *)

(** The walk every reader of the log makes: from [offset], entry by
    entry, until the used size is reached or a header reads
    [total_size = 0]. *)
Fixpoint log_records (fuel : nat) (log : gmap Z delta_entry)
    (dsize offset : Z) : option (list delta_entry) :=
  if offset <? dsize then
    match fuel with
    | O => None
    | S fuel' =>
        match log !! offset with
        | None => Some []
        | Some e =>
            let total_size := u32 (hdr_total_size (e_hdr e)) in
            if total_size =? 0 then Some []
            else (e ::.) <$> log_records fuel' log dsize
                                         (u64 (offset + total_size))
        end
    end
  else Some [].

Definition entry_total_size (e : delta_entry) : Z := hdr_total_size (e_hdr e).

Definition sum_total_size (es : list delta_entry) : Z :=
  foldr (fun e acc => entry_total_size e + acc) 0 es.

(** [packed log offset es end_]: the entries [es] lie in [log] back to
    back from [offset] to [end_]. *)
Inductive packed (log : gmap Z delta_entry) : Z -> list delta_entry -> Z -> Prop :=
| packed_nil offset : packed log offset [] offset
| packed_cons offset e es end_ :
    log !! offset = Some e ->
    0 < entry_total_size e < 2 ^ 32 ->
    packed log (offset + entry_total_size e) es end_ ->
    packed log offset (e :: es) end_.

(** The operations that append to the log of the current branch. *)
Inductive log_op :=
| OpAppend (type ino : Z) (body : delta_body) (payload : list byte) (now : Z)
           (o : alloc_oracle)
| OpWrite (inode : vfs_inode) (ki_pos : Z) (from : list byte)
          (copied now : Z) (o : alloc_oracle).

(** The total size of the record an operation appends; a write of no
    bytes appends nothing. *)
Definition op_record_size (op : log_op) : option Z :=
  match op with
  | OpAppend _ _ body payload _ _ =>
      Some (sizeof_hdr + (sizeof_body body + Z.of_nat (length payload)))
  | OpWrite _ _ from _ _ _ =>
      if bool_decide (from = []) then None
      else Some (sizeof_hdr + 16 + Z.of_nat (length from))
  end.

(** One operation, run to completion: [None] when it returns an error. *)
Definition run_op `{Jhash} (info : daxfs_info) (op : log_op)
  : option daxfs_info :=
  match op with
  | OpAppend type ino body payload now o =>
      match current_branch info with
      | Some b =>
          let '(ret, b', _) :=
            daxfs_delta_append b type ino body payload now o in
          if ret =? 0 then Some (set_current_branch info (Some b')) else None
      | None => None
      end
  | OpWrite inode ki_pos from copied now o =>
      match daxfs_write_iter info inode ki_pos from copied now o with
      | Some (ret, info', _, _, _) => if 0 <=? ret then Some info' else None
      | None => None
      end
  end.

Fixpoint run_ops `{Jhash} (info : daxfs_info) (ops : list log_op)
  : option daxfs_info :=
  match ops with
  | [] => Some info
  | op :: ops' =>
      match run_op info op with
      | Some info' => run_ops info' ops'
      | None => None
      end
  end.

(** What the appends keep true of a branch whose log holds [es]. *)
Definition log_inv (b : daxfs_branch_ctx) (es : list delta_entry) : Prop :=
  packed (delta_log b) 0 es (delta_size b)
  /\ delta_size b <= delta_capacity b
  /\ on_dax_delta_log_size b = delta_size b.

(** *** Insert-or-update in a search tree

    [index_add_inode] and [index_add_dirent] are two instances of one
    scheme: walk down comparing the request with the entry at each node,
    update the entry the walk stops at, or hang a fresh entry where the
    walk falls off the tree. *)

Inductive direction := GoLeft | GoRight | Here.

Definition direction_eqb (a b : direction) : bool :=
  match a, b with
  | GoLeft, GoLeft | GoRight, GoRight | Here, Here => true
  | _, _ => false
  end.

Section Upsert.
Context {A Q : Type}.
Variable dir : Q -> A -> direction.
Variable upd : Q -> A -> A.
Variable fresh : Q -> A.

Fixpoint upsert (q : Q) (t : rb_root A) : rb_root A :=
  match t with
  | rb_nil => rb_node rb_nil (fresh q) rb_nil
  | rb_node l e r =>
      match dir q e with
      | GoLeft => rb_node (upsert q l) e r
      | GoRight => rb_node l e (upsert q r)
      | Here => rb_node l (upd q e) r
      end
  end.

Fixpoint upsert_all (qs : list Q) (t : rb_root A) : rb_root A :=
  match qs with
  | [] => t
  | q :: qs' => upsert_all qs' (upsert q t)
  end.

Fixpoint update_all (qs : list Q) (e : A) : A :=
  match qs with
  | [] => e
  | q :: qs' => update_all qs' (upd q e)
  end.

(** The requests whose walk takes direction [d] at entry [e]. *)
Fixpoint going (d : direction) (e : A) (qs : list Q) : list Q :=
  match qs with
  | [] => []
  | q :: qs' =>
      if direction_eqb (dir q e) d then q :: going d e qs'
      else going d e qs'
  end.
End Upsert.

(** The arguments of one [index_add_inode] call. *)
Record inode_call := mk_inode_call {
  ic_ino : Z; ic_hdr : Z; ic_deleted : bool; ic_size : Z; ic_mode : Z
}.

Definition inode_dir (q : inode_call) (e : daxfs_delta_inode_entry)
  : direction :=
  if ic_ino q <? ie_ino e then GoLeft
  else if ie_ino e <? ic_ino q then GoRight
  else Here.

Definition inode_upd (q : inode_call) (e : daxfs_delta_inode_entry)
  : daxfs_delta_inode_entry :=
  mk_inode_entry (ie_ino e) (ic_hdr q) (ic_deleted q)
    (if ic_size q =? U64_MAX then ie_size e else ic_size q)
    (if ic_mode q =? U32_MAX then ie_mode e else ic_mode q).

Definition inode_fresh (q : inode_call) : daxfs_delta_inode_entry :=
  mk_inode_entry (ic_ino q) (ic_hdr q) (ic_deleted q)
    (if ic_size q =? U64_MAX then 0 else ic_size q)
    (if ic_mode q =? U32_MAX then 0 else ic_mode q).

(** The arguments of one [index_add_dirent] call. *)
Record dirent_call := mk_dirent_call {
  dc_parent_ino : Z; dc_name : list byte; dc_namelen : Z;
  dc_hdr : Z; dc_deleted : bool
}.

Definition dirent_dir `{Jhash} (q : dirent_call)
    (e : daxfs_delta_dirent_entry) : direction :=
  let key :=
    dirent_key (dc_parent_ino q)
      (dirent_hash (dc_parent_ino q) (dc_name q) (dc_namelen q)) in
  let entry_key := dirent_key (de_parent_ino e) (de_name_hash e) in
  if key <? entry_key then GoLeft
  else if entry_key <? key then GoRight
  else if same_name (dc_name q) (dc_namelen q) e then Here
  else GoRight.

Definition dirent_upd (q : dirent_call) (e : daxfs_delta_dirent_entry)
  : daxfs_delta_dirent_entry :=
  mk_dirent_entry (de_parent_ino e) (de_name_hash e) (de_name e)
                  (de_name_len e) (dc_hdr q) (dc_deleted q).

Definition dirent_fresh `{Jhash} (q : dirent_call)
  : daxfs_delta_dirent_entry :=
  mk_dirent_entry (dc_parent_ino q)
    (dirent_hash (dc_parent_ino q) (dc_name q) (dc_namelen q))
    (bytes_at (dc_name q) 0 (dc_namelen q)) (dc_namelen q)
    (dc_hdr q) (dc_deleted q).

Definition inode_calls (reqs : list index_request) : list inode_call :=
  reqs ≫= (fun r => match r with
                    | ReqInode ino hdr d sz m => [mk_inode_call ino hdr d sz m]
                    | ReqDirent _ _ _ _ _ => []
                    end).

Definition dirent_calls (reqs : list index_request) : list dirent_call :=
  reqs ≫= (fun r => match r with
                    | ReqInode _ _ _ _ _ => []
                    | ReqDirent p n nl hdr d => [mk_dirent_call p n nl hdr d]
                    end).

(** *** An append, statement by statement

    The statements of [daxfs_delta_append] and of the branch part of
    [daxfs_write_iter] in program order, each one a change of the branch
    that a reader running in between can observe. *)

Inductive append_step :=
| StepAlloc (size_ : Z)
    (* daxfs_delta_alloc: delta_size and the persisted delta_log_size *)
| StepStore (entry : Z) (e : delta_entry)
    (* the header fields, the struct and the payload *)
| StepIndex (type ino hdr : Z) (body : delta_body) (payload : list byte)
    (* the indexing switch of daxfs_delta_append *)
| StepWriteIndex (inode : vfs_inode) (hdr end_ : Z).
    (* the index update of daxfs_write_iter *)

Definition run_step `{Jhash} (st : daxfs_branch_ctx * alloc_oracle)
    (step : append_step) : daxfs_branch_ctx * alloc_oracle :=
  let '(b, o) := st in
  match step with
  | StepAlloc size_ => ((daxfs_delta_alloc b size_).2, o)
  | StepStore entry e => (set_delta_log b (<[entry := e]> (delta_log b)), o)
  | StepIndex type ino hdr body payload =>
      index_delta_entry b type ino hdr body payload o
  | StepWriteIndex inode hdr end_ =>
      let '(t, o') := write_iter_index (inode_index b) inode hdr end_ o in
      (set_inode_index b t, o')
  end.

Definition run_steps `{Jhash} (st : daxfs_branch_ctx * alloc_oracle)
    (steps : list append_step) : daxfs_branch_ctx * alloc_oracle :=
  fold_left run_step steps st.

Definition daxfs_delta_append_steps (branch : daxfs_branch_ctx)
    (type ino : Z) (body : delta_body) (payload : list byte) (now : Z)
  : list append_step :=
  let total_size :=
    u64 (sizeof_hdr + (sizeof_body body + Z.of_nat (length payload))) in
  match daxfs_delta_alloc branch total_size with
  | (None, _) => [StepAlloc total_size]
  | (Some entry, _) =>
      [StepAlloc total_size;
       StepStore entry
         (mk_entry (mk_hdr (u32 type) (u32 total_size) (u64 ino) (u64 now))
                   body payload);
       StepIndex type ino entry body payload]
  end.

(** The steps of a write whose user copy goes through. *)
Definition daxfs_write_iter_steps (branch : daxfs_branch_ctx)
    (inode : vfs_inode) (ki_pos : Z) (from : list byte) (now : Z)
  : list append_step :=
  let len := Z.of_nat (length from) in
  let entry_size := u64 (sizeof_hdr + 16 + len) in
  match daxfs_delta_alloc branch entry_size with
  | (None, _) => [StepAlloc entry_size]
  | (Some entry, _) =>
      [StepAlloc entry_size;
       StepStore entry
         (mk_entry (mk_hdr DAXFS_DELTA_WRITE (u32 entry_size)
                           (u64 (i_ino inode)) (u64 now))
                   (BodyWrite (mk_write (u64 ki_pos) (u32 len) 0))
                   (bytes_at from 0 len ++ replicate (Z.to_nat (len - len)) x00));
       StepWriteIndex inode entry (u64 (ki_pos + len))]
  end.

(** What the claim of publication after the fact would mean for a run
    from [st] through [steps]: a reader that sees the final size sees the
    slot at [entry] and both indices in their final state. *)
Definition published_last `{Jhash} (st : daxfs_branch_ctx * alloc_oracle)
    (steps : list append_step) (entry : Z) : Prop :=
  let final := (run_steps st steps).1 in
  forall n,
    let seen := (run_steps st (take n steps)).1 in
    delta_size seen = delta_size final ->
    delta_log seen !! entry = delta_log final !! entry
    /\ inode_index seen = inode_index final
    /\ dirent_index seen = dirent_index final.

Definition is_alloc (step : append_step) : bool :=
  match step with
  | StepAlloc _ => true
  | _ => false
  end.

(** *** Sample runs *)

(** [free_inode_index] and [free_dirent_index]: the indices as a mount
    or a merge finds them before [daxfs_delta_build_index]. *)
Definition drop_indices (b : daxfs_branch_ctx) : daxfs_branch_ctx :=
  with_indices b rb_nil rb_nil.

Definition branch_of (info : daxfs_info) : daxfs_branch_ctx :=
  default (fresh_branch 0 None) (current_branch info).

(** [/a.txt] created in the child branch as inode 3. *)
Definition sample_created : daxfs_info :=
  match @daxfs_create sample_jhash sample_info 1 (bytes "a.txt") 33188 3
                      999 [] with
  | Some (_, info, _) => info
  | None => sample_info
  end.

Definition sample_file : vfs_inode := mk_vfs_inode 3 0 33188.

(** One write after the other, each with the inode the one before left. *)
Definition write_next (st : daxfs_info * vfs_inode) (ki_pos : Z)
    (data : list byte) (now : Z) : daxfs_info * vfs_inode :=
  match daxfs_write_iter st.1 st.2 ki_pos data (Z.of_nat (length data))
                         now [] with
  | Some (_, info, inode, _, _) => (info, inode)
  | None => st
  end.

(** "AAAA" at offset 0. *)
Definition sample_written : daxfs_info * vfs_inode :=
  write_next (sample_created, sample_file) 0 (bytes "AAAA") 1000.

(** "AAAA" at offset 0, then "BB" at offset 2. *)
Definition sample_overlap : daxfs_info * vfs_inode :=
  write_next sample_written 2 (bytes "BB") 1001.

(** "AAAA" at offset 0, then "BB" at offset 0. *)
Definition sample_rewritten : daxfs_info * vfs_inode :=
  write_next sample_written 0 (bytes "BB") 1001.

(** [/foo] of the base image renamed to [/bar] in the child branch. *)
Definition sample_renamed : daxfs_info :=
  match @daxfs_rename sample_jhash sample_info 1 (bytes "foo") 1
                      (bytes "bar") 2 0 1000 [] with
  | Some (_, info, _) => info
  | None => sample_info
  end.

Definition sample_ops : list log_op :=
  [ OpAppend DAXFS_DELTA_CREATE 3
      (BodyCreate (mk_create 1 3 33188 5 0)) (bytes "a.txt") 999 [];
    OpWrite sample_file 0 (bytes "AAAA") 4 1000 [];
    OpWrite (mk_vfs_inode 3 4 33188) 0 [] 0 1001 [];
    OpAppend DAXFS_DELTA_TRUNCATE 3 (BodyTruncate (mk_truncate 2)) [] 1002
      [] ].

(** A TRUNCATE of [/a.txt] to 2 bytes, statement by statement. *)
Definition sample_truncate_steps : list append_step :=
  daxfs_delta_append_steps (branch_of sample_created) DAXFS_DELTA_TRUNCATE 3
    (BodyTruncate (mk_truncate 2)) [] 1002.

(** The base file [/foo] (inode 2), which the child branch has not
    touched yet. *)
Definition sample_base_file : vfs_inode := mk_vfs_inode 2 4 33188.

(** A branch whose log holds one WRITE record for inode 3 and whose
    indices have not been built. *)
Definition sample_unindexed : daxfs_branch_ctx :=
  mk_branch {[ 0 := mk_entry (mk_hdr DAXFS_DELTA_WRITE 44 3 1000)
                             (BodyWrite (mk_write 0 4 0)) (bytes "AAAA") ]}
            44 4096 44 rb_nil rb_nil None.

(** The test of [daxfs_resolve_file_data] on one entry: a WRITE entry of
    [ino] whose range covers [pos]. *)
Definition covers (e : delta_entry) (ino pos : Z) : bool :=
  (u32 (hdr_type (e_hdr e)) =? DAXFS_DELTA_WRITE)
  && (hdr_ino (e_hdr e) =? ino)
  && match e_body e with
     | BodyWrite wr =>
         (wr_offset wr <=? pos) && (pos <? u64 (wr_offset wr + wr_len wr))
     | _ => false
     end.

(** The base file [/foo] after a write of "X" at offset 0. *)
Definition sample_patched : daxfs_info * vfs_inode :=
  write_next (sample_info, sample_base_file) 0 (bytes "X") 1000.

(** The one record in the log of the branch that has created [/a.txt]. *)
Definition sample_created_entries : list delta_entry :=
  [ mk_entry (mk_hdr DAXFS_DELTA_CREATE 53 3 999)
             (BodyCreate (mk_create 1 3 33188 5 0)) (bytes "a.txt") ].

(** The same branch with its indices built. *)
Definition sample_indexed : daxfs_branch_ctx :=
  match @daxfs_delta_build_index sample_jhash sample_unindexed [] with
  | Some (_, b, _) => b
  | None => sample_unindexed
  end.

(** *** Names that are not the one an insertion is about *)

(** [(parent_ino', name', namelen')] is another directory entry than
    [(parent_ino, name, namelen)]: another length, other bytes, or the
    same name under another directory. *)
Definition other_dirent (p : Z) (name : list byte) (len : Z)
    (p' : Z) (name' : list byte) (len' : Z) : Prop :=
  len' <> len
  \/ bytes_at name' 0 len' <> bytes_at name 0 len
  \/ (name' = name /\ p' <> p /\ 0 <= p < 2 ^ 64 /\ 0 <= p' < 2 ^ 64).

(** The branch that has created [/a.txt], after one more
    [index_add_inode] that marks inode 3 deleted. *)
Definition sample_tombstoned : daxfs_branch_ctx :=
  (index_add_inode (branch_of sample_created) 3 53 true U64_MAX U32_MAX
                   []).1.2.

(** The same branch after one more [index_add_dirent] that marks
    [/a.txt] deleted. *)
Definition sample_name_dropped : daxfs_branch_ctx :=
  (@index_add_dirent sample_jhash (branch_of sample_created) 1
     (bytes "a.txt") 5 53 true []).1.2.

(** *** The directory handlers *)

(** [daxfs_rmdir]: "TODO: Check if directory is empty", then
    [daxfs_unlink]. *)
Definition daxfs_rmdir `{Jhash} (info : daxfs_info) (dir_ino : Z)
    (name : list byte) (inode_ino now : Z) (o : alloc_oracle)
  : option (Z * daxfs_info * alloc_oracle) :=
  daxfs_unlink info dir_ino name inode_ino now o.

(** The entry [daxfs_delta_append] stores. *)
Definition appended_entry (type ino : Z) (body : delta_body)
    (payload : list byte) (now : Z) : delta_entry :=
  let total_size :=
    u64 (sizeof_hdr + (sizeof_body body + Z.of_nat (length payload))) in
  mk_entry (mk_hdr (u32 type) (u32 total_size) (u64 ino) (u64 now))
           body payload.

(** [/foo] of the base image unlinked in the child branch. *)
Definition sample_unlinked : daxfs_info :=
  match @daxfs_unlink sample_jhash sample_info 1 (bytes "foo") 2 1000 [] with
  | Some (_, info, _) => info
  | None => sample_info
  end.

(** *** [daxfs_setattr] *)

(** [struct iattr] and the [ATTR_*] bits of linux/fs.h the handler
    tests. *)
Definition ATTR_MODE : Z := 1.
Definition ATTR_UID : Z := 2.
Definition ATTR_GID : Z := 4.
Definition ATTR_SIZE : Z := 8.

Record iattr := mk_iattr {
  ia_valid : Z; ia_mode : Z; ia_uid : Z; ia_gid : Z; ia_size : Z
}.

(** [attr->ia_valid & bits] is not zero. *)
Definition attr_has (attr : iattr) (bits : Z) : bool :=
  negb (Z.land (ia_valid attr) bits =? 0).

(** The [struct daxfs_delta_setattr] the handler fills in, starting from
    [sa = {0}]. *)
Definition setattr_record (attr : iattr) : daxfs_delta_setattr :=
  mk_setattr
    (if attr_has attr ATTR_MODE then u32 (ia_mode attr) else 0)
    (if attr_has attr ATTR_UID then u32 (ia_uid attr) else 0)
    (if attr_has attr ATTR_GID then u32 (ia_gid attr) else 0)
    (Z.lor (if attr_has attr ATTR_MODE then DAXFS_ATTR_MODE else 0)
       (Z.lor (if attr_has attr ATTR_UID then DAXFS_ATTR_UID else 0)
              (if attr_has attr ATTR_GID then DAXFS_ATTR_GID else 0)))
    0.

(** [daxfs_setattr].  [prepare] is what the kernel's [setattr_prepare]
    returns, [now1] and [now2] the clock at the two appends.  Result:
    return value, filesystem state, the inode as the handler hands it to
    the kernel's [setattr_copy], oracle.  [None]: a record is to be
    appended and there is no current branch. *)
Definition daxfs_setattr `{Jhash} (info : daxfs_info) (inode : vfs_inode)
    (attr : iattr) (prepare now1 now2 : Z) (o : alloc_oracle)
  : option (Z * daxfs_info * vfs_inode * alloc_oracle) :=
  if negb (prepare =? 0) then Some (prepare, info, inode, o)
  else
    let want_size := attr_has attr ATTR_SIZE in
    let want_attr :=
      attr_has attr (Z.lor ATTR_MODE (Z.lor ATTR_UID ATTR_GID)) in
    match current_branch info with
    | None =>
        if want_size || want_attr then None else Some (0, info, inode, o)
    | Some branch =>
        (* Handle truncate *)
        let '(ret1, b1, inode1, o1) :=
          if want_size then
            let tr := mk_truncate (u64 (ia_size attr)) in
            let '(ret, b', o') :=
              daxfs_delta_append branch DAXFS_DELTA_TRUNCATE (i_ino inode)
                                 (BodyTruncate tr) [] now1 o in
            (ret, b',
             if ret =? 0
             then mk_vfs_inode (i_ino inode) (ia_size attr) (i_mode inode)
             else inode,
             o')
          else (0, branch, inode, o) in
        if negb (ret1 =? 0) then
          Some (ret1, set_current_branch info (Some b1), inode1, o1)
        else
          (* Handle mode/uid/gid changes *)
          let '(ret2, b2, o2) :=
            if want_attr then
              daxfs_delta_append b1 DAXFS_DELTA_SETATTR (i_ino inode)
                                 (BodySetattr (setattr_record attr)) [] now2 o1
            else (0, b1, o1) in
          Some (ret2, set_current_branch info (Some b2), inode1, o2)
    end.

(** [/a.txt] truncated to 2 bytes and set to mode 0644 in one call. *)
Definition sample_attr : iattr :=
  mk_iattr (Z.lor ATTR_SIZE ATTR_MODE) 420 0 0 2.

Definition sample_truncated : daxfs_info :=
  match @daxfs_setattr sample_jhash sample_created sample_file sample_attr
                       0 1002 1003 [] with
  | Some (_, info, _, _) => info
  | None => sample_created
  end.

(** *** Dropping and rebuilding the indices *)

(** [free_inode_index] and [free_dirent_index] erase and free node after
    node until the tree is empty. *)
Definition free_inode_index (branch : daxfs_branch_ctx) : daxfs_branch_ctx :=
  set_inode_index branch rb_nil.

Definition free_dirent_index (branch : daxfs_branch_ctx) : daxfs_branch_ctx :=
  set_dirent_index branch rb_nil.

Definition daxfs_delta_destroy_branch (branch : daxfs_branch_ctx)
  : daxfs_branch_ctx :=
  free_dirent_index (free_inode_index branch).

(** The indices of the branch are what [daxfs_delta_build_index] makes
    of its log from scratch. *)
Definition indices_current `{Jhash} (b : daxfs_branch_ctx) : Prop :=
  daxfs_delta_build_index (daxfs_delta_destroy_branch b) [] = Some (0, b, []).

(** Entries that lie back to back from [offset] on, each with the offset
    it lies at. *)
Fixpoint with_offsets (offset : Z) (es : list delta_entry)
  : list (Z * delta_entry) :=
  match es with
  | [] => []
  | e :: es' => (offset, e) :: with_offsets (offset + entry_total_size e) es'
  end.

(** What the first half of [daxfs_delta_build_index] does to the parent
    pointer of a branch: the parent with its indices built when its inode
    index was empty.  Outer [None]: the parent's scan has not ended. *)
Definition build_index_parent `{Jhash} (pa : option daxfs_branch_ctx)
  : option (option daxfs_branch_ctx) :=
  match pa with
  | Some p =>
      match inode_index p with
      | rb_nil =>
          match daxfs_delta_build_index p [] with
          | Some (_, p', _) => Some (Some p')
          | None => None
          end
      | rb_node _ _ _ => Some (Some p)
      end
  | None => Some None
  end.

(** *** [daxfs_delta_merge] *)

(** [memcpy(dest, src, n)] from the start of one log into another: the
    slots of [src] that start in the first [n] bytes land [dest] bytes
    further in [dst], in place of whatever started there.  A slot is
    copied whole; in a log that appends have filled, a slot that starts
    before [delta_size] ends before it too. *)
Definition memcpy_log (dst : gmap Z delta_entry) (dest : Z)
    (src : gmap Z delta_entry) (n : Z) : gmap Z delta_entry :=
  kmap (Z.add dest) (filter (fun kv => 0 <= kv.1 < n) src)
  ∪ filter (fun kv => ~ (dest <= kv.1 < dest + n)) dst.

(** [daxfs_delta_merge].  Result: return value, the parent, oracle;
    [None]: the rebuild of the parent's indices has not ended. *)
Definition daxfs_delta_merge `{Jhash} (parent_ child : daxfs_branch_ctx)
    (o : alloc_oracle) : option (Z * daxfs_branch_ctx * alloc_oracle) :=
  let child_size := delta_size child in
  if child_size =? 0 then Some (0, parent_, o)   (* Nothing to merge *)
  else if delta_capacity parent_ <? u64 (delta_size parent_ + child_size)
  then Some (- ENOSPC, parent_, o)
  else
    match daxfs_delta_alloc parent_ child_size with
    | (None, _) => Some (- ENOSPC, parent_, o)
    | (Some dest, p1) =>
        let p2 :=
          set_delta_log p1
            (memcpy_log (delta_log p1) dest (delta_log child) child_size) in
        let p3 := free_dirent_index (free_inode_index p2) in
        match daxfs_delta_build_index p3 o with
        | Some (_, p4, o') => Some (0, p4, o')
        | None => None
        end
    end.

(** *** Files and the base image *)

(** No WRITE record of [ino] in the log. *)
Definition no_write_of (log : gmap Z delta_entry) (ino : Z) : Prop :=
  forall offset e,
    log !! offset = Some e ->
    ~ (u32 (hdr_type (e_hdr e)) = DAXFS_DELTA_WRITE
       /\ hdr_ino (e_hdr e) = ino).

(** The inode table covers the inode numbers up to
    [base_inode_count], so that [&base_inodes[ino - 1]] is inside it for
    [1 <= ino <= base_inode_count]. *)
Definition base_table_ok (info : daxfs_info) : Prop :=
  match base_inodes info with
  | Some inodes => base_inode_count info <= Z.of_nat (length inodes)
  | None => True
  end.

(** Every log up the chain from the current branch is at most
    [2^64 - 2^32] bytes long, so that no offset of a scan wraps. *)
Definition chain_bounded (info : daxfs_info) : Prop :=
  match current_branch info with
  | Some b =>
      Forall (fun b' => delta_size b' <= 2 ^ 64 - 2 ^ 32) (branch_chain b)
  | None => True
  end.

(** *** Pointers into the mapped window *)

(** [daxfs_mem_offset].  A pointer is an address; [mem_base] is the
    address [info->mem] the window is mapped at, so that the pointer
    [daxfs_mem_ptr] returns for an offset is [mem_base + offset]. *)
Definition daxfs_mem_offset (info : daxfs_info) (mem_base ptr : Z) : Z :=
  if (ptr <? mem_base) || (mem_base + size info <=? ptr) then U64_MAX
  else ptr - mem_base.

(** *** [daxfs_iterate] *)

(** linux/stat.h and linux/fs.h. *)
Definition S_IFMT : Z := 61440.
Definition S_IFREG : Z := 32768.
Definition S_IFLNK : Z := 40960.
Definition DT_UNKNOWN : Z := 0.
Definition DT_DIR : Z := 4.
Definition DT_REG : Z := 8.
Definition DT_LNK : Z := 10.

(** The [switch (mode & S_IFMT)] of both loops. *)
Definition dtype_of_mode (mode : Z) : Z :=
  let fmt := Z.land mode S_IFMT in
  if fmt =? S_IFREG then DT_REG
  else if fmt =? S_IFDIR then DT_DIR
  else if fmt =? S_IFLNK then DT_LNK
  else DT_UNKNOWN.

(** What [dir_emit] hands to the actor. *)
Record dir_entry := mk_dir_entry {
  d_name : list byte; d_ino : Z; d_type : Z
}.

(** [struct dir_context]: the position, and the actor seen from outside:
    how many more entries it takes before [dir_emit] returns false, and
    the entries it has taken. *)
Record dir_context := mk_dir_context {
  ctx_pos : Z; ctx_room : nat; ctx_out : list dir_entry
}.

Definition set_ctx_pos (ctx : dir_context) (pos : Z) : dir_context :=
  mk_dir_context pos (ctx_room ctx) (ctx_out ctx).

Definition dir_emit (ctx : dir_context) (d : dir_entry)
  : bool * dir_context :=
  match ctx_room ctx with
  | O => (false, ctx)
  | S room => (true, mk_dir_context (ctx_pos ctx) room (ctx_out ctx ++ [d]))
  end.

(** The kernel's [dir_emit_dots]: "." at position 0 and ".." at
    position 1. *)
Definition dir_emit_dots (dir_ino parent_ino : Z) (ctx : dir_context)
  : bool * dir_context :=
  let '(ok, ctx1) :=
    if ctx_pos ctx =? 0 then
      match dir_emit ctx (mk_dir_entry (bytes ".") dir_ino DT_DIR) with
      | (true, c) => (true, set_ctx_pos c 1)
      | (false, c) => (false, c)
      end
    else (true, ctx) in
  if ok then
    if ctx_pos ctx1 =? 1 then
      match dir_emit ctx1 (mk_dir_entry (bytes "..") parent_ino DT_DIR) with
      | (true, c) => (true, set_ctx_pos c 2)
      | (false, c) => (false, c)
      end
    else (true, ctx1)
  else (false, ctx1).

(** Where a loop of [daxfs_iterate] leaves off: at a [return 0], or at
    its end with [pos] and the context as they are then. *)
Inductive iter_state :=
| IterReturn (ctx : dir_context)
| IterNext (pos : Z) (ctx : dir_context).

(** The tail both loops share:
    [if (pos >= ctx->pos) { if (!dir_emit(...)) return 0; ctx->pos = pos + 1; } pos++;] *)
Definition emit_at (pos : Z) (ctx : dir_context) (d : dir_entry)
  : iter_state :=
  if ctx_pos ctx <=? pos then
    match dir_emit ctx d with
    | (true, c) => IterNext (pos + 1) (set_ctx_pos c (pos + 1))
    | (false, c) => IterReturn c
    end
  else IterNext (pos + 1) ctx.

(** "First emit entries from base image (if not deleted)": the loop over
    the children of the directory.  [None] as in [name_exists_base]. *)
Fixpoint iterate_base (fuel : nat) (info : daxfs_info)
    (inodes : list daxfs_base_inode) (child_ino pos : Z) (ctx : dir_context)
  : option iter_state :=
  if negb (child_ino =? 0) && (child_ino <=? base_inode_count info) then
    match fuel with
    | O => None
    | S fuel' =>
        match base_inode_at inodes child_ino with
        | None => None
        | Some child =>
            (* Check if deleted in any branch *)
            let deleted :=
              match current_branch info with
              | Some b => deleted_in_chain b child_ino
              | None => false
              end in
            if deleted then
              iterate_base fuel' info inodes (bi_next_sibling child) pos ctx
            else
              let d :=
                mk_dir_entry
                  (bytes_at (base_strtab info) (bi_name_offset child)
                            (bi_name_len child))
                  child_ino (dtype_of_mode (bi_mode child)) in
              match emit_at pos ctx d with
              | IterReturn c => Some (IterReturn c)
              | IterNext pos' c =>
                  iterate_base fuel' info inodes (bi_next_sibling child)
                               pos' c
              end
        end
    end
  else Some (IterNext pos ctx).

(** "Check if subsequently deleted":
    [for (b2 = info->current_branch; b2 != branch; b2 = b2->parent)],
    over the branches [above], the ones between the current branch and
    [branch]. *)
Definition deleted_above (above : list daxfs_branch_ctx) (ino : Z) : bool :=
  existsb (fun b2 => daxfs_delta_is_deleted b2 ino) above.

(** The directory entry a log slot stands for in the listing of
    [dir_ino]: the CREATE and MKDIR records under that directory that no
    branch in [above] marks deleted. *)
Definition scan_candidate (above : list daxfs_branch_ctx)
    (log : gmap Z delta_entry) (dir_ino offset : Z) : option dir_entry :=
  let type := u32 (hdr_type (hdr_at log offset)) in
  if bool_decide (type = DAXFS_DELTA_CREATE \/ type = DAXFS_DELTA_MKDIR) then
    match log !! offset with
    | Some (mk_entry _ (BodyCreate cr) payload) =>
        if (cr_parent_ino cr =? dir_ino)
           && negb (deleted_above above (cr_new_ino cr))
        then Some (mk_dir_entry (bytes_at payload 0 (cr_name_len cr))
                                (cr_new_ino cr) (dtype_of_mode (cr_mode cr)))
        else None
    | _ => None
    end
  else None.

(** "Then emit entries from delta logs": the scan of one branch's
    log. *)
Fixpoint iterate_scan (fuel : nat) (above : list daxfs_branch_ctx)
    (branch : daxfs_branch_ctx) (dir_ino offset pos : Z) (ctx : dir_context)
  : option iter_state :=
  if offset <? delta_size branch then
    match fuel with
    | O => None
    | S fuel' =>
        let total_size :=
          u32 (hdr_total_size (hdr_at (delta_log branch) offset)) in
        if total_size =? 0 then Some (IterNext pos ctx)
        else
          let next := u64 (offset + total_size) in
          match scan_candidate above (delta_log branch) dir_ino offset with
          | Some d =>
              match emit_at pos ctx d with
              | IterReturn c => Some (IterReturn c)
              | IterNext pos' c =>
                  iterate_scan fuel' above branch dir_ino next pos' c
              end
          | None => iterate_scan fuel' above branch dir_ino next pos ctx
          end
    end
  else Some (IterNext pos ctx).

(** The loop over the branches, from the current one up. *)
Fixpoint iterate_branches (above : list daxfs_branch_ctx)
    (branch : daxfs_branch_ctx) (dir_ino pos : Z) (ctx : dir_context)
  : option iter_state :=
  match iterate_scan (Z.to_nat (delta_size branch)) above branch dir_ino 0
                     pos ctx with
  | None => None
  | Some (IterReturn c) => Some (IterReturn c)
  | Some (IterNext pos' c) =>
      match branch with
      | mk_branch _ _ _ _ _ _ (Some p) =>
          iterate_branches (above ++ [branch]) p dir_ino pos' c
      | mk_branch _ _ _ _ _ _ None => Some (IterNext pos' c)
      end
  end.

(** [daxfs_iterate] from [pos = 2] on: the base image, then the delta
    logs.  Result: the context as the call leaves it. *)
Definition iterate_entries (info : daxfs_info) (dir_ino : Z)
    (ctx : dir_context) : option dir_context :=
  let pos := 2 in  (* Start after . and .. *)
  match
    match base_inodes info with
    | Some inodes =>
        if dir_ino <=? base_inode_count info then
          match base_inode_at inodes dir_ino with
          | None => None
          | Some dir_raw =>
              iterate_base (S (Z.to_nat (base_inode_count info))) info
                           inodes (bi_first_child dir_raw) pos ctx
          end
        else Some (IterNext pos ctx)
    | None => Some (IterNext pos ctx)
    end
  with
  | None => None
  | Some (IterReturn c) => Some c
  | Some (IterNext pos' c) =>
      match current_branch info with
      | Some b =>
          match iterate_branches [] b dir_ino pos' c with
          | None => None
          | Some (IterReturn c') => Some c'
          | Some (IterNext _ c') => Some c'
          end
      | None => Some c
      end
  end.

(** [daxfs_iterate] on the directory [dir_ino] whose parent directory is
    [parent_ino]. *)
Definition daxfs_iterate (info : daxfs_info) (dir_ino parent_ino : Z)
    (ctx : dir_context) : option dir_context :=
  match dir_emit_dots dir_ino parent_ino ctx with
  | (false, c) => Some c
  | (true, c) => iterate_entries info dir_ino c
  end.

(** **** The entries a listing comes across *)

(** The entries the loops of [daxfs_iterate] come across, in the order
    they come across them, when nothing stops the listing. *)
Fixpoint base_listing (fuel : nat) (info : daxfs_info)
    (inodes : list daxfs_base_inode) (child_ino : Z)
  : option (list dir_entry) :=
  if negb (child_ino =? 0) && (child_ino <=? base_inode_count info) then
    match fuel with
    | O => None
    | S fuel' =>
        match base_inode_at inodes child_ino with
        | None => None
        | Some child =>
            let rest :=
              base_listing fuel' info inodes (bi_next_sibling child) in
            if match current_branch info with
               | Some b => deleted_in_chain b child_ino
               | None => false
               end
            then rest
            else
              (mk_dir_entry
                 (bytes_at (base_strtab info) (bi_name_offset child)
                           (bi_name_len child))
                 child_ino (dtype_of_mode (bi_mode child)) ::.) <$> rest
        end
    end
  else Some [].

Fixpoint scan_listing (fuel : nat) (above : list daxfs_branch_ctx)
    (branch : daxfs_branch_ctx) (dir_ino offset : Z)
  : option (list dir_entry) :=
  if offset <? delta_size branch then
    match fuel with
    | O => None
    | S fuel' =>
        let total_size :=
          u32 (hdr_total_size (hdr_at (delta_log branch) offset)) in
        if total_size =? 0 then Some []
        else
          let rest :=
            scan_listing fuel' above branch dir_ino
                         (u64 (offset + total_size)) in
          match scan_candidate above (delta_log branch) dir_ino offset with
          | Some d => (d ::.) <$> rest
          | None => rest
          end
    end
  else Some [].

Fixpoint branches_listing (above : list daxfs_branch_ctx)
    (branch : daxfs_branch_ctx) (dir_ino : Z) : option (list dir_entry) :=
  match scan_listing (Z.to_nat (delta_size branch)) above branch dir_ino 0
  with
  | None => None
  | Some here =>
      match branch with
      | mk_branch _ _ _ _ _ _ (Some p) =>
          (here ++.) <$> branches_listing (above ++ [branch]) p dir_ino
      | mk_branch _ _ _ _ _ _ None => Some here
      end
  end.

Definition dir_listing (info : daxfs_info) (dir_ino : Z)
  : option (list dir_entry) :=
  match
    match base_inodes info with
    | Some inodes =>
        if dir_ino <=? base_inode_count info then
          match base_inode_at inodes dir_ino with
          | None => None
          | Some dir_raw =>
              base_listing (S (Z.to_nat (base_inode_count info))) info inodes
                           (bi_first_child dir_raw)
          end
        else Some []
    | None => Some []
    end
  with
  | None => None
  | Some from_base =>
      match current_branch info with
      | Some b => (from_base ++.) <$> branches_listing [] b dir_ino
      | None => Some from_base
      end
  end.

(** Handing a list of entries to [emit_at], one after the other. *)
Fixpoint emit_all (pos : Z) (ctx : dir_context) (ds : list dir_entry)
  : iter_state :=
  match ds with
  | [] => IterNext pos ctx
  | d :: ds' =>
      match emit_at pos ctx d with
      | IterReturn c => IterReturn c
      | IterNext pos' c => emit_all pos' c ds'
      end
  end.

Definition iter_ctx (s : iter_state) : dir_context :=
  match s with
  | IterReturn c => c
  | IterNext _ c => c
  end.

(** "." and "..", the entries at positions 0 and 1. *)
Definition dot_entries (dir_ino parent_ino : Z) : list dir_entry :=
  [mk_dir_entry (bytes ".") dir_ino DT_DIR;
   mk_dir_entry (bytes "..") parent_ino DT_DIR].

(** The context after the actor has been handed [em]. *)
Definition ctx_after (ctx : dir_context) (em : list dir_entry)
  : dir_context :=
  mk_dir_context (ctx_pos ctx + Z.of_nat (length em))
                 (ctx_room ctx - length em) (ctx_out ctx ++ em).

(** No CREATE or MKDIR record in the log makes the inode [ino]. *)
Definition no_create_of (log : gmap Z delta_entry) (ino : Z) : Prop :=
  forall offset e cr,
    log !! offset = Some e ->
    e_body e = BodyCreate cr ->
    cr_new_ino cr <> ino.

(** The two entries of the root directory of the sample filesystem
    after [/a.txt] has been created. *)
Definition sample_foo_entry : dir_entry :=
  mk_dir_entry (bytes "foo") 2 DT_REG.

Definition sample_a_txt_entry : dir_entry :=
  mk_dir_entry (bytes "a.txt") 3 DT_REG.

(** [/foo] unlinked after [/a.txt] has been created. *)
Definition sample_created_unlinked : daxfs_info :=
  match @daxfs_unlink sample_jhash sample_created 1 (bytes "foo") 2 1000 []
  with
  | Some (_, info, _) => info
  | None => sample_created
  end.

(** *** [daxfs_read_folio] *)

(** [memcpy_to_folio(folio, off, src, n)] and
    [folio_zero_range(folio, off, n)] on the bytes of a folio. *)
Definition folio_write (folio : list byte) (off : Z) (data : list byte)
  : list byte :=
  take (Z.to_nat off) folio ++ data
  ++ drop (Z.to_nat off + length data) folio.

Definition folio_zero_range (folio : list byte) (off n : Z) : list byte :=
  folio_write folio off (replicate (Z.to_nat n) x00).

(** The loop of [daxfs_read_folio]: [filled] and the folio when it
    ends. *)
Fixpoint read_folio_loop (fuel : nat) (info : daxfs_info) (inode : vfs_inode)
    (pos len filled : Z) (folio : list byte) : option (Z * list byte) :=
  if (filled <? len) && (pos + filled <? i_size inode) then
    match fuel with
    | O => None
    | S fuel' =>
        match daxfs_resolve_file_data info (i_ino inode) (pos + filled)
                                      (len - filled) with
        | None => None
        | Some (None, _) => Some (filled, folio)   (* Hole or EOF *)
        | Some (Some src, chunk) =>
            if chunk =? 0 then Some (filled, folio)
            else
              read_folio_loop fuel' info inode pos len (filled + chunk)
                (folio_write folio filled (load info src chunk))
        end
    end
  else Some (filled, folio).

(** [daxfs_read_folio] on the folio at file position [pos] whose size is
    [len]: return value and the bytes of the folio. *)
Definition daxfs_read_folio (info : daxfs_info) (inode : vfs_inode)
    (pos len : Z) (folio : list byte) : option (Z * list byte) :=
  if i_size inode <=? pos then Some (0, folio_zero_range folio 0 len)
  else
    match read_folio_loop (Z.to_nat len) info inode pos len 0 folio with
    | None => None
    | Some (filled, folio') =>
        Some (0,
              if filled <? len
              then folio_zero_range folio' filled (len - filled)
              else folio')
    end.



(** ** Properties of the allocators *)

Lemma u32_range x : 0 <= u32 x < 2 ^ 32.
Proof. unfold u32. apply Z.mod_pos_bound. lia. Qed.

Lemma u64_small x : 0 <= x < 2 ^ 64 -> u64 x = x.
Proof. intros. unfold u64. apply Z.mod_small. lia. Qed.

Lemma u32_small x : 0 <= x < 2 ^ 32 -> u32 x = x.
Proof. intros. unfold u32. apply Z.mod_small. lia. Qed.

Lemma daxfs_delta_alloc_full branch size_ :
  delta_capacity branch < u64 (delta_size branch + size_) ->
  daxfs_delta_alloc branch size_ = (None, branch).
Proof.
  intros Hfull. unfold daxfs_delta_alloc.
  destruct (Z.ltb_spec (delta_capacity branch)
                       (u64 (delta_size branch + size_))); [done | lia].
Qed.

Lemma daxfs_delta_alloc_fits branch size_ :
  u64 (delta_size branch + size_) <= delta_capacity branch ->
  daxfs_delta_alloc branch size_
  = (Some (delta_size branch),
     set_delta_size branch (u64 (delta_size branch + size_))).
Proof.
  intros Hfits. unfold daxfs_delta_alloc.
  destruct (Z.ltb_spec (delta_capacity branch)
                       (u64 (delta_size branch + size_))); [lia | done].
Qed.

(** C7. [daxfs_mem_alloc_region] takes its out-of-space return exactly
    when the end of the request lies beyond the end of the delta region,
    and then gives back the state as it was, bump offsets included; when
    the request fits it returns the old offset and both copies of the bump
    offset are the end of the request.  [daxfs_delta_alloc] returns NULL
    when the new size would exceed the branch's capacity, and leaves the
    branch as it was; [daxfs_delta_append] and [daxfs_write_iter] then
    return -ENOSPC with the whole state (log, size counters, indices)
    untouched. *)
Theorem alloc_failure_leaves_state `{Jhash} (info : daxfs_info) (size_ : Z)
    (branch : daxfs_branch_ctx) (type ino now : Z) (body : delta_body)
    (payload : list byte) (o : alloc_oracle)
    (inode : vfs_inode) (ki_pos : Z) (from : list byte) (copied : Z) :
  let end_ := u64 (delta_alloc_offset info + size_) in
  let region_end :=
    u64 (sb_delta_region_offset (super info)
         + sb_delta_region_size (super info)) in
  (region_end < end_ -> daxfs_mem_alloc_region info size_ = (0, info))
  /\ (end_ <= region_end ->
      exists info',
        daxfs_mem_alloc_region info size_ = (delta_alloc_offset info, info')
        /\ delta_alloc_offset info' = end_
        /\ sb_delta_alloc_offset (super info') = end_)
  /\ (forall sz, delta_capacity branch < u64 (delta_size branch + sz) ->
      daxfs_delta_alloc branch sz = (None, branch))
  /\ (delta_capacity branch
        < u64 (delta_size branch
               + u64 (sizeof_hdr + (sizeof_body body
                                    + Z.of_nat (length payload)))) ->
      daxfs_delta_append branch type ino body payload now o
      = (- ENOSPC, branch, o))
  /\ (current_branch info = Some branch ->
      from <> [] ->
      delta_capacity branch
        < u64 (delta_size branch
               + u64 (sizeof_hdr + 16 + Z.of_nat (length from))) ->
      daxfs_write_iter info inode ki_pos from copied now o
      = Some (- ENOSPC, info, inode, ki_pos, o)).
Proof.
  cbv zeta. repeat split.
  - intros Hend. unfold daxfs_mem_alloc_region.
    destruct (Z.ltb_spec
                (u64 (sb_delta_region_offset (super info)
                      + sb_delta_region_size (super info)))
                (u64 (delta_alloc_offset info + size_))); [done | lia].
  - intros Hend. unfold daxfs_mem_alloc_region.
    destruct (Z.ltb_spec
                (u64 (sb_delta_region_offset (super info)
                      + sb_delta_region_size (super info)))
                (u64 (delta_alloc_offset info + size_))); [lia |].
    eexists. split; [reflexivity |]. done.
  - intros sz. apply daxfs_delta_alloc_full.
  - intros Hfull. unfold daxfs_delta_append.
    by rewrite daxfs_delta_alloc_full.
  - intros Hcur Hne Hfull. unfold daxfs_write_iter.
    destruct from as [| x from']; [done |].
    rewrite Hcur.
    replace (Z.of_nat (length (x :: from')) =? 0) with false
      by (symmetry; apply Z.eqb_neq; simpl length; lia).
    by rewrite daxfs_delta_alloc_full.
Qed.

(** ** Inodes a branch has no entry for *)

Lemma branch_ctx_ind (P : daxfs_branch_ctx -> Prop) :
  (forall log sz cap dax ii di, P (mk_branch log sz cap dax ii di None)) ->
  (forall log sz cap dax ii di p,
      P p -> P (mk_branch log sz cap dax ii di (Some p))) ->
  forall b, P b.
Proof.
  intros Hroot Hchild. fix IH 1.
  intros [log sz cap dax ii di [p |]].
  - apply Hchild, IH.
  - apply Hroot.
Qed.

Lemma has_inode_entry_inos b ino :
  has_inode_entry b ino <-> ino ∈ rb_inos (inode_index b).
Proof.
  unfold has_inode_entry, rb_inos. rewrite list_elem_of_fmap.
  split; intros (e & H1 & H2); exists e; auto.
Qed.

Lemma inode_index_walk_absent t ino :
  ino ∉ rb_inos t -> inode_index_walk t ino = None.
Proof.
  unfold rb_inos. induction t as [| l IHl e r IHr]; simpl; [done |].
  rewrite fmap_app, fmap_cons.
  intros Hnot. apply not_elem_of_app in Hnot as [Hl Hr].
  apply not_elem_of_cons in Hr as [Hne Hr].
  destruct (Z.ltb_spec ino (ie_ino e)); [auto |].
  destruct (Z.ltb_spec (ie_ino e) ino); [auto | lia].
Qed.

Lemma index_add_inode_at_inos t ino hdr deleted sz mode o ret t' o' x :
  index_add_inode_at t ino hdr deleted sz mode o = (ret, t', o') ->
  x ∈ rb_inos t' -> x = ino \/ x ∈ rb_inos t.
Proof.
  unfold rb_inos. revert ret t' o'.
  induction t as [| l IHl e r IHr]; intros ret t' o'; simpl.
  - destruct (kzalloc o) as [[|] o1]; intros [= <- <- <-]; simpl.
    + rewrite list_elem_of_singleton. auto.
    + auto.
  - destruct (ino <? ie_ino e).
    { destruct (index_add_inode_at l ino hdr deleted sz mode o)
        as [[ret1 l1] o1] eqn:E.
      intros [= <- <- <-]. simpl. rewrite !fmap_app, !fmap_cons.
      rewrite !elem_of_app, !elem_of_cons. intros [Hx | Hx]; [| auto].
      destruct (IHl _ _ _ eq_refl Hx); auto. }
    destruct (ie_ino e <? ino).
    { destruct (index_add_inode_at r ino hdr deleted sz mode o)
        as [[ret1 r1] o1] eqn:E.
      intros [= <- <- <-]. simpl. rewrite !fmap_app, !fmap_cons.
      rewrite !elem_of_app, !elem_of_cons. intros [Hx | [Hx | Hx]]; auto.
      destruct (IHr _ _ _ eq_refl Hx); auto. }
    intros [= <- <- <-]. simpl. rewrite !fmap_app, !fmap_cons. simpl. auto.
Qed.

Lemma index_add_inode_inos b ino hdr deleted sz mode o ret b' o' x :
  index_add_inode b ino hdr deleted sz mode o = (ret, b', o') ->
  x ∈ rb_inos (inode_index b') -> x = ino \/ x ∈ rb_inos (inode_index b).
Proof.
  unfold index_add_inode.
  destruct (index_add_inode_at (inode_index b) ino hdr deleted sz mode o)
    as [[ret1 t1] o1] eqn:E.
  intros [= <- <- <-]. simpl. eauto using index_add_inode_at_inos.
Qed.

Lemma index_add_dirent_inode_index `{Jhash} b parent_ino name namelen hdr
    deleted o ret b' o' :
  index_add_dirent b parent_ino name namelen hdr deleted o = (ret, b', o') ->
  inode_index b' = inode_index b
  /\ delta_log b' = delta_log b /\ delta_size b' = delta_size b.
Proof.
  unfold index_add_dirent.
  destruct (index_add_dirent_at _ _ _ _ _ _ _) as [[ret1 t1] o1].
  by intros [= <- <- <-].
Qed.

(** *** The switch and its index calls *)

Ltac destruct_index_calls :=
  repeat match goal with
    | |- context [index_add_inode ?b ?i ?h ?d ?s ?m ?o] =>
        let E := fresh "Ei" in
        destruct (index_add_inode b i h d s m o) as [[? ?] ?] eqn:E
    | |- context [index_add_dirent ?b ?p ?n ?l ?h ?d ?o] =>
        let E := fresh "Ed" in
        destruct (index_add_dirent b p n l h d o) as [[? ?] ?] eqn:E
    end.

Lemma index_delta_entry_requests `{Jhash} b type ino hdr body payload o :
  index_delta_entry b type ino hdr body payload o
  = apply_requests b (entry_requests type ino hdr body payload) o.
Proof.
  unfold index_delta_entry, entry_requests.
  destruct (bool_decide (type = DAXFS_DELTA_CREATE \/ type = DAXFS_DELTA_MKDIR))
    eqn:Ecr.
  { apply bool_decide_eq_true in Ecr.
    assert (Hty : type = 2 \/ type = 5) by exact Ecr.
    destruct body; simpl; destruct_index_calls; try reflexivity;
      unfold DAXFS_DELTA_DELETE, DAXFS_DELTA_TRUNCATE, DAXFS_DELTA_WRITE,
        DAXFS_DELTA_SETATTR, DAXFS_DELTA_RENAME;
      repeat match goal with
        | |- context [?a =? ?b] => destruct (Z.eqb_spec a b); try lia
        end; reflexivity. }
  destruct (type =? DAXFS_DELTA_DELETE) eqn:Edel.
  { apply Z.eqb_eq in Edel. subst type.
    destruct body; simpl; destruct_index_calls; reflexivity. }
  destruct (type =? DAXFS_DELTA_TRUNCATE) eqn:Etr.
  { apply Z.eqb_eq in Etr. subst type.
    destruct body; simpl; destruct_index_calls; reflexivity. }
  destruct (type =? DAXFS_DELTA_WRITE) eqn:Ewr.
  { apply Z.eqb_eq in Ewr. subst type.
    destruct body; simpl; destruct_index_calls; reflexivity. }
  destruct (type =? DAXFS_DELTA_SETATTR) eqn:Esa.
  { apply Z.eqb_eq in Esa. subst type.
    destruct body; simpl; destruct_index_calls; reflexivity. }
  destruct (type =? DAXFS_DELTA_RENAME) eqn:Ern.
  { apply Z.eqb_eq in Ern. subst type.
    destruct body; simpl; destruct_index_calls; reflexivity. }
  destruct body; reflexivity.
Qed.

Lemma with_indices_id b : with_indices b (inode_index b) (dirent_index b) = b.
Proof. by destruct b. Qed.

Lemma apply_requests_frame `{Jhash} reqs b o b' o' :
  apply_requests b reqs o = (b', o') ->
  b' = with_indices b (inode_index b') (dirent_index b').
Proof.
  revert b o. induction reqs as [| [ino hdr d sz m | pi n nl hdr d] reqs IH];
    intros b o; simpl.
  - intros [= <- <-]. by rewrite with_indices_id.
  - unfold index_add_inode.
    destruct (index_add_inode_at _ _ _ _ _ _ _) as [[ret t] o1].
    intros Happ. apply IH in Happ. rewrite Happ at 1. by destruct b.
  - unfold index_add_dirent.
    destruct (index_add_dirent_at _ _ _ _ _ _ _) as [[ret t] o1].
    intros Happ. apply IH in Happ. rewrite Happ at 1. by destruct b.
Qed.

Lemma apply_requests_inos `{Jhash} reqs b o b' o' x :
  apply_requests b reqs o = (b', o') ->
  x ∈ rb_inos (inode_index b') ->
  x ∈ rb_inos (inode_index b)
  \/ exists hdr d sz m, ReqInode x hdr d sz m ∈ reqs.
Proof.
  revert b o. induction reqs as [| [ino hdr d sz m | pi n nl hdr d] reqs IH];
    intros b o; simpl.
  - intros [= <- <-]. auto.
  - destruct (index_add_inode b ino hdr d sz m o) as [[ret b1] o1] eqn:E.
    intros Happ Hx. destruct (IH _ _ Happ Hx) as [Hin | (h & d' & s' & m' & Hin)].
    + destruct (index_add_inode_inos _ _ _ _ _ _ _ _ _ _ _ E Hin) as [-> | ?];
        [right | by left].
      exists hdr, d, sz, m. apply list_elem_of_here.
    + right. exists h, d', s', m'. by apply list_elem_of_further.
  - destruct (index_add_dirent b pi n nl hdr d o) as [[ret b1] o1] eqn:E.
    intros Happ Hx. apply index_add_dirent_inode_index in E as (E & _ & _).
    destruct (IH _ _ Happ Hx) as [Hin | (h & d' & s' & m' & Hin)].
    + left. by rewrite <- E.
    + right. exists h, d', s', m'. by apply list_elem_of_further.
Qed.

Lemma entry_requests_inode type ino offset e x hdr d sz m :
  ino = hdr_ino (e_hdr e) ->
  ReqInode x hdr d sz m ∈ entry_requests type ino offset (e_body e) (e_payload e) ->
  entry_inode e = Some x.
Proof.
  intros ->. unfold entry_requests, entry_inode.
  destruct (e_body e); repeat case_match;
    rewrite ?elem_of_cons, ?elem_of_nil; intros Hin;
    repeat match goal with
      | H : _ \/ _ |- _ => destruct H
      | H : False |- _ => destruct H
      | H : ReqInode _ _ _ _ _ = _ |- _ => injection H as -> -> -> -> ->
      | H : ReqInode _ _ _ _ _ ∈ [] |- _ => apply elem_of_nil in H
      end; try done.
Qed.

Lemma build_index_entries_lookup fuel log dsize offset es off e :
  build_index_entries fuel log dsize offset = Some es ->
  (off, e) ∈ es -> log !! off = Some e.
Proof.
  revert offset es. induction fuel as [| fuel IH]; intros offset es; simpl.
  - destruct (offset <? dsize); [done |]. intros [= <-]. by rewrite elem_of_nil.
  - destruct (offset <? dsize); [| intros [= <-]; by rewrite elem_of_nil].
    destruct (log !! offset) as [e0 |] eqn:Elog;
      [| intros [= <-]; by rewrite elem_of_nil].
    destruct ((u32 (hdr_total_size (e_hdr e0)) =? 0)
              || (dsize <? u64 (offset + u32 (hdr_total_size (e_hdr e0)))));
      [intros [= <-]; by rewrite elem_of_nil |].
    destruct (build_index_entries fuel log dsize _) as [es' |] eqn:Erec;
      [| done].
    simpl. intros [= <-]. rewrite elem_of_cons. intros [[= -> ->] | Hin]; [done |].
    eauto.
Qed.

Lemma entries_requests_inode es x hdr d sz m :
  ReqInode x hdr d sz m ∈ entries_requests es ->
  exists off e, (off, e) ∈ es /\ entry_inode e = Some x.
Proof.
  unfold entries_requests. rewrite list_elem_of_bind.
  intros ([off e] & Hreq & Hin). exists off, e. split; [done |].
  eapply entry_requests_inode; [reflexivity | exact Hreq].
Qed.

Lemma apply_requests_app `{Jhash} r1 r2 b o :
  apply_requests b (r1 ++ r2) o
  = let '(b1, o1) := apply_requests b r1 o in apply_requests b1 r2 o1.
Proof.
  revert b o. induction r1 as [| [ino hdr d sz m | pi n nl hdr d] r1 IH];
    intros b o; simpl.
  - done.
  - destruct (index_add_inode b ino hdr d sz m o) as [[ret b1] o1]. apply IH.
  - destruct (index_add_dirent b pi n nl hdr d o) as [[ret b1] o1]. apply IH.
Qed.

Lemma build_index_scan_requests `{Jhash} fuel b offset o :
  build_index_scan fuel b offset o
  = (fun es => apply_requests b (entries_requests es) o)
      <$> build_index_entries fuel (delta_log b) (delta_size b) offset.
Proof.
  revert b offset o. induction fuel as [| fuel IH]; intros b offset o; simpl.
  - by destruct (offset <? delta_size b).
  - destruct (offset <? delta_size b); [| done].
    unfold hdr_at. destruct (delta_log b !! offset) as [e |] eqn:Elog;
      [| done].
    destruct ((u32 (hdr_total_size (e_hdr e)) =? 0)
              || (delta_size b
                  <? u64 (offset + u32 (hdr_total_size (e_hdr e)))));
      [done |].
    rewrite index_delta_entry_requests.
    destruct (apply_requests b _ o) as [b1 o1] eqn:Eapp.
    rewrite IH. pose proof (apply_requests_frame _ _ _ _ _ Eapp) as Hfr.
    replace (delta_log b1) with (delta_log b) by (rewrite Hfr; by destruct b).
    replace (delta_size b1) with (delta_size b) by (rewrite Hfr; by destruct b).
    destruct (build_index_entries fuel (delta_log b) (delta_size b) _)
      as [es |]; [| done].
    simpl. f_equal. unfold entries_requests at 2. simpl.
    rewrite apply_requests_app. fold (entries_requests es).
    by rewrite Eapp.
Qed.

Lemma daxfs_delta_build_index_unfold `{Jhash} b o :
  daxfs_delta_build_index b o
  = match parent b with
    | Some p =>
        match inode_index p with
        | rb_nil =>
            match daxfs_delta_build_index p o with
            | Some (ret, p', o') =>
                if ret =? 0 then build_index_own (set_parent b (Some p')) o'
                else Some (ret, set_parent b (Some p'), o')
            | None => None
            end
        | rb_node _ _ _ => build_index_own b o
        end
    | None => build_index_own b o
    end.
Proof. destruct b as [log sz cap dax ii di [p |]]; reflexivity. Qed.

Lemma build_index_own_inos `{Jhash} b o ret b' o' x :
  build_index_own b o = Some (ret, b', o') ->
  x ∈ rb_inos (inode_index b') ->
  x ∈ rb_inos (inode_index b)
  \/ exists off e, delta_log b !! off = Some e /\ entry_inode e = Some x.
Proof.
  unfold build_index_own. rewrite build_index_scan_requests.
  destruct (build_index_entries _ _ _ _) as [es |] eqn:Ees; [| done].
  simpl. destruct (apply_requests b (entries_requests es) o) as [b1 o1] eqn:Eapp.
  intros [= <- <- <-] Hx.
  destruct (apply_requests_inos _ _ _ _ _ _ Eapp Hx)
    as [? | (hdr & d & sz & m & Hreq)]; [by left | right].
  apply entries_requests_inode in Hreq as (off & e & Hin & He).
  exists off, e. split; [| done].
  eapply build_index_entries_lookup; eauto.
Qed.

Lemma untouched_chain `{Jhash} b ino :
  Forall (fun b' => ~ has_inode_entry b' ino) (branch_chain b) ->
  deleted_in_chain b ino = false /\ resolve_inode_delta b ino = None.
Proof.
  induction b as [log sz cap dax ii di | log sz cap dax ii di p IH]
    using branch_ctx_ind; simpl branch_chain; intros Hall.
  - apply Forall_cons in Hall as [Hb _].
    rewrite has_inode_entry_inos in Hb. simpl in Hb.
    apply inode_index_walk_absent in Hb.
    simpl. unfold daxfs_delta_is_deleted, daxfs_delta_lookup_inode. simpl.
    by rewrite Hb.
  - apply Forall_cons in Hall as [Hb Hp].
    rewrite has_inode_entry_inos in Hb. simpl in Hb.
    apply inode_index_walk_absent in Hb.
    destruct (IH Hp) as [IH1 IH2].
    simpl. unfold daxfs_delta_is_deleted, daxfs_delta_lookup_inode. simpl.
    by rewrite Hb.
Qed.

(** C10. A branch whose inode index has no entry for an inode does not
    report it deleted.  When no branch of the chain has an entry for it,
    no branch reports it deleted and [daxfs_resolve_inode] answers what
    the base image alone answers, which is never "deleted".  An index
    rebuilt from a log with no entry about the inode has no entry for it. *)
Theorem untouched_inode_not_deleted `{Jhash} (info : daxfs_info)
    (b : daxfs_branch_ctx) (ino : Z) :
  (~ has_inode_entry b ino -> daxfs_delta_is_deleted b ino = false)
  /\ (current_branch info = Some b ->
      Forall (fun b' => ~ has_inode_entry b' ino) (branch_chain b) ->
      deleted_in_chain b ino = false
      /\ daxfs_resolve_inode info ino = resolve_inode_base info ino
      /\ daxfs_resolve_inode info ino <> Some InodeDeleted)
  /\ (forall o ret b' o',
      inode_index b = rb_nil ->
      log_silent_on (delta_log b) ino ->
      daxfs_delta_build_index b o = Some (ret, b', o') ->
      ~ has_inode_entry b' ino /\ daxfs_delta_is_deleted b' ino = false).
Proof.
  assert (Hone : forall b0, ~ has_inode_entry b0 ino ->
                            daxfs_delta_is_deleted b0 ino = false).
  { intros b0 Hb. rewrite has_inode_entry_inos in Hb.
    apply inode_index_walk_absent in Hb.
    unfold daxfs_delta_is_deleted. by rewrite Hb. }
  split; [apply Hone |]. split.
  - intros Hcur Hall. destruct (untouched_chain b ino Hall) as [Hdel Hres].
    split; [done |].
    assert (Heq : daxfs_resolve_inode info ino = resolve_inode_base info ino).
    { unfold daxfs_resolve_inode, resolve_inode_base. by rewrite Hcur, Hres. }
    split; [done |]. rewrite Heq. unfold resolve_inode_base.
    repeat case_match; congruence.
  - intros o ret b' o' Hnil Hsilent Hbuild.
    assert (Hno : ~ has_inode_entry b' ino); [| split; [done | by apply Hone]].
    rewrite has_inode_entry_inos. intros Hin.
    assert (Hown : exists b0 o0,
               build_index_own b0 o0 = Some (ret, b', o')
               /\ inode_index b0 = rb_nil /\ delta_log b0 = delta_log b
               \/ inode_index b' = rb_nil).
    { rewrite daxfs_delta_build_index_unfold in Hbuild.
      destruct (parent b) as [p |] eqn:Ep.
      - destruct (inode_index p).
        + destruct (daxfs_delta_build_index p o) as [[[ret1 p1] o1] |];
            [| done].
          destruct (ret1 =? 0).
          * exists (set_parent b (Some p1)), o1. left. by destruct b.
          * injection Hbuild as <- <- <-. exists b, o. right. by destruct b.
        + exists b, o. by left.
      - exists b, o. by left. }
    destruct Hown as (b0 & o0 & [(Hown & Hnil0 & Hlog0) | Hnil']).
    + destruct (build_index_own_inos _ _ _ _ _ _ Hown Hin)
        as [Hold | (off & e & Hlook & He)].
      * rewrite Hnil0 in Hold. by apply elem_of_nil in Hold.
      * rewrite Hlog0 in Hlook. by apply (Hsilent off e).
    + rewrite Hnil' in Hin. by apply elem_of_nil in Hin.
Qed.

(** ** The log is densely packed *)

Lemma packed_le log offset es end_ :
  packed log offset es end_ -> offset <= end_.
Proof. induction 1; lia. Qed.

Lemma packed_sum log offset es end_ :
  packed log offset es end_ -> sum_total_size es = end_ - offset.
Proof. induction 1; simpl; lia. Qed.

Lemma packed_snoc log offset es end_ e :
  packed log offset es end_ ->
  0 < entry_total_size e < 2 ^ 32 ->
  packed (<[end_ := e]> log) offset (es ++ [e]) (end_ + entry_total_size e).
Proof.
  intros Hp He. induction Hp as [offset | offset e0 es end_ Hlook Hsz Hp IH].
  - simpl. econstructor; [apply lookup_insert_eq | done | constructor].
  - simpl. econstructor; [| done | exact IH].
    rewrite lookup_insert_ne; [done |].
    apply packed_le in Hp. lia.
Qed.

Lemma packed_records log offset es end_ fuel :
  packed log offset es end_ ->
  0 <= offset -> end_ < 2 ^ 64 ->
  (Z.to_nat (end_ - offset) <= fuel)%nat ->
  log_records fuel log end_ offset = Some es.
Proof.
  intros Hp. revert fuel.
  induction Hp as [offset | offset e es end_ Hlook Hsz Hp IH];
    intros fuel Hoff Hend Hfuel.
  - destruct fuel; simpl; by rewrite Z.ltb_irrefl.
  - pose proof (packed_le _ _ _ _ Hp) as Hle.
    destruct fuel as [| fuel]; [lia |]. simpl.
    destruct (Z.ltb_spec offset end_); [| lia].
    rewrite Hlook. fold (entry_total_size e).
    rewrite (u32_small (entry_total_size e)) by lia.
    destruct (Z.eqb_spec (entry_total_size e) 0); [lia |].
    rewrite u64_small by lia.
    rewrite IH by lia. done.
Qed.

Lemma sizeof_body_pos body : 8 <= sizeof_body body <= 32.
Proof. destruct body; simpl; lia. Qed.

Lemma index_delta_entry_frame `{Jhash} b type ino hdr body payload o b' o' :
  index_delta_entry b type ino hdr body payload o = (b', o') ->
  b' = with_indices b (inode_index b') (dirent_index b').
Proof. rewrite index_delta_entry_requests. apply apply_requests_frame. Qed.

Lemma append_keeps_log_inv `{Jhash} b es type ino body payload now o ret b' o' :
  log_inv b es ->
  delta_capacity b <= 2 ^ 64 - 2 ^ 32 ->
  sizeof_hdr + (sizeof_body body + Z.of_nat (length payload)) < 2 ^ 32 ->
  daxfs_delta_append b type ino body payload now o = (ret, b', o') ->
  ret = 0 ->
  exists e,
    entry_total_size e
    = sizeof_hdr + (sizeof_body body + Z.of_nat (length payload))
    /\ log_inv b' (es ++ [e])
    /\ delta_capacity b' = delta_capacity b.
Proof.
  intros (Hp & Hcap & Hdax) Hbound Hfit Happ Hret.
  pose proof (sizeof_body_pos body) as Hbody.
  pose proof (packed_le _ _ _ _ Hp) as Hsz.
  unfold sizeof_hdr in *.
  unfold daxfs_delta_append in Happ. unfold sizeof_hdr in Happ.
  set (total := 24 + (sizeof_body body + Z.of_nat (length payload))) in *.
  rewrite (u64_small total) in Happ by lia.
  unfold daxfs_delta_alloc in Happ.
  rewrite (u64_small (delta_size b + total)) in Happ by lia.
  destruct (Z.ltb_spec (delta_capacity b) (delta_size b + total)).
  { injection Happ as <- <- <-. unfold ENOSPC in Hret. lia. }
  destruct (index_delta_entry _ _ _ _ _ _ _) as [b3 o3] eqn:Eidx.
  injection Happ as <- <- <-.
  apply index_delta_entry_frame in Eidx.
  eexists (mk_entry (mk_hdr (u32 type) (u32 total) (u64 ino) (u64 now))
                    body payload).
  assert (Hts : u32 total = total) by (apply u32_small; lia).
  split; [exact Hts |].
  rewrite Eidx. split; [| reflexivity].
  unfold log_inv. simpl. split; [| split; [lia | done]].
  replace (delta_size b + total)
    with (delta_size b
          + entry_total_size
              (mk_entry (mk_hdr (u32 type) (u32 total) (u64 ino) (u64 now))
                        body payload))
    by (unfold entry_total_size; simpl; lia).
  apply packed_snoc; [done |]. unfold entry_total_size. simpl. lia.
Qed.

Lemma write_keeps_log_inv `{Jhash} info b es inode ki_pos from copied now o
    ret info' inode' pos' o' :
  current_branch info = Some b ->
  log_inv b es ->
  delta_capacity b <= 2 ^ 64 - 2 ^ 32 ->
  from <> [] ->
  sizeof_hdr + 16 + Z.of_nat (length from) < 2 ^ 32 ->
  daxfs_write_iter info inode ki_pos from copied now o
  = Some (ret, info', inode', pos', o') ->
  0 <= ret ->
  exists e b',
    current_branch info' = Some b'
    /\ entry_total_size e = sizeof_hdr + 16 + Z.of_nat (length from)
    /\ log_inv b' (es ++ [e])
    /\ delta_capacity b' = delta_capacity b.
Proof.
  intros Hcur (Hp & Hcap & Hdax) Hbound Hne Hfit Hwr Hret.
  pose proof (packed_le _ _ _ _ Hp) as Hsz.
  unfold daxfs_write_iter in Hwr. unfold sizeof_hdr in *.
  destruct (Z.eqb_spec (Z.of_nat (length from)) 0) as [Hz |].
  { destruct from; [done | simpl in Hz; lia]. }
  rewrite Hcur in Hwr.
  set (total := 24 + 16 + Z.of_nat (length from)) in *.
  rewrite (u64_small total) in Hwr by lia.
  unfold daxfs_delta_alloc in Hwr.
  rewrite (u64_small (delta_size b + total)) in Hwr by lia.
  destruct (Z.ltb_spec (delta_capacity b) (delta_size b + total)).
  { injection Hwr as <- <- <- <- <-. unfold ENOSPC in Hret. lia. }
  destruct (negb (copied =? Z.of_nat (length from))).
  { injection Hwr as <- <- <- <- <-. unfold EFAULT in Hret. lia. }
  destruct (write_iter_index _ _ _ _ _) as [t o1] eqn:Eidx.
  injection Hwr as <- <- <- <- <-.
  assert (Hts : u32 total = total) by (apply u32_small; lia).
  match type of Eidx with
  | context [<[_ := ?e]> _] => exists e
  end.
  eexists. split; [reflexivity |].
  split; [exact Hts |]. split; [| reflexivity].
  unfold log_inv. simpl. split; [| split; [lia | done]].
  match goal with
  | |- packed (<[_ := ?e]> _) _ _ _ =>
      replace (delta_size b + total) with (delta_size b + entry_total_size e)
        by (unfold entry_total_size; simpl; lia);
      apply packed_snoc; [done | unfold entry_total_size; simpl; lia]
  end.
Qed.

Lemma run_op_inv `{Jhash} info b es op info' :
  current_branch info = Some b ->
  log_inv b es ->
  delta_capacity b <= 2 ^ 64 - 2 ^ 32 ->
  (forall n, op_record_size op = Some n -> n < 2 ^ 32) ->
  run_op info op = Some info' ->
  exists b' es',
    current_branch info' = Some b'
    /\ log_inv b' (es ++ es')
    /\ entry_total_size <$> es' = option_list (op_record_size op)
    /\ delta_capacity b' = delta_capacity b.
Proof.
  intros Hcur Hinv Hbound Hfit Hrun.
  destruct op as [type ino body payload now o
                 | inode ki_pos from copied now o]; simpl in *.
  - rewrite Hcur in Hrun.
    destruct (daxfs_delta_append b type ino body payload now o)
      as [[ret b1] o1] eqn:Eapp.
    destruct (Z.eqb_spec ret 0) as [-> |]; [| done].
    injection Hrun as <-.
    destruct (append_keeps_log_inv _ _ _ _ _ _ _ _ _ _ _ Hinv Hbound
                (Hfit _ eq_refl) Eapp eq_refl) as (e & Hsz & Hinv' & Hcap).
    exists b1, [e]. simpl. rewrite Hsz. done.
  - destruct (daxfs_write_iter info inode ki_pos from copied now o)
      as [[[[[ret info1] inode1] pos1] o1] |] eqn:Ewr; [| done].
    destruct (Z.leb_spec 0 ret); [| done].
    injection Hrun as <-.
    case_bool_decide as Hfrom.
    + subst from. unfold daxfs_write_iter in Ewr. simpl in Ewr.
      injection Ewr as <- <- <- <- <-.
      exists b, []. rewrite app_nil_r. done.
    + destruct (write_keeps_log_inv _ _ _ _ _ _ _ _ _ _ _ _ _ _ Hcur Hinv Hbound
                  Hfrom (Hfit _ eq_refl) Ewr ltac:(done))
        as (e & b1 & Hcur1 & Hsz & Hinv' & Hcap).
      exists b1, [e]. simpl. rewrite Hsz. done.
Qed.

Lemma run_ops_inv `{Jhash} ops info b es info' :
  current_branch info = Some b ->
  log_inv b es ->
  delta_capacity b <= 2 ^ 64 - 2 ^ 32 ->
  Forall (fun op => forall n, op_record_size op = Some n -> n < 2 ^ 32) ops ->
  run_ops info ops = Some info' ->
  exists b' es',
    current_branch info' = Some b'
    /\ log_inv b' (es ++ es')
    /\ entry_total_size <$> es' = omap op_record_size ops
    /\ delta_capacity b' = delta_capacity b.
Proof.
  revert info b es. induction ops as [| op ops IH]; intros info b es
    Hcur Hinv Hbound Hfit Hrun; simpl in Hrun.
  - injection Hrun as <-. exists b, []. by rewrite app_nil_r.
  - apply Forall_cons in Hfit as [Hop Hfit].
    destruct (run_op info op) as [info1 |] eqn:Eop; [| done].
    destruct (run_op_inv _ _ _ _ _ Hcur Hinv Hbound Hop Eop)
      as (b1 & es1 & Hcur1 & Hinv1 & Hsz1 & Hcap1).
    destruct (IH _ _ _ Hcur1 Hinv1 ltac:(lia) Hfit Hrun)
      as (b2 & es2 & Hcur2 & Hinv2 & Hsz2 & Hcap2).
    exists b2, (es1 ++ es2). rewrite app_assoc. split; [done |].
    split; [done |]. split; [| lia]. rewrite fmap_app, Hsz1, Hsz2. simpl.
    by destruct (op_record_size op).
Qed.

(** C8. Start from a branch with an empty log and run any sequence of
    appends ([daxfs_delta_append] calls and file writes), each to
    completion.  Then the reader's walk over the log finds one record per
    append, of the total size of that append, back to back from offset 0,
    and the total sizes add up to [delta_size], which is also the
    persisted [delta_log_size].  The record sizes are the ones the VFS
    hands down: below 4 GiB, so that [total_size] fits its 32-bit field. *)
Theorem log_size_is_sum_of_records `{Jhash} (info info' : daxfs_info)
    (b0 : daxfs_branch_ctx) (ops : list log_op) :
  current_branch info = Some b0 ->
  delta_size b0 = 0 ->
  on_dax_delta_log_size b0 = 0 ->
  0 <= delta_capacity b0 <= 2 ^ 64 - 2 ^ 32 ->
  Forall (fun op => forall n, op_record_size op = Some n -> n < 2 ^ 32) ops ->
  run_ops info ops = Some info' ->
  exists b' es,
    current_branch info' = Some b'
    /\ log_records (Z.to_nat (delta_size b')) (delta_log b')
                   (delta_size b') 0 = Some es
    /\ entry_total_size <$> es = omap op_record_size ops
    /\ sum_total_size es = delta_size b'
    /\ on_dax_delta_log_size b' = delta_size b'
    /\ delta_size b' <= delta_capacity b'.
Proof.
  intros Hcur Hsz0 Hdax0 Hcap Hfit Hrun.
  assert (Hinv0 : log_inv b0 []).
  { unfold log_inv. rewrite Hsz0, Hdax0. split; [constructor | lia]. }
  destruct (run_ops_inv _ _ _ _ _ Hcur Hinv0 ltac:(lia) Hfit Hrun)
    as (b' & es & Hcur' & (Hp & Hle & Hdax) & Hsizes & Hcap').
  simpl in Hp. exists b', es.
  pose proof (packed_sum _ _ _ _ Hp) as Hsum.
  pose proof (packed_le _ _ _ _ Hp) as Hpos.
  split; [done |]. split.
  - apply packed_records; [done | lia | lia | lia].
  - repeat split; [done | lia | done | done].
Qed.

(** ** Rebuilding the indices *)

Section UpsertTheory.
Context {A Q : Type}.
Variable dir : Q -> A -> direction.
Variable upd : Q -> A -> A.
Variable fresh : Q -> A.

(** An update leaves alone what the walk compares. *)
Hypothesis dir_upd : forall q q' e, dir q (upd q' e) = dir q e.
(** A request finds the entry made for it. *)
Hypothesis dir_fresh : forall q, dir q (fresh q) = Here.
(** A fresh entry is a zeroed node updated by its request. *)
Hypothesis fresh_upd : forall q, exists z, fresh q = upd q z.
(** Replaying the updates of an entry changes nothing. *)
Hypothesis update_all_idem :
  forall qs e, update_all upd qs (update_all upd qs e) = update_all upd qs e.

Notation upsert := (upsert dir upd fresh).
Notation upsert_all := (upsert_all dir upd fresh).
Notation update_all := (update_all upd).
Notation going := (going dir).

Lemma dir_update_all qs q e : dir q (update_all qs e) = dir q e.
Proof.
  revert e. induction qs as [| q' qs IH]; intros e; simpl; [done |].
  by rewrite IH, dir_upd.
Qed.

Lemma going_same d e e' qs :
  (forall q, dir q e' = dir q e) -> going d e' qs = going d e qs.
Proof.
  intros Hsame. induction qs as [| q qs IH]; simpl; [done |].
  by rewrite Hsame, IH.
Qed.

Lemma going_length d e qs : (length (going d e qs) <= length qs)%nat.
Proof.
  induction qs as [| q qs IH]; simpl; [done |].
  destruct (direction_eqb (dir q e) d); simpl; lia.
Qed.

Lemma upsert_all_node qs l e r :
  upsert_all qs (rb_node l e r)
  = rb_node (upsert_all (going GoLeft e qs) l)
            (update_all (going Here e qs) e)
            (upsert_all (going GoRight e qs) r).
Proof.
  revert l e r. induction qs as [| q qs IH]; intros l e r; simpl; [done |].
  destruct (dir q e) eqn:D; simpl; rewrite IH; [done | done |].
  by rewrite !(going_same _ e (upd q e)) by (intros; apply dir_upd).
Qed.

Lemma upsert_all_idem_nil n : forall qs,
  (length qs <= n)%nat ->
  upsert_all qs (upsert_all qs rb_nil) = upsert_all qs rb_nil.
Proof.
  induction n as [| n IH]; intros [| q tl] Hlen; simpl in *;
    [done | lia | done |].
  rewrite upsert_all_node.
  set (f := fresh q).
  set (e1 := update_all (going Here f tl) f).
  assert (Hsame : forall q', dir q' e1 = dir q' f)
    by (intros; apply dir_update_all).
  change (upsert q (rb_node ?l e1 ?r))
    with (match dir q e1 with
          | GoLeft => rb_node (upsert q l) e1 r
          | GoRight => rb_node l e1 (upsert q r)
          | Here => rb_node l (upd q e1) r
          end).
  rewrite Hsame. unfold f at 1. rewrite dir_fresh. fold f.
  rewrite upsert_all_node.
  rewrite !(going_same _ f (upd q e1))
    by (intros; rewrite dir_upd; apply Hsame).
  pose proof (going_length GoLeft f tl). pose proof (going_length GoRight f tl).
  rewrite !IH by lia. f_equal.
  destruct (fresh_upd q) as [z Hz]. subst e1. fold f in Hz. rewrite Hz.
  change (update_all (going Here (upd q z) tl) (upd q z))
    with (update_all (q :: going Here (upd q z) tl) z).
  change (update_all (going Here (upd q z) tl)
            (upd q (update_all (q :: going Here (upd q z) tl) z)))
    with (update_all (q :: going Here (upd q z) tl)
            (update_all (q :: going Here (upd q z) tl) z)).
  apply update_all_idem.
Qed.

Theorem upsert_all_idem t : forall qs,
  upsert_all qs (upsert_all qs t) = upsert_all qs t.
Proof.
  induction t as [| l IHl e r IHr]; intros qs.
  - by apply (upsert_all_idem_nil (length qs)).
  - rewrite !upsert_all_node.
    rewrite !(going_same _ e (update_all (going Here e qs) e))
      by (intros; apply dir_update_all).
    by rewrite IHl, IHr, update_all_idem.
Qed.
End UpsertTheory.

(** *** The two indices as instances *)

Lemma index_add_inode_at_upsert t ino hdr d sz m :
  index_add_inode_at t ino hdr d sz m []
  = (0, upsert inode_dir inode_upd inode_fresh
          (mk_inode_call ino hdr d sz m) t, []).
Proof.
  induction t as [| l IHl e r IHr]; simpl; [done |].
  unfold inode_dir. simpl.
  destruct (ino <? ie_ino e); [by rewrite IHl |].
  destruct (ie_ino e <? ino); [by rewrite IHr |]. done.
Qed.

Lemma index_add_dirent_at_upsert `{Jhash} t p n nl hdr d :
  index_add_dirent_at t p n nl hdr d []
  = (0, upsert dirent_dir dirent_upd dirent_fresh
          (mk_dirent_call p n nl hdr d) t, []).
Proof.
  induction t as [| l IHl e r IHr]; simpl; [done |].
  unfold dirent_dir. simpl.
  destruct (_ <? dirent_key (de_parent_ino e) (de_name_hash e));
    [by rewrite IHl |].
  destruct (dirent_key (de_parent_ino e) (de_name_hash e) <? _);
    [by rewrite IHr |].
  destruct (same_name n nl e); [done | by rewrite IHr].
Qed.

Lemma apply_requests_quiet `{Jhash} reqs b :
  apply_requests b reqs []
  = (with_indices b
       (upsert_all inode_dir inode_upd inode_fresh (inode_calls reqs)
                   (inode_index b))
       (upsert_all dirent_dir dirent_upd dirent_fresh (dirent_calls reqs)
                   (dirent_index b)),
     []).
Proof.
  revert b. induction reqs as [| [ino hdr d sz m | p n nl hdr d] reqs IH];
    intros b; simpl.
  - by rewrite with_indices_id.
  - unfold index_add_inode. rewrite index_add_inode_at_upsert.
    rewrite IH. by destruct b.
  - unfold index_add_dirent. rewrite index_add_dirent_at_upsert.
    rewrite IH. by destruct b.
Qed.

Lemma inode_dir_upd q q' e : inode_dir q (inode_upd q' e) = inode_dir q e.
Proof. done. Qed.

Lemma inode_dir_fresh q : inode_dir q (inode_fresh q) = Here.
Proof. unfold inode_dir. simpl. by rewrite Z.ltb_irrefl. Qed.

Lemma inode_fresh_upd q : exists z, inode_fresh q = inode_upd q z.
Proof. by exists (mk_inode_entry (ic_ino q) 0 false 0 0). Qed.

Lemma inode_update_all_settled qs : forall q,
  exists s, forall e,
    update_all inode_upd (q :: qs) e = inode_settled s e.
Proof.
  induction qs as [| q' qs IH]; intros q.
  - exists (ic_hdr q, ic_deleted q,
            if ic_size q =? U64_MAX then None else Some (ic_size q),
            if ic_mode q =? U32_MAX then None else Some (ic_mode q)).
    intros e. simpl. unfold inode_upd.
    by destruct (ic_size q =? U64_MAX), (ic_mode q =? U32_MAX).
  - destruct (IH q') as [[[[hdr d] sz] m] Hs].
    exists (hdr, d,
            match sz with
            | Some x => Some x
            | None => if ic_size q =? U64_MAX then None else Some (ic_size q)
            end,
            match m with
            | Some x => Some x
            | None => if ic_mode q =? U32_MAX then None else Some (ic_mode q)
            end).
    intros e. change (update_all inode_upd (q :: q' :: qs) e)
      with (update_all inode_upd (q' :: qs) (inode_upd q e)).
    rewrite Hs. unfold inode_settled, inode_upd. simpl.
    by destruct sz, m, (ic_size q =? U64_MAX), (ic_mode q =? U32_MAX).
Qed.

Lemma inode_update_all_idem qs e :
  update_all inode_upd qs (update_all inode_upd qs e)
  = update_all inode_upd qs e.
Proof.
  destruct qs as [| q qs]; [done |].
  destruct (inode_update_all_settled qs q) as [[[[hdr d] sz] m] Hs].
  rewrite !Hs. unfold inode_settled. simpl. by destruct sz, m.
Qed.

Lemma dirent_dir_upd `{Jhash} q q' e :
  dirent_dir q (dirent_upd q' e) = dirent_dir q e.
Proof. done. Qed.

Lemma bytes_at_prefix buf n : bytes_at (bytes_at buf 0 n) 0 n = bytes_at buf 0 n.
Proof.
  unfold bytes_at. change (Z.to_nat 0) with 0%nat. rewrite !drop_0.
  rewrite take_take. f_equal. lia.
Qed.

Lemma dirent_dir_fresh `{Jhash} q : dirent_dir q (dirent_fresh q) = Here.
Proof.
  unfold dirent_dir, dirent_fresh, same_name. simpl.
  rewrite Z.ltb_irrefl, Z.eqb_refl, bytes_at_prefix. simpl.
  by rewrite bool_decide_eq_true_2.
Qed.

Lemma dirent_fresh_upd `{Jhash} q : exists z, dirent_fresh q = dirent_upd q z.
Proof.
  by exists (mk_dirent_entry (dc_parent_ino q)
               (dirent_hash (dc_parent_ino q) (dc_name q) (dc_namelen q))
               (bytes_at (dc_name q) 0 (dc_namelen q)) (dc_namelen q) 0 false).
Qed.

Lemma dirent_update_all_last qs : forall q e,
  exists hdr d,
    update_all dirent_upd (q :: qs) e
    = mk_dirent_entry (de_parent_ino e) (de_name_hash e) (de_name e)
                      (de_name_len e) hdr d
    /\ forall e', update_all dirent_upd (q :: qs) e'
                  = mk_dirent_entry (de_parent_ino e') (de_name_hash e')
                      (de_name e') (de_name_len e') hdr d.
Proof.
  induction qs as [| q' qs IH]; intros q e.
  - by exists (dc_hdr q), (dc_deleted q).
  - destruct (IH q' (dirent_upd q e)) as (hdr & d & _ & Hall).
    exists hdr, d.
    assert (Hgen : forall e', update_all dirent_upd (q :: q' :: qs) e'
                     = mk_dirent_entry (de_parent_ino e') (de_name_hash e')
                         (de_name e') (de_name_len e') hdr d).
    { intros e'. change (update_all dirent_upd (q :: q' :: qs) e')
        with (update_all dirent_upd (q' :: qs) (dirent_upd q e')).
      by rewrite Hall. }
    split; [apply Hgen | exact Hgen].
Qed.

Lemma dirent_update_all_idem qs e :
  update_all dirent_upd qs (update_all dirent_upd qs e)
  = update_all dirent_upd qs e.
Proof.
  destruct qs as [| q qs]; [done |].
  destruct (dirent_update_all_last qs q e) as (hdr & d & _ & Hall).
  by rewrite !Hall.
Qed.

(** Replaying a list of index calls on the indices it has produced
    leaves them as they are. *)
Lemma apply_requests_quiet_idem `{Jhash} reqs b :
  apply_requests (apply_requests b reqs []).1 reqs []
  = apply_requests b reqs [].
Proof.
  rewrite !apply_requests_quiet. simpl.
  rewrite (upsert_all_idem inode_dir inode_upd inode_fresh
             inode_dir_upd inode_dir_fresh inode_fresh_upd
             inode_update_all_idem).
  rewrite (upsert_all_idem dirent_dir dirent_upd dirent_fresh
             dirent_dir_upd dirent_dir_fresh dirent_fresh_upd
             dirent_update_all_idem).
  by destruct b.
Qed.

Lemma build_index_entries_total log dsize fuel : forall offset,
  0 <= offset ->
  dsize <= 2 ^ 64 - 2 ^ 32 ->
  (Z.to_nat (dsize - offset) <= fuel)%nat ->
  exists es, build_index_entries fuel log dsize offset = Some es.
Proof.
  induction fuel as [| fuel IH]; intros offset Hoff Hbound Hfuel; simpl.
  - destruct (Z.ltb_spec offset dsize); [lia | eauto].
  - destruct (Z.ltb_spec offset dsize); [| eauto].
    destruct (log !! offset) as [e |]; [| eauto].
    pose proof (u32_range (hdr_total_size (e_hdr e))) as Hts.
    set (ts := u32 (hdr_total_size (e_hdr e))) in *.
    destruct (Z.eqb_spec ts 0); simpl; [eauto |].
    rewrite (u64_small (offset + ts)) by lia.
    destruct (Z.ltb_spec dsize (offset + ts)); [eauto |].
    destruct (IH (offset + ts)) as [es Hes]; [lia | lia | lia |].
    rewrite Hes. eauto.
Qed.

Lemma build_index_own_idem `{Jhash} b :
  delta_size b <= 2 ^ 64 - 2 ^ 32 ->
  exists b1,
    build_index_own b [] = Some (0, b1, [])
    /\ build_index_own b1 [] = Some (0, b1, [])
    /\ b1 = with_indices b (inode_index b1) (dirent_index b1).
Proof.
  intros Hbound. unfold build_index_own.
  rewrite build_index_scan_requests.
  destruct (build_index_entries_total (delta_log b) (delta_size b)
              (Z.to_nat (delta_size b)) 0) as [es Hes]; [lia | lia | lia |].
  rewrite Hes. simpl.
  pose proof (apply_requests_quiet_idem (entries_requests es) b) as Hidem.
  destruct (apply_requests b (entries_requests es) []) as [b1 o1] eqn:Eapp.
  pose proof (apply_requests_frame _ _ _ _ _ Eapp) as Hfr.
  assert (o1 = []) as -> by (rewrite apply_requests_quiet in Eapp; congruence).
  exists b1. split; [done |]. split; [| done].
  rewrite build_index_scan_requests.
  replace (delta_log b1) with (delta_log b) by (rewrite Hfr; by destruct b).
  replace (delta_size b1) with (delta_size b) by (rewrite Hfr; by destruct b).
  rewrite Hes. simpl. simpl in Hidem. by rewrite Hidem.
Qed.

Lemma set_parent_same b p : parent b = p -> set_parent b p = b.
Proof. intros <-. by destruct b. Qed.

Lemma build_index_idem_chain `{Jhash} b :
  Forall (fun b' => delta_size b' <= 2 ^ 64 - 2 ^ 32) (branch_chain b) ->
  exists b1,
    daxfs_delta_build_index b [] = Some (0, b1, [])
    /\ daxfs_delta_build_index b1 [] = Some (0, b1, []).
Proof.
  induction b as [log sz cap dax ii di | log sz cap dax ii di p IH]
    using branch_ctx_ind; intros Hall; simpl branch_chain in Hall;
    apply Forall_cons in Hall as [Hb Hp].
  - set (b := mk_branch log sz cap dax ii di None) in *.
    destruct (build_index_own_idem b Hb) as (b1 & H1 & H2 & Hfr).
    exists b1. rewrite !daxfs_delta_build_index_unfold.
    replace (parent b1) with (parent b) by (rewrite Hfr; by destruct b).
    simpl. done.
  - destruct (IH Hp) as (p1 & Hp1 & Hp2).
    set (b := mk_branch log sz cap dax ii di (Some p)) in *.
    rewrite (daxfs_delta_build_index_unfold b).
    change (parent b) with (Some p). cbv beta iota.
    destruct (inode_index p) eqn:Eii.
    + rewrite Hp1. simpl.
      destruct (build_index_own_idem (set_parent b (Some p1)) Hb)
        as (b1 & H1 & H2 & Hfr).
      exists b1. split; [done |].
      rewrite daxfs_delta_build_index_unfold.
      assert (Hpar : parent b1 = Some p1) by (rewrite Hfr; done).
      rewrite Hpar. destruct (inode_index p1); [| done].
      rewrite Hp2. simpl. by rewrite set_parent_same.
    + destruct (build_index_own_idem b Hb) as (b1 & H1 & H2 & Hfr).
      exists b1. split; [done |].
      rewrite daxfs_delta_build_index_unfold.
      assert (Hpar : parent b1 = Some p) by (rewrite Hfr; done).
      rewrite Hpar, Eii. done.
Qed.


(** ** The order of the steps of an append *)

Lemma daxfs_delta_append_as_steps `{Jhash} b type ino body payload now o :
  run_steps (b, o) (daxfs_delta_append_steps b type ino body payload now)
  = let '(_, b', o') := daxfs_delta_append b type ino body payload now o in
    (b', o').
Proof.
  unfold daxfs_delta_append_steps, daxfs_delta_append, run_steps.
  set (total := u64 (sizeof_hdr + (sizeof_body body + Z.of_nat (length payload)))).
  destruct (daxfs_delta_alloc b total) as [[entry |] b1] eqn:Ealloc; simpl;
    rewrite Ealloc; simpl.
  - by destruct (index_delta_entry _ _ _ _ _ _ _).
  - unfold daxfs_delta_alloc in Ealloc.
    destruct (delta_capacity b <? u64 (delta_size b + total)); congruence.
Qed.

Lemma daxfs_write_iter_as_steps `{Jhash} info b inode ki_pos from now o :
  current_branch info = Some b ->
  from <> [] ->
  match daxfs_write_iter info inode ki_pos from (Z.of_nat (length from)) now o
  with
  | Some (_, info', _, _, o') =>
      (exists b', current_branch info' = Some b'
                  /\ (b', o') = run_steps (b, o)
                                  (daxfs_write_iter_steps b inode ki_pos from now))
  | None => False
  end.
Proof.
  intros Hcur Hne. unfold daxfs_write_iter, daxfs_write_iter_steps, run_steps.
  destruct (Z.eqb_spec (Z.of_nat (length from)) 0) as [Hz |].
  { destruct from; [done | simpl in Hz; lia]. }
  rewrite Hcur.
  set (total := u64 (sizeof_hdr + 16 + Z.of_nat (length from))).
  destruct (daxfs_delta_alloc b total) as [[entry |] b1] eqn:Ealloc; simpl;
    rewrite ?Ealloc; simpl.
  - rewrite Z.eqb_refl. simpl.
    destruct (write_iter_index _ _ _ _ _) as [t o1]. simpl. eauto.
  - unfold daxfs_delta_alloc in Ealloc.
    destruct (delta_capacity b <? u64 (delta_size b + total));
      [| congruence].
    injection Ealloc as <-. eauto.
Qed.

Lemma run_step_keeps_size `{Jhash} st step :
  is_alloc step = false ->
  delta_size (run_step st step).1 = delta_size st.1
  /\ on_dax_delta_log_size (run_step st step).1 = on_dax_delta_log_size st.1.
Proof.
  destruct st as [b o]. destruct step as [sz | entry e | ty i h bd pl | ind h e];
    simpl; intros Hne; try done.
  - destruct (index_delta_entry b ty i h bd pl o) as [b' o'] eqn:E. simpl.
    apply index_delta_entry_frame in E. rewrite E. by destruct b.
  - by destruct (write_iter_index (inode_index b) ind h e o).
Qed.

Lemma run_steps_keep_size `{Jhash} steps : forall st,
  Forall (fun step => is_alloc step = false) steps ->
  delta_size (run_steps st steps).1 = delta_size st.1
  /\ on_dax_delta_log_size (run_steps st steps).1 = on_dax_delta_log_size st.1.
Proof.
  unfold run_steps.
  induction steps as [| step steps IH]; intros st Hall; simpl; [done |].
  apply Forall_cons in Hall as [Hstep Hall].
  destruct (IH (run_step st step) Hall) as [-> ->].
  by apply run_step_keeps_size.
Qed.

Lemma alloc_first_then_size_fixed `{Jhash} b o sz rest n :
  u64 (delta_size b + sz) <= delta_capacity b ->
  Forall (fun step => is_alloc step = false) rest ->
  (1 <= n)%nat ->
  let seen := (run_steps (b, o) (take n (StepAlloc sz :: rest))).1 in
  delta_size seen = u64 (delta_size b + sz)
  /\ on_dax_delta_log_size seen = u64 (delta_size b + sz).
Proof.
  intros Hfits Hrest Hn. destruct n as [| n]; [lia |]. simpl.
  unfold run_steps. simpl. rewrite daxfs_delta_alloc_fits by done. simpl.
  apply (run_steps_keep_size (take n rest)
           (set_delta_size b (u64 (delta_size b + sz)), o)).
  by apply Forall_take.
Qed.

(** A reader that observes a size beyond the last complete record walks
    the records there are and stops at the slot that still reads zero. *)
Lemma log_records_stop_at_zero log offset es end_ dsize fuel :
  packed log offset es end_ ->
  log !! end_ = None ->
  0 <= offset -> end_ <= dsize -> dsize <= 2 ^ 64 - 2 ^ 32 ->
  (Z.to_nat (dsize - offset) <= fuel)%nat ->
  log_records fuel log dsize offset = Some es.
Proof.
  intros Hp. revert fuel.
  induction Hp as [offset | offset e es end_ Hlook Hsz Hp IH];
    intros fuel Hzero Hoff Hend Hbound Hfuel.
  - destruct fuel as [| fuel]; simpl.
    + destruct (Z.ltb_spec offset dsize); [lia | done].
    + destruct (Z.ltb_spec offset dsize); [| done]. by rewrite Hzero.
  - pose proof (packed_le _ _ _ _ Hp) as Hle.
    destruct fuel as [| fuel]; [lia |]. simpl.
    destruct (Z.ltb_spec offset dsize); [| lia].
    rewrite Hlook. fold (entry_total_size e).
    rewrite (u32_small (entry_total_size e)) by lia.
    destruct (Z.eqb_spec (entry_total_size e) 0); [lia |].
    rewrite u64_small by lia.
    rewrite IH by (done || lia). done.
Qed.

(** C4, as the code has it.  When the record fits, an append is three
    statements in this order: [daxfs_delta_alloc] bumps [delta_size] and
    the persisted [delta_log_size] to their final value and touches
    nothing else; then the header, struct and payload are stored in the
    slot at the old size; then the indices are updated.  From the first
    statement on the size stays what it is, while the slot at first still
    reads what it read before the append (zero, in a delta region zeroed
    at image creation); the record is in its slot and the branch is what
    [daxfs_delta_append] returns only after the last.  A write
    ([daxfs_write_iter]) runs in the same order. *)
Theorem append_bumps_size_first `{Jhash} (b : daxfs_branch_ctx)
    (type ino now : Z) (body : delta_body) (payload : list byte)
    (o : alloc_oracle) (inode : vfs_inode) (ki_pos : Z) (from : list byte) :
  let total :=
    u64 (sizeof_hdr + (sizeof_body body + Z.of_nat (length payload))) in
  let wtotal := u64 (sizeof_hdr + 16 + Z.of_nat (length from)) in
  (u64 (delta_size b + total) <= delta_capacity b ->
   let steps := daxfs_delta_append_steps b type ino body payload now in
   exists e b' o',
     steps = [StepAlloc total; StepStore (delta_size b) e;
              StepIndex type ino (delta_size b) body payload]
     /\ run_steps (b, o) (take 1 steps)
        = (set_delta_size b (u64 (delta_size b + total)), o)
     /\ hdr_at (delta_log (run_steps (b, o) (take 1 steps)).1) (delta_size b)
        = hdr_at (delta_log b) (delta_size b)
     /\ (forall n, (1 <= n)%nat ->
           let seen := (run_steps (b, o) (take n steps)).1 in
           delta_size seen = u64 (delta_size b + total)
           /\ on_dax_delta_log_size seen = u64 (delta_size b + total))
     /\ daxfs_delta_append b type ino body payload now o = (0, b', o')
     /\ run_steps (b, o) steps = (b', o')
     /\ delta_log b' !! delta_size b = Some e)
  /\ (u64 (delta_size b + wtotal) <= delta_capacity b ->
      let steps := daxfs_write_iter_steps b inode ki_pos from now in
      exists e,
        steps = [StepAlloc wtotal; StepStore (delta_size b) e;
                 StepWriteIndex inode (delta_size b)
                   (u64 (ki_pos + Z.of_nat (length from)))]
        /\ run_steps (b, o) (take 1 steps)
           = (set_delta_size b (u64 (delta_size b + wtotal)), o)
        /\ (forall n, (1 <= n)%nat ->
              let seen := (run_steps (b, o) (take n steps)).1 in
              delta_size seen = u64 (delta_size b + wtotal)
              /\ on_dax_delta_log_size seen = u64 (delta_size b + wtotal))
        /\ delta_log (run_steps (b, o) steps).1 !! delta_size b = Some e).
Proof.
  cbv zeta. split; intros Hfits.
  - pose proof (daxfs_delta_append_as_steps b type ino body payload now o)
      as Hsteps.
    unfold daxfs_delta_append_steps in *. unfold daxfs_delta_append in *.
    rewrite daxfs_delta_alloc_fits in * by done.
    destruct (index_delta_entry _ _ _ _ _ _ _) as [b3 o3] eqn:Eidx.
    eexists _, b3, o3. split; [reflexivity |].
    split.
    { unfold run_steps. simpl. by rewrite daxfs_delta_alloc_fits. }
    split.
    { unfold run_steps. simpl. by rewrite daxfs_delta_alloc_fits. }
    split.
    { intros n Hn. apply alloc_first_then_size_fixed; [done | | done].
      repeat constructor. }
    split; [done |]. split; [done |].
    apply index_delta_entry_frame in Eidx. rewrite Eidx. simpl.
    apply lookup_insert_eq.
  - unfold daxfs_write_iter_steps.
    rewrite daxfs_delta_alloc_fits by done.
    eexists. split; [reflexivity |].
    split.
    { unfold run_steps. simpl. by rewrite daxfs_delta_alloc_fits. }
    split.
    { intros n Hn. apply alloc_first_then_size_fixed; [done | | done].
      repeat constructor. }
    unfold run_steps. simpl. rewrite daxfs_delta_alloc_fits by done. simpl.
    destruct (write_iter_index _ _ _ _ _) as [t o1]. simpl.
    apply lookup_insert_eq.
Qed.

(** ** Renames and name resolution *)

(** Whatever the hash: a RENAME entry that the dirent index returns
    decides nothing in [daxfs_name_exists]; the walk goes on to the
    parent branch and then to the base image. *)
Lemma name_exists_delta_skips_rename `{Jhash} b parent_ino name namelen hdr e :
  daxfs_delta_lookup_dirent b parent_ino name namelen = Some hdr ->
  delta_log b !! hdr = Some e ->
  u32 (hdr_type (e_hdr e)) = DAXFS_DELTA_RENAME ->
  name_exists_delta b parent_ino name namelen
  = match parent b with
    | Some p => name_exists_delta p parent_ino name namelen
    | None => None
    end.
Proof.
  intros Hlook Hlog Hty.
  destruct b as [log sz cap dax ii di [p |]]; simpl in *;
    rewrite Hlook; unfold hdr_at; simpl; rewrite Hlog, Hty; reflexivity.
Qed.

(** C1, on the code.  In a branch over a base image that holds [/foo] as
    inode 2, [daxfs_rename] of [/foo] to [/bar] returns 0 and files the
    RENAME entry in the dirent index under both names.  Name resolution
    takes no notice: [/foo] still resolves to inode 2 of the base image,
    and [/bar] does not resolve. *)
Theorem rename_is_not_resolved :
  @daxfs_rename sample_jhash sample_info 1 (bytes "foo") 1 (bytes "bar") 2 0
                1000 []
  = Some (0, sample_renamed, [])
  /\ @daxfs_delta_lookup_dirent sample_jhash (branch_of sample_renamed) 1
       (bytes "foo") 3 = Some 0
  /\ @daxfs_delta_lookup_dirent sample_jhash (branch_of sample_renamed) 1
       (bytes "bar") 3 = Some 0
  /\ @daxfs_lookup sample_jhash sample_info 1 (bytes "foo")
     = Some (NameFound 2)
  /\ @daxfs_lookup sample_jhash sample_renamed 1 (bytes "foo")
     = Some (NameFound 2)
  /\ @daxfs_lookup sample_jhash sample_renamed 1 (bytes "bar")
     = Some NameAbsent.
Proof.
  split; [vm_compute; reflexivity |]. split; [vm_compute; reflexivity |].
  split; [vm_compute; reflexivity |]. split; [vm_compute; reflexivity |].
  split; vm_compute; reflexivity.
Qed.

(** ** Overlapping writes *)

(** The scan of [daxfs_resolve_file_data] stops at the first WRITE entry
    of the inode that covers the position, whatever follows it in the
    log. *)
Lemma file_data_scan_first_match fuel b depth offset ino pos len e wr :
  offset < delta_size b ->
  delta_log b !! offset = Some e ->
  e_body e = BodyWrite wr ->
  u32 (hdr_type (e_hdr e)) = DAXFS_DELTA_WRITE ->
  u32 (hdr_total_size (e_hdr e)) <> 0 ->
  hdr_ino (e_hdr e) = ino ->
  wr_offset wr <= pos < u64 (wr_offset wr + wr_len wr) ->
  file_data_scan (S fuel) b depth offset ino pos len
  = Some (Some (PtrDelta depth offset (pos - wr_offset wr),
                Z.min len (u64 (wr_len wr - (pos - wr_offset wr))))).
Proof.
  intros Hoff Hlog Hbody Hty Hts Hino Hcover. simpl.
  destruct (Z.ltb_spec offset (delta_size b)); [| lia].
  unfold hdr_at. rewrite Hlog. simpl. rewrite Hbody, Hty, Hino.
  destruct (Z.eqb_spec (u32 (hdr_total_size (e_hdr e))) 0); [done |].
  rewrite !Z.eqb_refl. simpl.
  destruct (Z.leb_spec (wr_offset wr) pos); [| lia].
  destruct (Z.ltb_spec pos (u64 (wr_offset wr + wr_len wr))); [| lia].
  reflexivity.
Qed.

(** C2, on the code.  A file created in the branch, "AAAA" written at
    offset 0 and then "BB" at offset 2: both writes return their length,
    the log holds both records, and a read of 4 bytes at offset 0 returns
    "AAAA".  At position 2, covered by both records, the data resolved is
    that of the record at the smaller log offset (53, the first write),
    not of the one appended last (97). *)
Theorem overlapping_writes_read_oldest :
  daxfs_write_iter sample_created sample_file 0 (bytes "AAAA") 4 1000 []
  = Some (4, sample_written.1, sample_written.2, 4, [])
  /\ daxfs_write_iter sample_written.1 sample_written.2 2 (bytes "BB") 2
                      1001 []
     = Some (2, sample_overlap.1, sample_overlap.2, 4, [])
  /\ hdr_type (hdr_at (delta_log (branch_of sample_overlap.1)) 53)
     = DAXFS_DELTA_WRITE
  /\ hdr_type (hdr_at (delta_log (branch_of sample_overlap.1)) 97)
     = DAXFS_DELTA_WRITE
  /\ daxfs_resolve_file_data sample_overlap.1 3 2 2
     = Some (Some (PtrDelta 0 53 2), 2)
  /\ load sample_overlap.1 (PtrDelta 0 53 2) 2 = bytes "AA"
  /\ daxfs_read_iter sample_overlap.1 sample_overlap.2 0 4 4
     = Some (4, 4, bytes "AAAA").
Proof.
  split; [vm_compute; reflexivity |]. split; [vm_compute; reflexivity |].
  split; [vm_compute; reflexivity |]. split; [vm_compute; reflexivity |].
  split; [vm_compute; reflexivity |]. split; vm_compute; reflexivity.
Qed.

(** The same early return seen from the round trip: with "AAAA" at
    offset 0 already in the branch's log, a write of "BB" at offset 0
    returns 2, and the read of 2 bytes at offset 0 that follows returns
    "AA". *)
Lemma write_then_read_returns_older_data :
  daxfs_write_iter sample_written.1 sample_written.2 0 (bytes "BB") 2 1001 []
  = Some (2, sample_rewritten.1, sample_rewritten.2, 2, [])
  /\ daxfs_read_iter sample_rewritten.1 sample_rewritten.2 0 2 2
     = Some (2, 2, bytes "AA")
  /\ bytes "AA" <> bytes "BB".
Proof.
  split; [vm_compute; reflexivity |]. split; [vm_compute; reflexivity |].
  vm_compute. discriminate.
Qed.

(** ** The indexed size *)

Lemma index_add_inode_at_sets_size t ino hdr d sz m o e :
  inode_index_walk t ino = Some e ->
  sz <> U64_MAX ->
  exists t' e',
    index_add_inode_at t ino hdr d sz m o = (0, t', o)
    /\ inode_index_walk t' ino = Some e'
    /\ ie_size e' = sz.
Proof.
  intros Hwalk Hsz. induction t as [| l IHl e0 r IHr]; simpl in *; [done |].
  destruct (ino <? ie_ino e0) eqn:E1.
  { destruct (IHl Hwalk) as (t' & e' & -> & Hw & Hs).
    eexists _, e'. split; [reflexivity |]. simpl. by rewrite E1. }
  destruct (ie_ino e0 <? ino) eqn:E2.
  { destruct (IHr Hwalk) as (t' & e' & -> & Hw & Hs).
    eexists _, e'. split; [reflexivity |]. simpl. by rewrite E1, E2. }
  eexists _, _. split; [reflexivity |]. simpl. rewrite E1, E2.
  split; [reflexivity |]. simpl.
  destruct (Z.eqb_spec sz U64_MAX); [done | reflexivity].
Qed.

(** C6, on the code.  After "AAAA" at offset 0 and "BB" at offset 0 the
    write path has the indexed size of the file at 4 = max(4, 0 + 2).
    Rebuilding the indices of the same log ([daxfs_delta_build_index]
    after the indices were freed) leaves the size at 2, the end of the
    last WRITE record; appending a WRITE record {offset 0, len 2} with
    [daxfs_delta_append] to the branch that has the size at 4 brings it
    to 2 as well. *)
Theorem rebuilt_write_shrinks_size :
  daxfs_delta_get_size (branch_of sample_rewritten.1) 3 = inl 4
  /\ (exists b',
        @daxfs_delta_build_index sample_jhash
          (drop_indices (branch_of sample_rewritten.1)) []
        = Some (0, b', [])
        /\ daxfs_delta_get_size b' 3 = inl 2)
  /\ daxfs_delta_get_size (branch_of sample_written.1) 3 = inl 4
  /\ (let '(ret, b', _) :=
        @daxfs_delta_append sample_jhash (branch_of sample_written.1)
          DAXFS_DELTA_WRITE 3 (BodyWrite (mk_write 0 2 0)) (bytes "BB")
          1001 [] in
      ret = 0 /\ daxfs_delta_get_size b' 3 = inl 2).
Proof.
  split; [vm_compute; reflexivity |]. split.
  - eexists. split; [vm_compute; reflexivity |]. vm_compute. reflexivity.
  - split; [vm_compute; reflexivity |].
    vm_compute. split; reflexivity.
Qed.

(** The write path keeps the larger of the indexed size and the end of
    the write. *)
Lemma write_iter_index_max t inode hdr end_ o e :
  inode_index_walk t (i_ino inode) = Some e ->
  exists t' e',
    write_iter_index t inode hdr end_ o = (t', o)
    /\ inode_index_walk t' (i_ino inode) = Some e'
    /\ ie_size e' = Z.max (ie_size e) end_.
Proof.
  intros Hwalk. induction t as [| l IHl e0 r IHr]; simpl in *; [done |].
  destruct (i_ino inode <? ie_ino e0) eqn:E1.
  { destruct (IHl Hwalk) as (t' & e' & -> & Hw & Hs).
    eexists _, e'. split; [reflexivity |]. simpl. by rewrite E1. }
  destruct (ie_ino e0 <? i_ino inode) eqn:E2.
  { destruct (IHr Hwalk) as (t' & e' & -> & Hw & Hs).
    eexists _, e'. split; [reflexivity |]. simpl. by rewrite E1, E2. }
  injection Hwalk as <-.
  eexists _, _. split; [reflexivity |]. simpl. rewrite E1, E2.
  split; [reflexivity |]. simpl.
  destruct (Z.ltb_spec (ie_size e0) end_); lia.
Qed.

(** ** Failed allocations of index nodes *)

(** [daxfs_delta_append] returns 0 or -ENOSPC and nothing else, whatever
    the allocations of the index nodes do. *)
Lemma daxfs_delta_append_returns `{Jhash} b type ino body payload now o :
  (daxfs_delta_append b type ino body payload now o).1.1 = 0
  \/ (daxfs_delta_append b type ino body payload now o).1.1 = - ENOSPC.
Proof.
  unfold daxfs_delta_append.
  destruct (daxfs_delta_alloc b _) as [[entry |] b1]; [| by right].
  destruct (index_delta_entry _ _ _ _ _ _ _). by left.
Qed.

Lemma index_add_inode_at_nomem t ino hdr d sz m o :
  inode_index_walk t ino = None ->
  index_add_inode_at t ino hdr d sz m (false :: o) = (- ENOMEM, t, o).
Proof.
  induction t as [| l IHl e r IHr]; simpl; [done |].
  destruct (ino <? ie_ino e); [intros Hw; by rewrite IHl |].
  destruct (ie_ino e <? ino); [intros Hw; by rewrite IHr | done].
Qed.

Lemma index_add_dirent_at_nomem `{Jhash} t p n nl hdr d o :
  dirent_index_walk t (dirent_key p (dirent_hash p n nl)) n nl = None ->
  index_add_dirent_at t p n nl hdr d (false :: o) = (- ENOMEM, t, o)
  /\ index_add_dirent_at t p n nl hdr d (true :: false :: o)
     = (- ENOMEM, t, o).
Proof.
  induction t as [| l IHl e r IHr]; simpl; [done |].
  destruct (_ <? dirent_key (de_parent_ino e) (de_name_hash e)).
  { intros Hw. destruct (IHl Hw) as [-> ->]. done. }
  destruct (dirent_key (de_parent_ino e) (de_name_hash e) <? _).
  { intros Hw. destruct (IHr Hw) as [-> ->]. done. }
  destruct (same_name n nl e); [done |].
  intros Hw. destruct (IHr Hw) as [-> ->]. done.
Qed.

Lemma write_iter_index_nomem t inode hdr end_ o :
  inode_index_walk t (i_ino inode) = None ->
  write_iter_index t inode hdr end_ (false :: o) = (t, o).
Proof.
  induction t as [| l IHl e r IHr]; simpl; [done |].
  destruct (i_ino inode <? ie_ino e); [intros Hw; by rewrite IHl |].
  destruct (ie_ino e <? i_ino inode); [intros Hw; by rewrite IHr | done].
Qed.


(** ** Write, then read *)

Lemma packed_insert_end log offset es end_ e :
  packed log offset es end_ ->
  packed (<[end_ := e]> log) offset es end_.
Proof.
  induction 1 as [offset | offset e0 es end_ Hlook Hsz Hp IH];
    [constructor |].
  econstructor; [| done | exact IH].
  rewrite lookup_insert_ne; [done |]. apply packed_le in Hp. lia.
Qed.

(** The scan walks past the entries that do not cover the position and
    stops at the first one that does. *)
Lemma file_data_scan_packed b depth ino pos len e wr :
  forall offset es end_ fuel,
  packed (delta_log b) offset es end_ ->
  Forall (fun e0 => covers e0 ino pos = false) es ->
  0 <= offset ->
  end_ < delta_size b ->
  delta_size b <= 2 ^ 64 - 2 ^ 32 ->
  (Z.to_nat (delta_size b - offset) <= fuel)%nat ->
  delta_log b !! end_ = Some e ->
  e_body e = BodyWrite wr ->
  u32 (hdr_type (e_hdr e)) = DAXFS_DELTA_WRITE ->
  u32 (hdr_total_size (e_hdr e)) <> 0 ->
  hdr_ino (e_hdr e) = ino ->
  wr_offset wr <= pos < u64 (wr_offset wr + wr_len wr) ->
  file_data_scan fuel b depth offset ino pos len
  = Some (Some (PtrDelta depth end_ (pos - wr_offset wr),
                Z.min len (u64 (wr_len wr - (pos - wr_offset wr))))).
Proof.
  intros offset es end_ fuel Hp. revert fuel.
  induction Hp as [offset | offset e0 es end_ Hlook Hsz Hp IH];
    intros fuel Hcov Hoff Hend Hbound Hfuel Hlog Hbody Hty Hts Hino Hrange.
  - destruct fuel as [| fuel]; [lia |].
    by apply file_data_scan_first_match with (e := e).
  - apply Forall_cons in Hcov as [Hcov0 Hcov].
    pose proof (packed_le _ _ _ _ Hp) as Hle.
    destruct fuel as [| fuel]; [lia |].
    assert (Hnext : file_data_scan fuel b depth
                      (offset + entry_total_size e0) ino pos len
                    = Some (Some (PtrDelta depth end_ (pos - wr_offset wr),
                                  Z.min len (u64 (wr_len wr
                                                  - (pos - wr_offset wr))))))
      by (apply IH; try done; lia).
    simpl. destruct (Z.ltb_spec offset (delta_size b)); [| lia].
    unfold hdr_at. rewrite Hlook. simpl. fold (entry_total_size e0).
    rewrite (u32_small (entry_total_size e0)) by lia.
    destruct (Z.eqb_spec (entry_total_size e0) 0); [lia |].
    rewrite (u64_small (offset + entry_total_size e0)) by lia.
    rewrite Hnext. unfold covers in Hcov0.
    destruct (u32 (hdr_type (e_hdr e0)) =? DAXFS_DELTA_WRITE); [| done].
    destruct (hdr_ino (e_hdr e0) =? ino); [| done].
    simpl in *. destruct (e_body e0); try done. by rewrite Hcov0.
Qed.

Lemma resolve_file_data_delta_hit b depth ino pos len r :
  file_data_scan (Z.to_nat (delta_size b)) b depth 0 ino pos len
  = Some (Some r) ->
  resolve_file_data_delta b depth ino pos len = Some (Some r).
Proof.
  destruct b as [log sz cap dax ii di [p |]]; simpl; by intros ->.
Qed.

Lemma bytes_at_all (data : list byte) :
  bytes_at data 0 (Z.of_nat (length data)) = data.
Proof.
  unfold bytes_at. change (Z.to_nat 0) with 0%nat. rewrite drop_0.
  rewrite Nat2Z.id. apply firstn_all.
Qed.


(** ** The properties at the sample runs *)

Ltac by_computation := vm_compute; try reflexivity; try discriminate.

(** The out-of-space returns, at the sample filesystem: a region request
    of 100000 bytes does not fit, one of 4096 does; a 16-byte branch takes
    neither a TRUNCATE record nor a one-byte write. *)
Lemma alloc_failure_leaves_state_witness :
  daxfs_mem_alloc_region sample_info 100000 = (0, sample_info)
  /\ (exists info',
        daxfs_mem_alloc_region sample_info 4096 = (12288, info')
        /\ delta_alloc_offset info' = 16384
        /\ sb_delta_alloc_offset (super info') = 16384)
  /\ daxfs_delta_alloc (fresh_branch 16 None) 32
     = (None, fresh_branch 16 None)
  /\ @daxfs_delta_append sample_jhash (fresh_branch 16 None)
       DAXFS_DELTA_TRUNCATE 2 (BodyTruncate (mk_truncate 5)) [] 1000 []
     = (- ENOSPC, fresh_branch 16 None, [])
  /\ daxfs_write_iter
       (set_current_branch sample_info (Some (fresh_branch 16 None)))
       sample_base_file 0 (bytes "X") 1 1000 []
     = Some (- ENOSPC,
             set_current_branch sample_info (Some (fresh_branch 16 None)),
             sample_base_file, 0, []).
Proof.
  pose proof (@alloc_failure_leaves_state sample_jhash sample_info 100000
                (fresh_branch 16 None) DAXFS_DELTA_TRUNCATE 2 1000
                (BodyTruncate (mk_truncate 5)) [] [] sample_base_file 0
                (bytes "X") 1) as (Hfail & _ & Halloc & Happend & _).
  pose proof (@alloc_failure_leaves_state sample_jhash sample_info 4096
                (fresh_branch 16 None) DAXFS_DELTA_TRUNCATE 2 1000
                (BodyTruncate (mk_truncate 5)) [] [] sample_base_file 0
                (bytes "X") 1) as (_ & Hfits & _).
  pose proof (@alloc_failure_leaves_state sample_jhash
                (set_current_branch sample_info (Some (fresh_branch 16 None)))
                0 (fresh_branch 16 None) DAXFS_DELTA_TRUNCATE 2 1000
                (BodyTruncate (mk_truncate 5)) [] [] sample_base_file 0
                (bytes "X") 1) as (_ & _ & _ & _ & Hwrite).
  split; [apply Hfail; by_computation |].
  split; [apply Hfits; by_computation |].
  split; [apply Halloc; by_computation |].
  split; [apply Happend; by_computation |].
  apply Hwrite; by_computation.
Defined.

(** The sample operations, run from the fresh child branch. *)
Lemma log_size_is_sum_of_records_witness :
  exists b' es,
    current_branch (default sample_info (@run_ops sample_jhash sample_info
                                           sample_ops)) = Some b'
    /\ log_records (Z.to_nat (delta_size b')) (delta_log b')
                   (delta_size b') 0 = Some es
    /\ entry_total_size <$> es = omap op_record_size sample_ops
    /\ sum_total_size es = delta_size b'
    /\ on_dax_delta_log_size b' = delta_size b'
    /\ delta_size b' <= delta_capacity b'.
Proof.
  apply (@log_size_is_sum_of_records sample_jhash sample_info
           (default sample_info (@run_ops sample_jhash sample_info sample_ops))
           (fresh_branch 4096 (Some (fresh_branch 4096 None))) sample_ops).
  - reflexivity.
  - reflexivity.
  - reflexivity.
  - split; by_computation.
  - unfold sample_ops.
    repeat (apply Forall_cons_2 || apply Forall_nil_2);
      intros n Hn; vm_compute in Hn;
      try discriminate Hn; injection Hn as <-; reflexivity.
  - by_computation.
Defined.


(** Inode 2 of the base image in the child branch that has created
    [/a.txt]: the branch has an entry for inode 3 only. *)
Lemma untouched_inode_not_deleted_witness :
  daxfs_delta_is_deleted (branch_of sample_created) 2 = false
  /\ deleted_in_chain (branch_of sample_created) 2 = false
  /\ daxfs_resolve_inode sample_created 2 = Some (InodeAttr 33188 4)
  /\ @daxfs_delta_build_index sample_jhash sample_unindexed []
     = Some (0, sample_indexed, [])
  /\ daxfs_delta_get_size sample_indexed 3 = inl 4
  /\ daxfs_delta_is_deleted sample_indexed 2 = false.
Proof.
  assert (Hno : forall b, rb_inos (inode_index b) = [3] \/ rb_inos (inode_index b) = [] ->
                          ~ has_inode_entry b 2).
  { intros b Hinos. rewrite has_inode_entry_inos.
    destruct Hinos as [-> | ->].
    - rewrite list_elem_of_singleton. discriminate.
    - apply not_elem_of_nil. }
  pose proof (@untouched_inode_not_deleted sample_jhash sample_created
                (branch_of sample_created) 2) as (Hone & Hchain & _).
  pose proof (@untouched_inode_not_deleted sample_jhash sample_created
                sample_unindexed 2) as (_ & _ & Hbuild).
  split; [apply Hone, Hno; left; by_computation |].
  destruct Hchain as (Hdel & Hres & _).
  { by_computation. }
  { assert (Hchain : branch_chain (branch_of sample_created)
                     = [branch_of sample_created; fresh_branch 4096 None])
      by by_computation.
    rewrite Hchain.
    repeat (apply Forall_cons_2 || apply Forall_nil_2); apply Hno;
      [left | right]; by_computation. }
  split; [exact Hdel |]. split; [rewrite Hres; by_computation |].
  split; [by_computation |]. split; [by_computation |].
  apply (Hbuild [] 0 sample_indexed []); [reflexivity | | by_computation].
  intros offset e Hlook. unfold sample_unindexed in Hlook. simpl in Hlook.
  apply lookup_singleton_Some in Hlook as [_ <-].
  discriminate.
Defined.

(** C4 as stated does not hold: a TRUNCATE of [/a.txt] appended to the
    sample branch.  After the first statement of the append a reader sees
    the final size, 85, while the slot at offset 53 still reads zero and
    the inode index still points at the CREATE record. *)
Lemma size_is_published_before_the_record :
  ~ @published_last sample_jhash (branch_of sample_created, [])
      sample_truncate_steps 53.
Proof.
  intros Hpub. specialize (Hpub 1%nat). vm_compute in Hpub.
  destruct (Hpub eq_refl) as [Hlog _]. discriminate Hlog.
Qed.

(** The same TRUNCATE, and a write of "BB" at offset 0, in the order the
    code runs them. *)
Lemma append_bumps_size_first_witness :
  run_steps (H := sample_jhash) (branch_of sample_created, [])
            (take 1 sample_truncate_steps)
  = (set_delta_size (branch_of sample_created)
       (u64 (delta_size (branch_of sample_created)
             + u64 (sizeof_hdr
                    + (sizeof_body (BodyTruncate (mk_truncate 2))
                       + Z.of_nat (length (@nil byte)))))), [])
  /\ run_steps (H := sample_jhash) (branch_of sample_created, [])
               (take 1 (daxfs_write_iter_steps (branch_of sample_created)
                          sample_file 0 (bytes "BB") 1001))
     = (set_delta_size (branch_of sample_created)
          (u64 (delta_size (branch_of sample_created)
                + u64 (sizeof_hdr + 16 + Z.of_nat (length (bytes "BB"))))),
        []).
Proof.
  pose proof (@append_bumps_size_first sample_jhash (branch_of sample_created)
                DAXFS_DELTA_TRUNCATE 3 1002 (BodyTruncate (mk_truncate 2)) []
                [] sample_file 0 (bytes "BB")) as [Happend _].
  pose proof (@append_bumps_size_first sample_jhash (branch_of sample_created)
                DAXFS_DELTA_TRUNCATE 3 1001 (BodyTruncate (mk_truncate 2)) []
                [] sample_file 0 (bytes "BB")) as [_ Hwrite].
  destruct Happend as (e & b' & o' & _ & Hfirst & _ & _); [by_computation |].
  destruct Hwrite as (e' & _ & Hfirst' & _); [by_computation |].
  split; [exact Hfirst | exact Hfirst'].
Defined.





(** * Further properties of the code

    What follows covers the parts of the delta log, the resolver and the
    handlers that the properties above leave aside. *)

(** ** Insert into an index, then look up *)

Lemma index_add_inode_at_walk t ino hdr d sz m o ret t' o' :
  index_add_inode_at t ino hdr d sz m o = (ret, t', o') ->
  (ret = 0
   /\ exists e,
        inode_index_walk t' ino = Some e
        /\ ie_hdr e = hdr /\ ie_deleted e = d
        /\ ie_size e
           = (if sz =? U64_MAX
              then from_option ie_size 0 (inode_index_walk t ino) else sz)
        /\ ie_mode e
           = (if m =? U32_MAX
              then from_option ie_mode 0 (inode_index_walk t ino) else m))
  \/ (ret = - ENOMEM /\ t' = t /\ inode_index_walk t ino = None).
Proof.
  revert ret t' o'.
  induction t as [|l IHl entry r IHr]; intros ret t' o' E; simpl in E.
  - destruct (kzalloc o) as [[] o1]; inversion E; subst; clear E.
    + left. split; [reflexivity|]. simpl.
      rewrite !Z.ltb_irrefl. eexists. split; [reflexivity|]. simpl. auto.
    + right. auto.
  - simpl. destruct (ino <? ie_ino entry) eqn:E1.
    + destruct (index_add_inode_at l ino hdr d sz m o) as [[ret1 l1] o1] eqn:El.
      inversion E; subst; clear E.
      destruct (IHl _ _ _ eq_refl) as [[? He]|(? & ? & ?)].
      * left. split; [assumption|]. simpl. rewrite E1. exact He.
      * right. subst. simpl. auto.
    + destruct (ie_ino entry <? ino) eqn:E2.
      * destruct (index_add_inode_at r ino hdr d sz m o) as [[ret1 r1] o1] eqn:Er.
        inversion E; subst; clear E.
        destruct (IHr _ _ _ eq_refl) as [[? He]|(? & ? & ?)].
        -- left. split; [assumption|]. simpl. rewrite E1, E2. exact He.
        -- right. subst. auto.
      * inversion E; subst; clear E. left. split; [reflexivity|].
        simpl. rewrite E1, E2. eexists. split; [reflexivity|]. simpl. auto.
Qed.

Lemma index_add_inode_at_walk_other t ino hdr d sz m o ret t' o' ino' :
  index_add_inode_at t ino hdr d sz m o = (ret, t', o') ->
  ino' <> ino ->
  inode_index_walk t' ino' = inode_index_walk t ino'.
Proof.
  intros E Hne. revert ret t' o' E.
  induction t as [|l IHl entry r IHr]; intros ret t' o' E; simpl in E.
  - destruct (kzalloc o) as [[] o1]; inversion E; subst; clear E;
      [|reflexivity].
    simpl. destruct (ino' <? ino) eqn:E1; [reflexivity|].
    destruct (ino <? ino') eqn:E2; [reflexivity|]. lia.
  - destruct (ino <? ie_ino entry) eqn:E1.
    + destruct (index_add_inode_at l ino hdr d sz m o) as [[ret1 l1] o1] eqn:El.
      inversion E; subst; clear E. simpl.
      rewrite (IHl _ _ _ eq_refl). reflexivity.
    + destruct (ie_ino entry <? ino) eqn:E2.
      * destruct (index_add_inode_at r ino hdr d sz m o) as [[ret1 r1] o1] eqn:Er.
        inversion E; subst; clear E. simpl.
        rewrite (IHr _ _ _ eq_refl). reflexivity.
      * inversion E; subst; clear E. simpl.
        destruct (ino' <? ie_ino entry) eqn:E3; [reflexivity|].
        destruct (ie_ino entry <? ino') eqn:E4; [reflexivity|]. lia.
Qed.

Lemma set_inode_index_same b : set_inode_index b (inode_index b) = b.
Proof. destruct b; reflexivity. Qed.

Lemma set_dirent_index_same b : set_dirent_index b (dirent_index b) = b.
Proof. destruct b; reflexivity. Qed.

(** X1.  [index_add_inode] either returns 0, and then
    [daxfs_delta_lookup_inode] returns the header pointer just stored,
    [daxfs_delta_is_deleted] the flag just stored and
    [daxfs_delta_get_size] the size just stored (the size the entry had,
    or 0 for a new entry, when the call passes [(u64)-1]); or it returns
    [-ENOMEM], and then the inode had no entry and the branch is as it
    was. *)
Theorem index_add_inode_then_lookup (b b' : daxfs_branch_ctx) (ino hdr : Z)
    (deleted : bool) (sz mode ret : Z) (o o' : alloc_oracle) :
  index_add_inode b ino hdr deleted sz mode o = (ret, b', o') ->
  (ret = 0
   /\ daxfs_delta_lookup_inode b' ino = Some hdr
   /\ daxfs_delta_is_deleted b' ino = deleted
   /\ daxfs_delta_get_size b' ino
      = inl (if sz =? U64_MAX
             then match daxfs_delta_get_size b ino with
                  | inl old => old
                  | inr _ => 0
                  end
             else sz))
  \/ (ret = - ENOMEM /\ b' = b /\ daxfs_delta_lookup_inode b ino = None).
Proof.
  unfold index_add_inode, daxfs_delta_lookup_inode, daxfs_delta_is_deleted,
    daxfs_delta_get_size.
  destruct (index_add_inode_at (inode_index b) ino hdr deleted sz mode o)
    as [[ret1 t1] o1] eqn:E.
  intros E'; inversion E'; subst; clear E'.
  destruct (index_add_inode_at_walk _ _ _ _ _ _ _ _ _ _ E)
    as [[-> (e & Hw & Hh & Hd & Hs & _)]|(-> & -> & Hn)].
  - left. split; [reflexivity|].
    change (inode_index (set_inode_index b t1)) with t1.
    rewrite Hw. simpl. rewrite Hh, Hd, Hs.
    repeat split. destruct (inode_index_walk (inode_index b) ino); reflexivity.
  - right. rewrite set_inode_index_same, Hn. auto.
Qed.

(** X2.  [index_add_inode] for one inode changes nothing in what the
    three lookups answer for any other inode, whatever it returns. *)
Theorem index_add_inode_keeps_others (b b' : daxfs_branch_ctx) (ino hdr : Z)
    (deleted : bool) (sz mode ret : Z) (o o' : alloc_oracle) (ino' : Z) :
  index_add_inode b ino hdr deleted sz mode o = (ret, b', o') ->
  ino' <> ino ->
  daxfs_delta_lookup_inode b' ino' = daxfs_delta_lookup_inode b ino'
  /\ daxfs_delta_is_deleted b' ino' = daxfs_delta_is_deleted b ino'
  /\ daxfs_delta_get_size b' ino' = daxfs_delta_get_size b ino'.
Proof.
  unfold index_add_inode, daxfs_delta_lookup_inode, daxfs_delta_is_deleted,
    daxfs_delta_get_size.
  destruct (index_add_inode_at (inode_index b) ino hdr deleted sz mode o)
    as [[ret1 t1] o1] eqn:E.
  intros E' Hne; inversion E'; subst; clear E'.
  change (inode_index (set_inode_index b t1)) with t1.
  rewrite (index_add_inode_at_walk_other _ _ _ _ _ _ _ _ _ _ _ E Hne).
  auto.
Qed.

Lemma dirent_hash_range `{Jhash} p name len :
  0 <= dirent_hash p name len < 2 ^ 32.
Proof. unfold dirent_hash. apply u32_range. Qed.

(** The key splits back into the low half of the parent inode number
    and the hash. *)
Lemma dirent_key_split p h :
  0 <= h < 2 ^ 32 ->
  Z.shiftr (dirent_key p h) 32 = p mod 2 ^ 32
  /\ Z.land (dirent_key p h) (Z.ones 32) = h.
Proof.
  intros Hh. unfold dirent_key, u64.
  rewrite Z.shiftl_mul_pow2 by lia.
  change (2 ^ 64) with (2 ^ 32 * 2 ^ 32).
  rewrite Z.mul_mod_distr_r by lia.
  split.
  - rewrite Z.shiftr_lor, !Z.shiftr_div_pow2 by lia.
    rewrite Z.div_mul by lia. rewrite (Z.div_small h) by lia.
    apply Z.lor_0_r.
  - rewrite Z.land_lor_distr_l, !Z.land_ones by lia.
    rewrite Z.mod_mul by lia. rewrite Z.mod_small by lia.
    apply Z.lor_0_l.
Qed.

Lemma u32_lxor a b : u32 (Z.lxor a b) = Z.lxor (u32 a) (u32 b).
Proof.
  unfold u32. rewrite <- !Z.land_ones by lia.
  apply Z.bits_inj'. intros n Hn.
  rewrite !Z.land_spec, !Z.lxor_spec, !Z.land_spec.
  destruct (Z.testbit a n), (Z.testbit b n), (Z.testbit (Z.ones 32) n);
    reflexivity.
Qed.

Lemma lxor_cancel_l a x y : Z.lxor a x = Z.lxor a y -> x = y.
Proof.
  intros E.
  rewrite <- (Z.lxor_0_l x), <- (Z.lxor_0_l y), <- (Z.lxor_nilpotent a).
  rewrite !Z.lxor_assoc. rewrite E. reflexivity.
Qed.

(** Two directories never share a key for one name. *)
Lemma dirent_key_parent `{Jhash} p p' name len :
  0 <= p < 2 ^ 64 -> 0 <= p' < 2 ^ 64 ->
  dirent_key p (dirent_hash p name len)
  = dirent_key p' (dirent_hash p' name len) ->
  p = p'.
Proof.
  intros Hp Hp' E.
  destruct (dirent_key_split p _ (dirent_hash_range p name len)) as [Hhi Hlo].
  destruct (dirent_key_split p' _ (dirent_hash_range p' name len))
    as [Hhi' Hlo'].
  rewrite E in Hhi, Hlo.
  assert (Elow : p mod 2 ^ 32 = p' mod 2 ^ 32) by congruence.
  assert (Ehash : dirent_hash p name len = dirent_hash p' name len)
    by congruence.
  assert (Eu : u32 p = u32 p') by exact Elow.
  unfold dirent_hash in Ehash. rewrite Eu, !u32_lxor in Ehash.
  apply lxor_cancel_l in Ehash.
  unfold u32 in Ehash. rewrite !Z.shiftr_div_pow2 in Ehash by lia.
  assert (0 <= p / 2 ^ 32 < 2 ^ 32).
  { split; [apply Z.div_pos; lia|apply Z.div_lt_upper_bound; lia]. }
  assert (0 <= p' / 2 ^ 32 < 2 ^ 32).
  { split; [apply Z.div_pos; lia|apply Z.div_lt_upper_bound; lia]. }
  rewrite !Z.mod_small in Ehash by assumption.
  rewrite (Z.div_mod p (2 ^ 32)), (Z.div_mod p' (2 ^ 32)) by lia.
  congruence.
Qed.

Lemma index_add_dirent_at_walk `{Jhash} t p name len hdr d o ret t' o' :
  index_add_dirent_at t p name len hdr d o = (ret, t', o') ->
  let key := dirent_key p (dirent_hash p name len) in
  (ret = 0
   /\ exists e,
        dirent_index_walk t' key name len = Some e
        /\ de_hdr e = hdr /\ de_deleted e = d)
  \/ (ret = - ENOMEM /\ t' = t /\ dirent_index_walk t key name len = None).
Proof.
  intros E key. revert ret t' o' E.
  induction t as [|l IHl entry r IHr]; intros ret t' o' E; simpl in E.
  - destruct (kzalloc o) as [[] o1]; [destruct (kzalloc o1) as [[] o2]|];
      inversion E; subst; clear E; [|right; auto|right; auto].
    left. split; [reflexivity|]. simpl. fold key.
    rewrite Z.ltb_irrefl.
    assert (Hs : same_name name len
                   (mk_dirent_entry p (dirent_hash p name len)
                      (bytes_at name 0 len) len hdr d) = true).
    { unfold same_name. simpl. rewrite Z.eqb_refl. simpl.
      apply bool_decide_eq_true. symmetry. apply bytes_at_prefix. }
    rewrite Hs. eexists. split; [reflexivity|]. simpl. auto.
  - fold key in E. simpl. 
    destruct (key <? dirent_key (de_parent_ino entry) (de_name_hash entry))
      eqn:E1.
    + destruct (index_add_dirent_at l p name len hdr d o)
        as [[ret1 l1] o1] eqn:El.
      inversion E; subst; clear E.
      destruct (IHl _ _ _ eq_refl) as [[? He]|(? & ? & ?)].
      * left. split; [assumption|]. simpl. rewrite E1. exact He.
      * right. subst. auto.
    + destruct (dirent_key (de_parent_ino entry) (de_name_hash entry) <? key)
        eqn:E2.
      * destruct (index_add_dirent_at r p name len hdr d o)
          as [[ret1 r1] o1] eqn:Er.
        inversion E; subst; clear E.
        destruct (IHr _ _ _ eq_refl) as [[? He]|(? & ? & ?)].
        -- left. split; [assumption|]. simpl. rewrite E1, E2. exact He.
        -- right. subst. auto.
      * destruct (same_name name len entry) eqn:E3.
        -- inversion E; subst; clear E. left. split; [reflexivity|].
           simpl. rewrite E1, E2.
           assert (Hs : same_name name len
                     (mk_dirent_entry (de_parent_ino entry)
                        (de_name_hash entry) (de_name entry)
                        (de_name_len entry) hdr d) = true) by exact E3.
           rewrite Hs. eexists. split; [reflexivity|]. simpl. auto.
        -- destruct (index_add_dirent_at r p name len hdr d o)
             as [[ret1 r1] o1] eqn:Er.
           inversion E; subst; clear E.
           destruct (IHr _ _ _ eq_refl) as [[? He]|(? & ? & ?)].
           ++ left. split; [assumption|]. simpl. rewrite E1, E2, E3. exact He.
           ++ right. subst. auto.
Qed.

Lemma other_dirent_apart `{Jhash} p name len p' name' len'
    (e : daxfs_delta_dirent_entry) :
  other_dirent p name len p' name' len' ->
  dirent_key p' (dirent_hash p' name' len')
  = dirent_key p (dirent_hash p name len) ->
  len = de_name_len e ->
  bytes_at name 0 len = bytes_at (de_name e) 0 len ->
  same_name name' len' e = false.
Proof.
  intros Ho Ek El En. unfold same_name.
  destruct (len' =? de_name_len e) eqn:E1; [|reflexivity]. simpl.
  apply Z.eqb_eq in E1.
  apply bool_decide_eq_false. intros E2.
  assert (Hl : len' = len) by congruence.
  clear E1. subst len'.
  destruct Ho as [Ho|[Ho|(-> & Hp & Hr & Hr')]].
  - auto.
  - apply Ho. congruence.
  - apply Hp. apply (dirent_key_parent p' p name len Hr' Hr Ek).
Qed.

Lemma index_add_dirent_at_walk_other `{Jhash} t p name len hdr d o ret t' o'
    p' name' len' :
  index_add_dirent_at t p name len hdr d o = (ret, t', o') ->
  other_dirent p name len p' name' len' ->
  let key' := dirent_key p' (dirent_hash p' name' len') in
  dirent_index_walk t' key' name' len' = dirent_index_walk t key' name' len'.
Proof.
  intros E Ho key'. revert ret t' o' E.
  set (key := dirent_key p (dirent_hash p name len)).
  induction t as [|l IHl entry r IHr]; intros ret t' o' E; simpl in E.
  - destruct (kzalloc o) as [[] o1]; [destruct (kzalloc o1) as [[] o2]|];
      inversion E; subst; clear E; try reflexivity.
    simpl. fold key.
    destruct (key' <? key) eqn:E1; [reflexivity|].
    destruct (key <? key') eqn:E2; [reflexivity|].
    rewrite (other_dirent_apart p name len p' name' len'); auto.
    + unfold key, key' in *. lia.
    + simpl. symmetry. apply bytes_at_prefix.
  - fold key in E.
    destruct (key <? dirent_key (de_parent_ino entry) (de_name_hash entry))
      eqn:E1.
    + destruct (index_add_dirent_at l p name len hdr d o)
        as [[ret1 l1] o1] eqn:El.
      inversion E; subst; clear E. simpl.
      rewrite (IHl _ _ _ eq_refl). reflexivity.
    + destruct (dirent_key (de_parent_ino entry) (de_name_hash entry) <? key)
        eqn:E2.
      * destruct (index_add_dirent_at r p name len hdr d o)
          as [[ret1 r1] o1] eqn:Er.
        inversion E; subst; clear E. simpl.
        rewrite (IHr _ _ _ eq_refl). reflexivity.
      * destruct (same_name name len entry) eqn:E3.
        -- inversion E; subst; clear E. simpl.
           destruct (key' <? dirent_key (de_parent_ino entry)
                                        (de_name_hash entry)) eqn:E4;
             [reflexivity|].
           destruct (dirent_key (de_parent_ino entry) (de_name_hash entry)
                     <? key') eqn:E5; [reflexivity|].
           unfold same_name in E3. apply andb_true_iff in E3 as [E3a E3b].
           apply Z.eqb_eq in E3a. apply bool_decide_eq_true in E3b.
           rewrite (other_dirent_apart p name len p' name' len' entry),
             (other_dirent_apart p name len p' name' len'
                (mk_dirent_entry _ _ _ _ _ _)); auto.
           ++ unfold key, key' in *. lia.
           ++ unfold key, key' in *. lia.
        -- destruct (index_add_dirent_at r p name len hdr d o)
             as [[ret1 r1] o1] eqn:Er.
           inversion E; subst; clear E. simpl.
           rewrite (IHr _ _ _ eq_refl). reflexivity.
Qed.

(** X3.  [index_add_dirent] either returns 0, and then
    [daxfs_delta_lookup_dirent] for the same directory and name returns
    the header pointer just stored; or it returns [-ENOMEM], and then the
    name had no entry and the branch is as it was. *)
Theorem index_add_dirent_then_lookup `{Jhash} (b b' : daxfs_branch_ctx)
    (parent_ino : Z) (name : list byte) (namelen hdr : Z) (deleted : bool)
    (ret : Z) (o o' : alloc_oracle) :
  index_add_dirent b parent_ino name namelen hdr deleted o = (ret, b', o') ->
  (ret = 0 /\ daxfs_delta_lookup_dirent b' parent_ino name namelen = Some hdr)
  \/ (ret = - ENOMEM /\ b' = b
      /\ daxfs_delta_lookup_dirent b parent_ino name namelen = None).
Proof.
  unfold index_add_dirent, daxfs_delta_lookup_dirent.
  destruct (index_add_dirent_at (dirent_index b) parent_ino name namelen hdr
              deleted o) as [[ret1 t1] o1] eqn:E.
  intros E'; inversion E'; subst; clear E'.
  destruct (index_add_dirent_at_walk _ _ _ _ _ _ _ _ _ _ E)
    as [[-> (e & Hw & Hh & Hd)]|(-> & -> & Hn)].
  - left. split; [reflexivity|].
    change (dirent_index (set_dirent_index b t1)) with t1.
    rewrite Hw. simpl. congruence.
  - right. rewrite set_dirent_index_same, Hn. auto.
Qed.


(** *** At the sample branch *)

Lemma index_add_inode_then_lookup_witness :
  index_add_inode (branch_of sample_created) 3 53 true U64_MAX U32_MAX []
  = (0, sample_tombstoned, [])
  /\ daxfs_delta_lookup_inode sample_tombstoned 3 = Some 53
  /\ daxfs_delta_is_deleted sample_tombstoned 3 = true
  /\ daxfs_delta_get_size sample_tombstoned 3 = inl 0.
Proof.
  assert (E : index_add_inode (branch_of sample_created) 3 53 true U64_MAX
                U32_MAX [] = (0, sample_tombstoned, [])) by by_computation.
  split; [exact E |].
  destruct (index_add_inode_then_lookup _ _ _ _ _ _ _ _ _ _ E)
    as [(_ & Hl & Hd & Hs) | (Hr & _)]; [| by_computation].
  split; [exact Hl |]. split; [exact Hd |]. rewrite Hs. by_computation.
Defined.

Lemma index_add_inode_keeps_others_witness :
  index_add_inode (branch_of sample_created) 3 53 true U64_MAX U32_MAX []
  = (0, sample_tombstoned, [])
  /\ 4 <> 3
  /\ daxfs_delta_lookup_inode sample_tombstoned 4
     = daxfs_delta_lookup_inode (branch_of sample_created) 4
  /\ daxfs_delta_is_deleted sample_tombstoned 4
     = daxfs_delta_is_deleted (branch_of sample_created) 4
  /\ daxfs_delta_get_size sample_tombstoned 4
     = daxfs_delta_get_size (branch_of sample_created) 4.
Proof.
  assert (E : index_add_inode (branch_of sample_created) 3 53 true U64_MAX
                U32_MAX [] = (0, sample_tombstoned, [])) by by_computation.
  assert (Hne : 4 <> 3) by lia.
  split; [exact E |]. split; [exact Hne |].
  exact (index_add_inode_keeps_others _ _ _ _ _ _ _ _ _ _ 4 E Hne).
Defined.

Lemma index_add_dirent_then_lookup_witness :
  @index_add_dirent sample_jhash (branch_of sample_created) 1
    (bytes "a.txt") 5 53 true [] = (0, sample_name_dropped, [])
  /\ @daxfs_delta_lookup_dirent sample_jhash sample_name_dropped 1
       (bytes "a.txt") 5 = Some 53.
Proof.
  assert (E : @index_add_dirent sample_jhash (branch_of sample_created) 1
                (bytes "a.txt") 5 53 true [] = (0, sample_name_dropped, []))
    by by_computation.
  split; [exact E |].
  destruct (@index_add_dirent_then_lookup sample_jhash _ _ _ _ _ _ _ _ _ _ E)
    as [(_ & Hl) | (Hr & _)]; [exact Hl | by_computation].
Defined.


(** ** What a directory handler leaves for the next lookup *)

Lemma daxfs_delta_append_ok `{Jhash} b type ino body payload now o b' o' :
  daxfs_delta_append b type ino body payload now o = (0, b', o') ->
  let total :=
    u64 (sizeof_hdr + (sizeof_body body + Z.of_nat (length payload))) in
  let e := appended_entry type ino body payload now in
  u64 (delta_size b + total) <= delta_capacity b
  /\ delta_log b' = <[delta_size b := e]> (delta_log b)
  /\ delta_size b' = u64 (delta_size b + total)
  /\ exists b2,
       delta_log b2 = delta_log b'
       /\ inode_index b2 = inode_index b
       /\ dirent_index b2 = dirent_index b
       /\ parent b2 = parent b
       /\ (b', o')
          = apply_requests b2
              (entry_requests type ino (delta_size b) body payload) o.
Proof.
  intros E total e. unfold daxfs_delta_append, daxfs_delta_alloc in E.
  fold total in E.
  destruct (delta_capacity b <? u64 (delta_size b + total)) eqn:Ecap.
  { inversion E. }
  apply Z.ltb_ge in Ecap. split; [exact Ecap |].
  rewrite index_delta_entry_requests in E.
  set (b2 := set_delta_log (set_delta_size b (u64 (delta_size b + total)))
               (<[delta_size b := e]> (delta_log b))).
  change (apply_requests _ _ o) with
    (apply_requests b2 (entry_requests type ino (delta_size b) body payload) o)
    in E.
  destruct (apply_requests b2 _ o) as [b3 o3] eqn:Ea.
  injection E as Eb Eo. subst b3 o3.
  pose proof (apply_requests_frame _ _ _ _ _ Ea) as Hf.
  split; [rewrite Hf; reflexivity |].
  split; [rewrite Hf; reflexivity |].
  exists b2. split; [rewrite Hf; reflexivity |].
  split; [reflexivity |]. split; [reflexivity |]. split; [reflexivity |].
  symmetry. exact Ea.
Qed.

Lemma index_add_inode_quiet b ino hdr d sz m :
  exists b',
    index_add_inode b ino hdr d sz m [] = (0, b', [])
    /\ daxfs_delta_is_deleted b' ino = d.
Proof.
  unfold index_add_inode, daxfs_delta_is_deleted.
  destruct (index_add_inode_at (inode_index b) ino hdr d sz m [])
    as [[ret t] o1] eqn:Et.
  pose proof Et as Eu. rewrite index_add_inode_at_upsert in Eu.
  injection Eu as <- _ <-.
  eexists. split; [reflexivity |].
  destruct (index_add_inode_at_walk _ _ _ _ _ _ _ _ _ _ Et)
    as [(_ & ie & Hw & _ & Hd & _) | (Hr & _)]; [| unfold ENOMEM in Hr; lia].
  change (inode_index (set_inode_index b t)) with t. rewrite Hw. exact Hd.
Qed.

Lemma index_add_dirent_quiet `{Jhash} b p name len hdr d :
  exists b',
    index_add_dirent b p name len hdr d [] = (0, b', [])
    /\ daxfs_delta_lookup_dirent b' p name len = Some hdr.
Proof.
  unfold index_add_dirent, daxfs_delta_lookup_dirent.
  destruct (index_add_dirent_at (dirent_index b) p name len hdr d [])
    as [[ret t] o1] eqn:Et.
  pose proof Et as Eu. rewrite index_add_dirent_at_upsert in Eu.
  injection Eu as <- _ <-.
  eexists. split; [reflexivity |].
  destruct (index_add_dirent_at_walk _ _ _ _ _ _ _ _ _ _ Et)
    as [(_ & e & Hw & Hh & _) | (Hr & _)]; [| unfold ENOMEM in Hr; lia].
  change (dirent_index (set_dirent_index b t)) with t. rewrite Hw.
  simpl. congruence.
Qed.

Lemma name_exists_delta_found `{Jhash} b p name len hdr e cr :
  daxfs_delta_lookup_dirent b p name len = Some hdr ->
  delta_log b !! hdr = Some e ->
  u32 (hdr_type (e_hdr e)) = DAXFS_DELTA_CREATE
  \/ u32 (hdr_type (e_hdr e)) = DAXFS_DELTA_MKDIR ->
  e_body e = BodyCreate cr ->
  name_exists_delta b p name len = Some (NameFound (cr_new_ino cr)).
Proof.
  intros Hl He Ht Hb.
  destruct b as [log sz cap dax ii di pa]; simpl in *.
  rewrite Hl. unfold hdr_at. rewrite He. simpl. rewrite Hb.
  destruct Ht as [-> | ->]; destruct pa; reflexivity.
Qed.

Lemma name_exists_delta_deleted `{Jhash} b p name len hdr e :
  daxfs_delta_lookup_dirent b p name len = Some hdr ->
  delta_log b !! hdr = Some e ->
  u32 (hdr_type (e_hdr e)) = DAXFS_DELTA_DELETE ->
  name_exists_delta b p name len = Some NameAbsent.
Proof.
  intros Hl He Ht.
  destruct b as [log sz cap dax ii di pa]; simpl in *.
  rewrite Hl. unfold hdr_at. rewrite He, Ht. destruct pa; reflexivity.
Qed.

Lemma u16_small x : 0 <= x < 2 ^ 16 -> u16 x = x.
Proof. intros. unfold u16. apply Z.mod_small. lia. Qed.

(** A CREATE or MKDIR record appended with no allocation failing is what
    the next lookup of the name finds. *)
Lemma create_entry_then_exists `{Jhash} info type dir_ino name mode new_ino
    now info' o' :
  type = DAXFS_DELTA_CREATE \/ type = DAXFS_DELTA_MKDIR ->
  0 <= dir_ino < 2 ^ 64 ->
  Z.of_nat (length name) < 2 ^ 16 ->
  create_entry info type dir_ino name mode new_ino now [] = Some (0, info', o') ->
  daxfs_name_exists info' dir_ino name (Z.of_nat (length name))
  = Some (NameFound (u64 new_ino)).
Proof.
  intros Ht Hdir Hlen. unfold create_entry.
  destruct (daxfs_name_exists info dir_ino name _) as [[? |] |]; try discriminate.
  destruct (current_branch info) as [branch |]; [| discriminate].
  simpl kzalloc. cbv iota beta.
  destruct (daxfs_delta_append branch type new_ino _ name now [])
    as [[ret b'] o2] eqn:Ea.
  intros E. inversion E; subst ret info' o2; clear E.
  apply daxfs_delta_append_ok in Ea.
  destruct Ea as (_ & Hlog & _ & b2 & Hlog2 & _ & _ & _ & Hreq).
  assert (Hty : bool_decide (type = DAXFS_DELTA_CREATE
                             \/ type = DAXFS_DELTA_MKDIR) = true)
    by (apply bool_decide_eq_true; exact Ht).
  unfold entry_requests in Hreq. rewrite Hty in Hreq. simpl in Hreq.
  destruct (index_add_inode_quiet b2 (u64 new_ino) (delta_size branch) false 0
              (u32 mode)) as [b3 [E3 _]].
  rewrite E3 in Hreq.
  rewrite u16_small, bytes_at_all, u64_small in Hreq by lia.
  destruct (index_add_dirent b3 dir_ino name (Z.of_nat (length name))
              (delta_size branch) false []) as [[ret4 b4] o4] eqn:E4.
  inversion Hreq; subst b4 o4; clear Hreq.
  destruct (index_add_dirent_quiet b3 dir_ino name (Z.of_nat (length name))
              (delta_size branch) false) as [b4 [E4' Hl]].
  rewrite E4' in E4. inversion E4; subst ret4 b4; clear E4.
  unfold daxfs_name_exists.
  replace (current_branch (set_current_branch _ (Some b'))) with (Some b')
    by (destruct (sb_next_inode_id (super info) <=? new_ino); reflexivity).
  erewrite name_exists_delta_found
    with (cr := mk_create (u64 dir_ino) (u64 new_ino) (u32 mode)
                          (u16 (Z.of_nat (length name))) 0);
    [reflexivity | exact Hl | | | ].
  - rewrite Hlog. apply lookup_insert_eq.
  - simpl. rewrite u32_small by apply u32_range.
    destruct Ht as [-> | ->]; [left | right]; reflexivity.
  - reflexivity.
Qed.

Lemma create_entry_exists `{Jhash} info type dir_ino name mode new_ino now o i :
  daxfs_name_exists info dir_ino name (Z.of_nat (length name))
  = Some (NameFound i) ->
  create_entry info type dir_ino name mode new_ino now o
  = Some (- EEXIST, info, o).
Proof. intros E. unfold create_entry. rewrite E. reflexivity. Qed.


Lemma resolve_inode_delta_deleted b ino :
  daxfs_delta_is_deleted b ino = true ->
  resolve_inode_delta b ino = Some InodeDeleted.
Proof.
  intros Hd. destruct b as [log sz cap dax ii di pa]; simpl in *.
  rewrite Hd. reflexivity.
Qed.

(** What a DELETE record appended with no allocation failing leaves in
    the two indices. *)
Lemma unlink_then_indexed `{Jhash} info dir_ino name inode_ino now info' o' :
  0 <= dir_ino < 2 ^ 64 ->
  Z.of_nat (length name) < 2 ^ 16 ->
  daxfs_unlink info dir_ino name inode_ino now [] = Some (0, info', o') ->
  exists b',
    current_branch info' = Some b'
    /\ name_exists_delta b' dir_ino name (Z.of_nat (length name))
       = Some NameAbsent
    /\ daxfs_delta_is_deleted b' inode_ino = true.
Proof.
  intros Hdir Hlen. unfold daxfs_unlink.
  destruct (current_branch info) as [branch |]; [| discriminate].
  simpl kzalloc. cbv iota beta.
  destruct (daxfs_delta_append branch DAXFS_DELTA_DELETE inode_ino _ name
              now []) as [[ret b'] o2] eqn:Ea.
  intros E. inversion E; subst ret info' o2; clear E.
  apply daxfs_delta_append_ok in Ea.
  destruct Ea as (_ & Hlog & _ & b2 & Hlog2 & _ & _ & _ & Hreq).
  simpl in Hreq.
  destruct (index_add_inode b2 inode_ino (delta_size branch) true U64_MAX
              U32_MAX []) as [[ret3 b3] o3] eqn:E3.
  destruct (index_add_inode_quiet b2 inode_ino (delta_size branch) true
              U64_MAX U32_MAX) as [b3' [E3' Hd]].
  rewrite E3' in E3. inversion E3; subst ret3 b3' o3; clear E3.
  rewrite u16_small, bytes_at_all, u64_small in Hreq by lia.
  destruct (index_add_dirent_quiet b3 dir_ino name (Z.of_nat (length name))
              (delta_size branch) true) as [b4 [E4 Hl]].
  rewrite E4 in Hreq. inversion Hreq; subst b4; clear Hreq.
  exists b'. split; [reflexivity |]. split.
  - eapply name_exists_delta_deleted; [exact Hl | |].
    + rewrite Hlog. apply lookup_insert_eq.
    + reflexivity.
  - unfold daxfs_delta_is_deleted in *.
    destruct (index_add_dirent_inode_index _ _ _ _ _ _ _ _ _ _ E4) as (-> & _).
    exact Hd.
Qed.

(** X6.  After a [daxfs_unlink] or a [daxfs_rmdir] that returns 0 with
    no allocation failing: [daxfs_lookup] of the name finds nothing,
    whatever the base image and the parent branches hold;
    [daxfs_resolve_inode] reports the inode deleted; and a later
    [daxfs_create] of the name is not turned down with [-EEXIST]. *)
Theorem unlink_then_lookup `{Jhash} (info info' : daxfs_info)
    (dir_ino : Z) (name : list byte) (inode_ino now : Z)
    (o' : alloc_oracle) :
  0 <= dir_ino < 2 ^ 64 ->
  Z.of_nat (length name) < 2 ^ 16 ->
  daxfs_unlink info dir_ino name inode_ino now [] = Some (0, info', o')
  \/ daxfs_rmdir info dir_ino name inode_ino now [] = Some (0, info', o') ->
  daxfs_lookup info' dir_ino name = Some NameAbsent
  /\ daxfs_resolve_inode info' inode_ino = Some InodeDeleted
  /\ forall mode new_ino now2 o2,
       exists ret info2 o3,
         daxfs_create info' dir_ino name mode new_ino now2 o2
         = Some (ret, info2, o3)
         /\ ret <> - EEXIST.
Proof.
  intros Hdir Hlen Hu.
  assert (Hu' : daxfs_unlink info dir_ino name inode_ino now []
                = Some (0, info', o')) by (destruct Hu as [Hu | Hu]; exact Hu).
  destruct (unlink_then_indexed _ _ _ _ _ _ _ Hdir Hlen Hu')
    as (b' & Hcur & Hname & Hdel).
  assert (Hex : daxfs_name_exists info' dir_ino name (Z.of_nat (length name))
                = Some NameAbsent).
  { unfold daxfs_name_exists. rewrite Hcur, Hname. reflexivity. }
  split; [exact Hex |]. split.
  - unfold daxfs_resolve_inode. rewrite Hcur.
    rewrite (resolve_inode_delta_deleted _ _ Hdel). reflexivity.
  - intros mode new_ino now2 o2.
    unfold daxfs_create, create_entry. rewrite Hex, Hcur.
    destruct (kzalloc o2) as [[] o3].
    + pose proof (daxfs_delta_append_returns b' DAXFS_DELTA_CREATE new_ino
                    (BodyCreate (mk_create (u64 dir_ino) (u64 new_ino)
                                   (u32 mode) (u16 (Z.of_nat (length name))) 0))
                    name now2 o3) as Hret.
      destruct (daxfs_delta_append b' DAXFS_DELTA_CREATE new_ino _ name now2 o3)
        as [[ret b''] o4].
      eexists _, _, _. split; [reflexivity |].
      simpl in Hret. unfold ENOSPC, EEXIST in *. lia.
    + eexists _, _, _. split; [reflexivity |]. unfold ENOMEM, EEXIST. lia.
Qed.

(** *** At the sample filesystem *)


Lemma unlink_then_lookup_witness :
  @daxfs_unlink sample_jhash sample_info 1 (bytes "foo") 2 1000 []
  = Some (0, sample_unlinked, [])
  /\ @daxfs_lookup sample_jhash sample_unlinked 1 (bytes "foo")
     = Some NameAbsent
  /\ daxfs_resolve_inode sample_unlinked 2 = Some InodeDeleted.
Proof.
  assert (E : @daxfs_unlink sample_jhash sample_info 1 (bytes "foo") 2 1000 []
              = Some (0, sample_unlinked, [])) by by_computation.
  split; [exact E |].
  destruct (@unlink_then_lookup sample_jhash sample_info sample_unlinked 1
              (bytes "foo") 2 1000 [])
    as (Hl & Hr & _); [lia | by_computation | left; exact E |].
  split; [exact Hl | exact Hr].
Defined.

(** ** Attributes set, then resolved *)

Lemma resolve_inode_delta_attr b ino ie e :
  inode_index_walk (inode_index b) ino = Some ie ->
  ie_deleted ie = false ->
  delta_log b !! ie_hdr ie = Some e ->
  u32 (hdr_type (e_hdr e)) <> DAXFS_DELTA_DELETE ->
  resolve_inode_delta b ino = Some (InodeAttr (ie_mode ie) (ie_size ie)).
Proof.
  intros Hw Hd He Ht.
  destruct b as [log sz cap dax ii di pa]; simpl in *.
  unfold daxfs_delta_is_deleted, daxfs_delta_lookup_inode. simpl.
  rewrite Hw, Hd. simpl. unfold hdr_at. rewrite He.
  destruct (Z.eqb_spec (u32 (hdr_type (e_hdr e))) DAXFS_DELTA_DELETE);
    [contradiction | reflexivity].
Qed.

(** An append whose record the switch files under the inode alone. *)
Lemma append_one_inode_request `{Jhash} b type ino body payload now b' o'
    d sz m :
  entry_requests type ino (delta_size b) body payload
  = [ReqInode ino (delta_size b) d sz m] ->
  daxfs_delta_append b type ino body payload now [] = (0, b', o') ->
  o' = []
  /\ delta_log b' !! delta_size b
     = Some (appended_entry type ino body payload now)
  /\ exists ie,
       inode_index_walk (inode_index b') ino = Some ie
       /\ ie_hdr ie = delta_size b
       /\ ie_deleted ie = d
       /\ ie_size ie
          = (if sz =? U64_MAX
             then from_option ie_size 0 (inode_index_walk (inode_index b) ino)
             else sz)
       /\ ie_mode ie
          = (if m =? U32_MAX
             then from_option ie_mode 0 (inode_index_walk (inode_index b) ino)
             else m).
Proof.
  intros Hreq Ea. apply daxfs_delta_append_ok in Ea.
  destruct Ea as (_ & Hlog & _ & b2 & _ & Hii & _ & _ & Happ).
  rewrite Hreq in Happ. simpl in Happ.
  unfold index_add_inode in Happ.
  destruct (index_add_inode_at (inode_index b2) ino (delta_size b) d sz m [])
    as [[ret t] o1] eqn:Et.
  injection Happ as -> ->.
  destruct (index_add_inode_at_walk _ _ _ _ _ _ _ _ _ _ Et)
    as [(_ & ie & Hw & Hrest) | (Hr & _)].
  - rewrite index_add_inode_at_upsert in Et. injection Et as _ _ <-.
    split; [reflexivity |]. split.
    + change (delta_log (set_inode_index b2 t)) with (delta_log b2) in Hlog |- *.
      rewrite Hlog. apply lookup_insert_eq.
    + exists ie. rewrite <- Hii. exact (conj Hw Hrest).
  - rewrite index_add_inode_at_upsert in Et. injection Et as <- _ _.
    unfold ENOMEM in Hr. lia.
Qed.

Lemma attr_has_mode (attr : iattr) :
  attr_has attr ATTR_MODE = true ->
  attr_has attr (Z.lor ATTR_MODE (Z.lor ATTR_UID ATTR_GID)) = true.
Proof.
  unfold attr_has. intros Hm.
  destruct (Z.eqb_spec (Z.land (ia_valid attr)
                          (Z.lor ATTR_MODE (Z.lor ATTR_UID ATTR_GID))) 0)
    as [E |]; [| reflexivity].
  assert (E1 : Z.land (ia_valid attr) ATTR_MODE = 0).
  { change ATTR_MODE with
      (Z.land (Z.lor ATTR_MODE (Z.lor ATTR_UID ATTR_GID)) ATTR_MODE) at 1.
    rewrite Z.land_assoc, E. reflexivity. }
  rewrite E1 in Hm. discriminate.
Qed.

(** The index call the switch makes for the record of [setattr_record]:
    the size is never set, the mode when [ATTR_MODE] is. *)
Lemma setattr_record_requests (attr : iattr) ino hdr :
  entry_requests DAXFS_DELTA_SETATTR ino hdr (BodySetattr (setattr_record attr))
                 []
  = [ReqInode ino hdr false U64_MAX
       (if attr_has attr ATTR_MODE then u32 (ia_mode attr) else U32_MAX)].
Proof.
  unfold entry_requests, setattr_record. simpl.
  destruct (attr_has attr ATTR_MODE), (attr_has attr ATTR_UID),
    (attr_has attr ATTR_GID); reflexivity.
Qed.

Lemma appended_not_delete type ino body payload now :
  type = DAXFS_DELTA_TRUNCATE \/ type = DAXFS_DELTA_SETATTR ->
  u32 (hdr_type (e_hdr (appended_entry type ino body payload now)))
  <> DAXFS_DELTA_DELETE.
Proof. intros [-> | ->]; vm_compute; discriminate. Qed.

(** What the SETATTR step of the handler leaves in the index. *)
Lemma setattr_step `{Jhash} b (attr : iattr) ino now b' o' :
  daxfs_delta_append b DAXFS_DELTA_SETATTR ino
                     (BodySetattr (setattr_record attr)) [] now []
  = (0, b', o') ->
  exists ie e,
    inode_index_walk (inode_index b') ino = Some ie
    /\ ie_deleted ie = false
    /\ delta_log b' !! ie_hdr ie = Some e
    /\ u32 (hdr_type (e_hdr e)) <> DAXFS_DELTA_DELETE
    /\ ie_size ie = from_option ie_size 0 (inode_index_walk (inode_index b) ino)
    /\ (attr_has attr ATTR_MODE = true -> u32 (ia_mode attr) <> U32_MAX ->
        ie_mode ie = u32 (ia_mode attr)).
Proof.
  intros Ea.
  destruct (append_one_inode_request _ _ _ _ _ _ _ _ _ _ _
              (setattr_record_requests attr ino (delta_size b)) Ea)
    as (_ & Hlog & ie & Hw & Hh & Hd & Hs & Hm).
  exists ie, (appended_entry DAXFS_DELTA_SETATTR ino
                (BodySetattr (setattr_record attr)) [] now).
  split; [exact Hw |]. split; [exact Hd |].
  split; [rewrite Hh; exact Hlog |].
  split; [apply appended_not_delete; auto |].
  split; [exact Hs |].
  intros Hmode Hne. rewrite Hmode in Hm.
  destruct (Z.eqb_spec (u32 (ia_mode attr)) U32_MAX); [contradiction | exact Hm].
Qed.

(** What the TRUNCATE step of the handler leaves in the index. *)
Lemma truncate_step `{Jhash} b new_size ino now b' o' :
  daxfs_delta_append b DAXFS_DELTA_TRUNCATE ino
                     (BodyTruncate (mk_truncate new_size)) [] now []
  = (0, b', o') ->
  o' = []
  /\ exists ie e,
    inode_index_walk (inode_index b') ino = Some ie
    /\ ie_deleted ie = false
    /\ delta_log b' !! ie_hdr ie = Some e
    /\ u32 (hdr_type (e_hdr e)) <> DAXFS_DELTA_DELETE
    /\ (new_size <> U64_MAX -> ie_size ie = new_size).
Proof.
  intros Ea.
  destruct (append_one_inode_request b DAXFS_DELTA_TRUNCATE ino
              (BodyTruncate (mk_truncate new_size)) [] now b' o'
              false new_size U32_MAX eq_refl Ea)
    as (Ho & Hlog & ie & Hw & Hh & Hd & Hs & _).
  split; [exact Ho |].
  exists ie, (appended_entry DAXFS_DELTA_TRUNCATE ino
                (BodyTruncate (mk_truncate new_size)) [] now).
  split; [exact Hw |]. split; [exact Hd |].
  split; [rewrite Hh; exact Hlog |].
  split; [apply appended_not_delete; auto |].
  intros Hne.
  destruct (Z.eqb_spec new_size U64_MAX); [contradiction | exact Hs].
Qed.

(** X7.  After a [daxfs_setattr] that passes [setattr_prepare], asks
    for a size or for mode, uid or gid, and returns 0 with no allocation
    failing, [daxfs_resolve_inode] answers with attributes for the inode
    (not with "deleted", not from a parent branch or the base image).
    With [ATTR_SIZE] the inode's [i_size] is the new size, and the
    resolved size is too unless it is the reserved [(u64)-1]; with
    [ATTR_MODE] the resolved mode is the new mode unless it is the
    reserved [(u32)-1]. *)
Theorem setattr_then_resolve `{Jhash} (info info' : daxfs_info)
    (inode inode' : vfs_inode) (attr : iattr) (now1 now2 : Z)
    (o' : alloc_oracle) :
  daxfs_setattr info inode attr 0 now1 now2 [] = Some (0, info', inode', o') ->
  attr_has attr ATTR_SIZE = true
  \/ attr_has attr (Z.lor ATTR_MODE (Z.lor ATTR_UID ATTR_GID)) = true ->
  exists mode size,
    daxfs_resolve_inode info' (i_ino inode) = Some (InodeAttr mode size)
    /\ (attr_has attr ATTR_SIZE = true ->
        i_size inode' = ia_size attr
        /\ (u64 (ia_size attr) <> U64_MAX -> size = u64 (ia_size attr)))
    /\ (attr_has attr ATTR_MODE = true ->
        u32 (ia_mode attr) <> U32_MAX -> mode = u32 (ia_mode attr)).
Proof.
  unfold daxfs_setattr. change (negb (0 =? 0)) with false. cbv iota zeta.
  intros E Hbits.
  destruct (current_branch info) as [branch |].
  2:{ destruct Hbits as [Hb | Hb]; rewrite Hb in E; [discriminate |].
      rewrite orb_true_r in E. discriminate. }
  assert (Hres : forall b ie e,
             current_branch info' = Some b ->
             inode_index_walk (inode_index b) (i_ino inode) = Some ie ->
             ie_deleted ie = false ->
             delta_log b !! ie_hdr ie = Some e ->
             u32 (hdr_type (e_hdr e)) <> DAXFS_DELTA_DELETE ->
             daxfs_resolve_inode info' (i_ino inode)
             = Some (InodeAttr (ie_mode ie) (ie_size ie))).
  { intros b ie e Hc Hw Hd He Ht. unfold daxfs_resolve_inode. rewrite Hc.
    rewrite (resolve_inode_delta_attr _ _ _ _ Hw Hd He Ht). reflexivity. }
  destruct (attr_has attr ATTR_SIZE) eqn:Hsize.
  - destruct (daxfs_delta_append branch DAXFS_DELTA_TRUNCATE (i_ino inode)
                _ [] now1 []) as [[ret1 b1] o1] eqn:E1.
    destruct (Z.eqb_spec ret1 0) as [-> | Hne1].
    2:{ simpl in E. injection E as E _. contradiction. }
    simpl negb in E. cbv iota in E.
    destruct (truncate_step _ _ _ _ _ _ E1)
      as (-> & ie1 & e1 & Hw1 & Hd1 & He1 & Ht1 & Hs1).
    destruct (attr_has attr (Z.lor ATTR_MODE (Z.lor ATTR_UID ATTR_GID)))
      eqn:Hattr.
    + destruct (daxfs_delta_append b1 DAXFS_DELTA_SETATTR (i_ino inode)
                  _ [] now2 []) as [[ret2 b2] o2] eqn:E2.
      injection E as -> <- <- <-.
      destruct (setattr_step _ _ _ _ _ _ E2)
        as (ie2 & e2 & Hw2 & Hd2 & He2 & Ht2 & Hs2 & Hm2).
      exists (ie_mode ie2), (ie_size ie2).
      split; [apply (Hres b2 ie2 e2); auto |].
      split; [| exact Hm2].
      intros _. split; [reflexivity |].
      intros Hne. rewrite Hs2, Hw1. simpl. auto.
    + injection E as <- <- <-.
      exists (ie_mode ie1), (ie_size ie1).
      split; [apply (Hres b1 ie1 e1); auto |].
      split; [intros _; split; [reflexivity | exact Hs1] |].
      intros Hm. apply attr_has_mode in Hm. congruence.
  - destruct Hbits as [? | Hattr]; [discriminate |].
    simpl negb in E. cbv iota in E. rewrite Hattr in E.
    destruct (daxfs_delta_append branch DAXFS_DELTA_SETATTR (i_ino inode)
                _ [] now2 []) as [[ret2 b2] o2] eqn:E2.
    injection E as -> <- <- <-.
    destruct (setattr_step _ _ _ _ _ _ E2)
      as (ie2 & e2 & Hw2 & Hd2 & He2 & Ht2 & Hs2 & Hm2).
    exists (ie_mode ie2), (ie_size ie2).
    split; [apply (Hres b2 ie2 e2); auto |].
    split; [intros; discriminate | exact Hm2].
Qed.

(** *** At the sample filesystem *)

Lemma setattr_then_resolve_witness :
  @daxfs_setattr sample_jhash sample_created sample_file sample_attr
                 0 1002 1003 []
  = Some (0, sample_truncated, mk_vfs_inode 3 2 33188, [])
  /\ daxfs_resolve_inode sample_truncated 3 = Some (InodeAttr 420 2).
Proof.
  assert (E : @daxfs_setattr sample_jhash sample_created sample_file
                sample_attr 0 1002 1003 []
              = Some (0, sample_truncated, mk_vfs_inode 3 2 33188, []))
    by by_computation.
  split; [exact E |].
  assert (Hsize : attr_has sample_attr ATTR_SIZE = true) by by_computation.
  assert (Hmode : attr_has sample_attr ATTR_MODE = true) by by_computation.
  destruct (@setattr_then_resolve sample_jhash _ _ _ _ _ _ _ _ E
              (or_introl Hsize)) as (mode & size & Hr & Hs & Hm).
  destruct (Hs Hsize) as [_ Hsz].
  rewrite Hsz, Hm in Hr; [exact Hr | exact Hmode | | ]; by_computation.
Defined.

(** ** The indices an append maintains are the indices a rebuild makes *)

Lemma upsert_all_app {A Q : Type} (dir : Q -> A -> direction)
    (upd : Q -> A -> A) (fresh : Q -> A) (q1 q2 : list Q) : forall t,
  upsert_all dir upd fresh (q1 ++ q2) t
  = upsert_all dir upd fresh q2 (upsert_all dir upd fresh q1 t).
Proof. induction q1 as [| q q1 IH]; intros t; simpl; [reflexivity | apply IH]. Qed.

Lemma with_offsets_app offset es e :
  with_offsets offset (es ++ [e])
  = with_offsets offset es ++ [(offset + sum_total_size es, e)].
Proof.
  revert offset. induction es as [| e0 es IH]; intros offset; simpl.
  - rewrite Z.add_0_r. reflexivity.
  - rewrite IH.
    replace (offset + entry_total_size e0 + sum_total_size es)
      with (offset + sum_total_size (e0 :: es))
      by (unfold sum_total_size; simpl; lia).
    reflexivity.
Qed.

(** The scan of [daxfs_delta_build_index] over a packed log visits every
    entry. *)
Lemma packed_build_index_entries log offset es end_ fuel :
  packed log offset es end_ ->
  0 <= offset -> end_ < 2 ^ 64 ->
  (Z.to_nat (end_ - offset) <= fuel)%nat ->
  build_index_entries fuel log end_ offset = Some (with_offsets offset es).
Proof.
  intros Hp. revert fuel.
  induction Hp as [offset | offset e es end_ Hlook Hsz Hp IH];
    intros fuel Hoff Hend Hfuel.
  - destruct fuel; simpl; rewrite Z.ltb_irrefl; reflexivity.
  - pose proof (packed_le _ _ _ _ Hp) as Hle.
    unfold entry_total_size in *.
    destruct fuel as [| fuel]; [lia |]. simpl.
    destruct (Z.ltb_spec offset end_); [| lia].
    rewrite Hlook. rewrite u32_small by lia.
    rewrite (u64_small (offset + _)) by lia.
    destruct (Z.eqb_spec (hdr_total_size (e_hdr e)) 0); [lia |].
    destruct (Z.ltb_spec end_ (offset + hdr_total_size (e_hdr e))); [lia |].
    simpl. rewrite IH by lia. reflexivity.
Qed.

Lemma daxfs_delta_build_index_quiet `{Jhash} b ret b' o' :
  daxfs_delta_build_index b [] = Some (ret, b', o') -> ret = 0 /\ o' = [].
Proof.
  revert ret b' o'.
  assert (Hown : forall c ret c' o',
             build_index_own c [] = Some (ret, c', o') -> ret = 0 /\ o' = []).
  { intros c ret c' o'. unfold build_index_own.
    rewrite build_index_scan_requests.
    destruct (build_index_entries _ _ _ _) as [es |]; [| discriminate].
    simpl. rewrite apply_requests_quiet. intros E. injection E as <- _ <-.
    auto. }
  induction b as [log sz cap dax ii di | log sz cap dax ii di p IH]
    using branch_ctx_ind; intros ret b' o'; rewrite daxfs_delta_build_index_unfold.
  - apply Hown.
  - change (parent (mk_branch log sz cap dax ii di (Some p))) with (Some p).
    cbv beta iota.
    destruct (inode_index p); [| apply Hown].
    destruct (daxfs_delta_build_index p []) as [[[ret1 p1] o1] |] eqn:Ep;
      [| discriminate].
    destruct (IH _ _ _ eq_refl) as [-> ->]. simpl. apply Hown.
Qed.

(** [daxfs_delta_build_index] with no allocation failing: the parent
    first, then what the requests of the visited entries make of the
    indices as they are. *)
Lemma daxfs_delta_build_index_requests `{Jhash} b :
  daxfs_delta_build_index b []
  = match build_index_parent (parent b) with
    | Some pa =>
        match build_index_entries (Z.to_nat (delta_size b)) (delta_log b)
                                  (delta_size b) 0 with
        | Some es =>
            Some (0,
                  (apply_requests (set_parent b pa) (entries_requests es) []).1,
                  [])
        | None => None
        end
    | None => None
    end.
Proof.
  assert (Hown : forall c,
             build_index_own c []
             = match build_index_entries (Z.to_nat (delta_size c)) (delta_log c)
                                         (delta_size c) 0 with
               | Some es =>
                   Some (0, (apply_requests c (entries_requests es) []).1, [])
               | None => None
               end).
  { intros c. unfold build_index_own. rewrite build_index_scan_requests.
    destruct (build_index_entries _ _ _ _) as [es |]; [| reflexivity].
    simpl. rewrite apply_requests_quiet. reflexivity. }
  rewrite daxfs_delta_build_index_unfold. unfold build_index_parent.
  destruct (parent b) as [p |] eqn:Hpar.
  - destruct (inode_index p) eqn:Hii.
    + destruct (daxfs_delta_build_index p []) as [[[ret1 p1] o1] |] eqn:Ep;
        [| reflexivity].
      destruct (daxfs_delta_build_index_quiet _ _ _ _ Ep) as [-> ->].
      simpl. exact (Hown (set_parent b (Some p1))).
    + rewrite Hown, set_parent_same by exact Hpar. reflexivity.
  - rewrite Hown, set_parent_same by exact Hpar. reflexivity.
Qed.

Lemma indices_current_iff `{Jhash} b es :
  log_inv b es ->
  delta_size b < 2 ^ 64 ->
  indices_current b
  <-> build_index_parent (parent b) = Some (parent b)
      /\ inode_index b
         = upsert_all inode_dir inode_upd inode_fresh
             (inode_calls (entries_requests (with_offsets 0 es))) rb_nil
      /\ dirent_index b
         = upsert_all dirent_dir dirent_upd dirent_fresh
             (dirent_calls (entries_requests (with_offsets 0 es))) rb_nil.
Proof.
  intros (Hp & _ & _) Hsz. unfold indices_current.
  rewrite daxfs_delta_build_index_requests.
  change (parent (daxfs_delta_destroy_branch b)) with (parent b).
  change (delta_size (daxfs_delta_destroy_branch b)) with (delta_size b).
  change (delta_log (daxfs_delta_destroy_branch b)) with (delta_log b).
  rewrite (packed_build_index_entries _ _ _ _ _ Hp) by lia.
  destruct (build_index_parent (parent b)) as [pa |].
  2:{ split; [discriminate | intros [? _]; discriminate]. }
  rewrite apply_requests_quiet. simpl.
  destruct b as [log sz cap dax ii di pa0]. simpl.
  unfold with_indices. simpl.
  split.
  - intros E. injection E as -> <- <-. auto.
  - intros (E & -> & ->). injection E as ->. reflexivity.
Qed.

Lemma daxfs_delta_append_sizes `{Jhash} b type ino body payload now o b' o' :
  daxfs_delta_append b type ino body payload now o = (0, b', o') ->
  delta_capacity b' = delta_capacity b
  /\ on_dax_delta_log_size b' = delta_size b'
  /\ parent b' = parent b.
Proof.
  intros E. unfold daxfs_delta_append, daxfs_delta_alloc in E.
  destruct (delta_capacity b <? _); [inversion E |].
  destruct (index_delta_entry _ _ _ _ _ _ _) as [b3 o3] eqn:Ei.
  injection E as -> ->.
  rewrite (index_delta_entry_frame _ _ _ _ _ _ _ _ _ Ei). auto.
Qed.

(** X8.  [daxfs_delta_append] keeps the two indices equal to what
    [daxfs_delta_destroy_branch] followed by [daxfs_delta_build_index]
    makes of the log: if that holds of a branch with a packed log, it
    holds again after an append with no allocation failing (type within
    32 bits, inode number within 64 bits, record shorter than 2^32
    bytes), and the log is packed again with the new record at its
    end. *)
Theorem append_keeps_indices_current `{Jhash} (b b' : daxfs_branch_ctx)
    (es : list delta_entry) (type ino : Z) (body : delta_body)
    (payload : list byte) (now : Z) (o' : alloc_oracle) :
  log_inv b es ->
  indices_current b ->
  delta_capacity b <= 2 ^ 64 - 2 ^ 32 ->
  sizeof_hdr + (sizeof_body body + Z.of_nat (length payload)) < 2 ^ 32 ->
  0 <= type < 2 ^ 32 ->
  0 <= ino < 2 ^ 64 ->
  daxfs_delta_append b type ino body payload now [] = (0, b', o') ->
  indices_current b'
  /\ log_inv b' (es ++ [appended_entry type ino body payload now]).
Proof.
  intros Hinv Hcur Hcap Htot Hty Hino Ea.
  pose proof Hinv as (Hp & Hle & Hdax).
  pose proof (packed_le _ _ _ _ Hp) as Hpos.
  pose proof (packed_sum _ _ _ _ Hp) as Hsum.
  pose proof (sizeof_body_pos body) as Hbody.
  assert (Htotal : u64 (sizeof_hdr
                        + (sizeof_body body + Z.of_nat (length payload)))
                   = sizeof_hdr
                     + (sizeof_body body + Z.of_nat (length payload))).
  { apply u64_small. unfold sizeof_hdr in *. lia. }
  set (e := appended_entry type ino body payload now).
  assert (Hesz : entry_total_size e
                 = sizeof_hdr
                   + (sizeof_body body + Z.of_nat (length payload))).
  { unfold e, appended_entry, entry_total_size. simpl. rewrite Htotal.
    apply u32_small. unfold sizeof_hdr in *. lia. }
  destruct (daxfs_delta_append_sizes _ _ _ _ _ _ _ _ _ Ea)
    as (Hcap' & Hdax' & Hpar').
  destruct (daxfs_delta_append_ok _ _ _ _ _ _ _ _ _ Ea)
    as (Hfit & Hlog & Hsize & b2 & Hlog2 & Hii & Hdi & Hpar & Happ).
  fold e in Hlog. rewrite Htotal, <- Hesz in Hfit, Hsize.
  rewrite u64_small in Hfit, Hsize
    by (rewrite Hesz; unfold sizeof_hdr in *; lia).
  rewrite apply_requests_quiet in Happ. injection Happ as Hb' _.
  assert (Hinv' : log_inv b' (es ++ [e])).
  { split; [| split].
    - rewrite Hlog, Hsize. apply packed_snoc; [exact Hp |].
      rewrite Hesz. unfold sizeof_hdr in *. lia.
    - rewrite Hcap'. lia.
    - exact Hdax'. }
  split; [| exact Hinv'].
  apply (indices_current_iff b es Hinv) in Hcur; [| lia].
  destruct Hcur as (Hpa & Hi & Hd).
  apply (indices_current_iff b' (es ++ [e]) Hinv');
    [rewrite Hsize, Hesz; unfold sizeof_hdr in *; lia |].
  assert (Hreq : entries_requests (with_offsets 0 (es ++ [e]))
                 = entries_requests (with_offsets 0 es)
                   ++ entry_requests type ino (delta_size b) body payload).
  { rewrite with_offsets_app. unfold entries_requests.
    rewrite bind_app. f_equal. simpl. rewrite app_nil_r.
    rewrite Hsum, Z.sub_0_r, Z.add_0_l.
    rewrite !u32_small, u64_small; [reflexivity | lia | lia |].
    apply u32_range. }
  rewrite Hpar'. split; [exact Hpa |].
  rewrite Hreq. unfold inode_calls, dirent_calls.
  rewrite !bind_app, !upsert_all_app.
  fold (inode_calls (entries_requests (with_offsets 0 es))).
  fold (dirent_calls (entries_requests (with_offsets 0 es))).
  rewrite <- Hi, <- Hd, <- Hii, <- Hdi, Hb'. split; reflexivity.
Qed.

Lemma build_index_own_total `{Jhash} c o :
  delta_size c <= 2 ^ 64 - 2 ^ 32 ->
  exists c' o',
    build_index_own c o = Some (0, c', o')
    /\ c' = with_indices c (inode_index c') (dirent_index c').
Proof.
  intros Hsz. unfold build_index_own. rewrite build_index_scan_requests.
  destruct (build_index_entries_total (delta_log c) (delta_size c)
              (Z.to_nat (delta_size c)) 0) as [es ->]; [lia | lia | lia |].
  simpl.
  destruct (apply_requests c (entries_requests es) o) as [c' o'] eqn:Ea.
  exists c', o'. split; [reflexivity |].
  exact (apply_requests_frame _ _ _ _ _ Ea).
Qed.

(** The rebuild of a chain ends, returns 0 and leaves logs and sizes
    alone. *)
Lemma daxfs_delta_build_index_frame `{Jhash} (b : daxfs_branch_ctx)
    (o : alloc_oracle) :
  Forall (fun b' => delta_size b' <= 2 ^ 64 - 2 ^ 32) (branch_chain b) ->
  exists b' o',
    daxfs_delta_build_index b o = Some (0, b', o')
    /\ delta_log b' = delta_log b
    /\ delta_size b' = delta_size b
    /\ delta_capacity b' = delta_capacity b
    /\ on_dax_delta_log_size b' = on_dax_delta_log_size b
    /\ (delta_log <$> branch_chain b') = (delta_log <$> branch_chain b).
Proof.
  revert o.
  induction b as [log sz cap dax ii di | log sz cap dax ii di p IH]
    using branch_ctx_ind; intros o Hall;
    rewrite daxfs_delta_build_index_unfold.
  - apply Forall_cons in Hall as [Hsz _].
    destruct (build_index_own_total (mk_branch log sz cap dax ii di None) o
                Hsz) as (c' & o' & -> & Hc').
    exists c', o'. rewrite Hc'. simpl. auto 10.
  - change (parent (mk_branch log sz cap dax ii di (Some p))) with (Some p).
    cbv beta iota.
    apply Forall_cons in Hall as [Hsz Hall].
    change (Forall (fun b' => delta_size b' <= 2 ^ 64 - 2 ^ 32)
                   (branch_chain p)) in Hall.
    destruct (inode_index p) eqn:Hii.
    + destruct (IH o Hall) as (p' & o1 & -> & _ & _ & _ & _ & Hchain).
      simpl.
      destruct (build_index_own_total
                  (set_parent (mk_branch log sz cap dax ii di (Some p))
                              (Some p')) o1 Hsz) as (c' & o' & -> & Hc').
      exists c', o'. rewrite Hc'.
      repeat (split; [reflexivity |]).
      change (delta_log <$> branch_chain (with_indices _ _ _))
        with (log :: (delta_log <$> branch_chain p')).
      rewrite Hchain. reflexivity.
    + destruct (build_index_own_total
                  (mk_branch log sz cap dax ii di (Some p)) o Hsz)
        as (c' & o' & -> & Hc').
      exists c', o'. rewrite Hc'. simpl. auto 10.
Qed.

(** X9.  In a chain of branches whose logs are at most 2^64 - 2^32
    bytes long, [daxfs_delta_build_index] ends and returns 0 whatever
    the allocations do, and changes nothing but indices: the log, the
    sizes and the capacity of the branch are as before, and so are the
    logs up the chain. *)
Theorem build_index_touches_indices_only `{Jhash} (b : daxfs_branch_ctx)
    (o : alloc_oracle) :
  Forall (fun b' => delta_size b' <= 2 ^ 64 - 2 ^ 32) (branch_chain b) ->
  exists b' o',
    daxfs_delta_build_index b o = Some (0, b', o')
    /\ delta_log b' = delta_log b
    /\ delta_size b' = delta_size b
    /\ delta_capacity b' = delta_capacity b
    /\ on_dax_delta_log_size b' = on_dax_delta_log_size b
    /\ (delta_log <$> branch_chain b') = (delta_log <$> branch_chain b).
Proof.
  intros Hall.
  destruct (daxfs_delta_build_index_frame b o Hall) as (b' & o' & E & Hframe).
  exists b', o'. split; [exact E | exact Hframe].
Qed.

(** *** At the sample filesystem *)

(** The CREATE record of [/a.txt], appended to the empty child branch. *)
Lemma append_keeps_indices_current_witness :
  @indices_current sample_jhash (branch_of sample_info)
  /\ @daxfs_delta_append sample_jhash (branch_of sample_info)
       DAXFS_DELTA_CREATE 3 (BodyCreate (mk_create 1 3 33188 5 0))
       (bytes "a.txt") 999 []
     = (0, branch_of sample_created, [])
  /\ @indices_current sample_jhash (branch_of sample_created)
  /\ log_inv (branch_of sample_created)
       ([] ++ [appended_entry DAXFS_DELTA_CREATE 3
                 (BodyCreate (mk_create 1 3 33188 5 0)) (bytes "a.txt") 999]).
Proof.
  assert (Hcur : @indices_current sample_jhash (branch_of sample_info))
    by by_computation.
  assert (E : @daxfs_delta_append sample_jhash (branch_of sample_info)
                DAXFS_DELTA_CREATE 3 (BodyCreate (mk_create 1 3 33188 5 0))
                (bytes "a.txt") 999 []
              = (0, branch_of sample_created, [])) by by_computation.
  split; [exact Hcur |]. split; [exact E |].
  apply (@append_keeps_indices_current sample_jhash (branch_of sample_info)
           (branch_of sample_created) [] DAXFS_DELTA_CREATE 3
           (BodyCreate (mk_create 1 3 33188 5 0)) (bytes "a.txt") 999 []).
  - split; [exact (packed_nil _ 0) | split; by_computation].
  - exact Hcur.
  - by_computation.
  - by_computation.
  - split; by_computation.
  - split; by_computation.
  - exact E.
Defined.

(** The child branch that has created [/a.txt], its indices freed,
    rebuilt while the first allocation fails. *)
Lemma build_index_touches_indices_only_witness :
  exists b' o',
    @daxfs_delta_build_index sample_jhash
      (daxfs_delta_destroy_branch (branch_of sample_created)) [false]
    = Some (0, b', o')
    /\ delta_log b' = delta_log (branch_of sample_created)
    /\ delta_size b' = delta_size (branch_of sample_created).
Proof.
  destruct (@build_index_touches_indices_only sample_jhash
              (daxfs_delta_destroy_branch (branch_of sample_created))
              [false]) as (b' & o' & E & Hlog & Hsize & _).
  - assert (Hchain : branch_chain
                       (daxfs_delta_destroy_branch (branch_of sample_created))
                     = [daxfs_delta_destroy_branch (branch_of sample_created);
                        fresh_branch 4096 None])
      by by_computation.
    rewrite Hchain.
    repeat (apply Forall_cons_2 || apply Forall_nil_2); by_computation.
  - exists b', o'. split; [exact E |]. split; [exact Hlog | exact Hsize].
Defined.

(** ** Merging a child's log into its parent's *)

#[local] Instance Z_add_inj (d : Z) : Inj (=) (=) (Z.add d).
Proof. intros x y E. lia. Qed.

Lemma memcpy_log_inside dst dest src n i :
  0 <= i < n -> memcpy_log dst dest src n !! (dest + i) = src !! i.
Proof.
  intros Hi. unfold memcpy_log.
  rewrite lookup_union, (lookup_kmap (Z.add dest)).
  rewrite !map_lookup_filter. simpl.
  destruct (src !! i) as [e |]; simpl.
  - rewrite option_guard_True by lia. simpl.
    destruct (dst !! (dest + i)); simpl;
      [rewrite option_guard_False by lia |]; reflexivity.
  - destruct (dst !! (dest + i)); simpl;
      [rewrite option_guard_False by lia |]; reflexivity.
Qed.

Lemma memcpy_log_outside dst dest src n k :
  k < dest \/ dest + n <= k ->
  memcpy_log dst dest src n !! k = dst !! k.
Proof.
  intros Hk. unfold memcpy_log. rewrite lookup_union_r.
  - rewrite map_lookup_filter. destruct (dst !! k); simpl; [| reflexivity].
    rewrite option_guard_True by lia. reflexivity.
  - apply (lookup_kmap_None (Z.add dest)). intros i ->.
    rewrite map_lookup_filter. destruct (src !! i); simpl; [| reflexivity].
    rewrite option_guard_False by lia. reflexivity.
Qed.

(** Packed entries are a matter of the slots between the two ends. *)
Lemma packed_moved src offset es end_ log d :
  packed src offset es end_ ->
  (forall i, offset <= i < end_ -> log !! (d + i) = src !! i) ->
  packed log (d + offset) es (d + end_).
Proof.
  induction 1 as [offset | offset e es end_ Hlook Hsz Hp IH]; intros Hsame.
  - constructor.
  - pose proof (packed_le _ _ _ _ Hp) as Hle.
    econstructor; [rewrite Hsame by lia; exact Hlook | exact Hsz |].
    rewrite <- Z.add_assoc. apply IH. intros i Hi. apply Hsame. lia.
Qed.

Lemma packed_app log a es1 b es2 c :
  packed log a es1 b -> packed log b es2 c -> packed log a (es1 ++ es2) c.
Proof.
  induction 1 as [| offset e es end_ Hlook Hsz Hp IH]; intros H2; simpl;
    [exact H2 |].
  econstructor; eauto.
Qed.

(** X10.  [daxfs_delta_merge] of a child into a parent, both with
    packed logs and sizes that do not wrap: an empty child changes
    nothing and returns 0; a child that does not fit returns [-ENOSPC]
    and changes nothing; otherwise the merge returns 0 whatever the
    allocations of the rebuild do, and the parent's log is packed with
    its own records followed by the child's, its size grown by the
    child's size and its capacity as before. *)
Theorem merge_appends_child_log `{Jhash} (parent_ child : daxfs_branch_ctx)
    (es_p es_c : list delta_entry) (o : alloc_oracle) :
  log_inv parent_ es_p ->
  log_inv child es_c ->
  Forall (fun b => delta_size b <= 2 ^ 64 - 2 ^ 32) (branch_chain parent_) ->
  delta_capacity parent_ <= 2 ^ 64 - 2 ^ 32 ->
  delta_size parent_ + delta_size child < 2 ^ 64 ->
  (delta_size child = 0 ->
   daxfs_delta_merge parent_ child o = Some (0, parent_, o))
  /\ (0 < delta_size child ->
      delta_capacity parent_ < delta_size parent_ + delta_size child ->
      daxfs_delta_merge parent_ child o = Some (- ENOSPC, parent_, o))
  /\ (0 < delta_size child ->
      delta_size parent_ + delta_size child <= delta_capacity parent_ ->
      exists p' o',
        daxfs_delta_merge parent_ child o = Some (0, p', o')
        /\ log_inv p' (es_p ++ es_c)
        /\ delta_size p' = delta_size parent_ + delta_size child
        /\ delta_capacity p' = delta_capacity parent_).
Proof.
  intros (Hpp & Hple & Hpdax) (Hpc & Hcle & Hcdax) Hchain Hcap Hcsz.
  pose proof (packed_le _ _ _ _ Hpp) as Hp0.
  pose proof (packed_le _ _ _ _ Hpc) as Hc0.
  unfold daxfs_delta_merge. split; [| split].
  - intros ->. reflexivity.
  - intros Hpos Hfull.
    destruct (Z.eqb_spec (delta_size child) 0); [lia |].
    rewrite u64_small by lia.
    destruct (Z.ltb_spec (delta_capacity parent_)
                (delta_size parent_ + delta_size child)); [reflexivity | lia].
  - intros Hpos Hfits.
    destruct (Z.eqb_spec (delta_size child) 0); [lia |].
    rewrite (u64_small (delta_size parent_ + delta_size child)) by lia.
    destruct (Z.ltb_spec (delta_capacity parent_)
                (delta_size parent_ + delta_size child)); [lia |].
    rewrite daxfs_delta_alloc_fits by (rewrite u64_small; lia).
    rewrite u64_small by lia.
    set (p3 := free_dirent_index (free_inode_index (set_delta_log _ _))).
    destruct (daxfs_delta_build_index_frame p3 o)
      as (p' & o' & -> & Hlog & Hsize & Hcap' & Hdax & _).
    { destruct parent_ as [log sz cap dax ii di pa].
      apply Forall_cons in Hchain as [_ Hrest].
      apply Forall_cons. split; [simpl in *; lia | exact Hrest]. }
    exists p', o'. split; [reflexivity |].
    split; [| split; [rewrite Hsize; reflexivity
                     | rewrite Hcap'; reflexivity]].
    split; [| split; [rewrite Hsize, Hcap'; simpl; lia
                     | rewrite Hdax, Hsize; reflexivity]].
    rewrite Hlog, Hsize. simpl.
    set (log := memcpy_log (delta_log parent_) (delta_size parent_)
                  (delta_log child) (delta_size child)).
    assert (H1 : packed log (0 + 0) es_p (0 + delta_size parent_)).
    { apply (packed_moved _ _ _ _ _ 0 Hpp).
      intros i Hi. rewrite Z.add_0_l. apply memcpy_log_outside. lia. }
    assert (H2 : packed log (delta_size parent_ + 0) es_c
                   (delta_size parent_ + delta_size child)).
    { apply (packed_moved _ _ _ _ _ _ Hpc).
      intros i Hi. apply memcpy_log_inside. lia. }
    rewrite !Z.add_0_l in H1. rewrite Z.add_0_r in H2.
    exact (packed_app _ _ _ _ _ _ H1 H2).
Qed.

(** *** At the sample filesystem *)

(** The child branch that has created [/a.txt], merged into the empty
    main branch, the first allocation of the rebuild failing. *)
Lemma merge_appends_child_log_witness :
  exists p' o',
    @daxfs_delta_merge sample_jhash (fresh_branch 4096 None)
      (branch_of sample_created) [false] = Some (0, p', o')
    /\ log_inv p' ([] ++ sample_created_entries)
    /\ delta_size p' = delta_size (fresh_branch 4096 None)
                       + delta_size (branch_of sample_created)
    /\ delta_capacity p' = delta_capacity (fresh_branch 4096 None).
Proof.
  destruct (@merge_appends_child_log sample_jhash (fresh_branch 4096 None)
              (branch_of sample_created) [] sample_created_entries [false])
    as (_ & _ & Hmerge).
  - split; [exact (packed_nil _ 0) | split; by_computation].
  - split; [| split; by_computation].
    apply (packed_cons _ 0
             (mk_entry (mk_hdr DAXFS_DELTA_CREATE 53 3 999)
                       (BodyCreate (mk_create 1 3 33188 5 0)) (bytes "a.txt"))
             [] 53); [by_computation | split; by_computation |].
    exact (packed_nil _ 53).
  - apply Forall_cons_2; [by_computation | apply Forall_nil_2].
  - by_computation.
  - by_computation.
  - apply Hmerge; by_computation.
Defined.

(** ** Reading a file *)

Lemma file_data_scan_silent b depth ino pos len fuel : forall offset,
  no_write_of (delta_log b) ino ->
  0 <= offset ->
  delta_size b <= 2 ^ 64 - 2 ^ 32 ->
  (Z.to_nat (delta_size b - offset) <= fuel)%nat ->
  file_data_scan fuel b depth offset ino pos len = Some None.
Proof.
  induction fuel as [| fuel IH]; intros offset Hno Hoff Hsz Hfuel; simpl.
  - destruct (Z.ltb_spec offset (delta_size b)); [lia | reflexivity].
  - destruct (Z.ltb_spec offset (delta_size b)); [| reflexivity].
    pose proof (u32_range (hdr_total_size (hdr_at (delta_log b) offset))) as Hr.
    destruct (Z.eqb_spec (u32 (hdr_total_size (hdr_at (delta_log b) offset))) 0)
      as [| Hnz]; [reflexivity |].
    assert (Hnext : file_data_scan fuel b depth
                      (u64 (offset
                            + u32 (hdr_total_size (hdr_at (delta_log b) offset))))
                      ino pos len = Some None).
    { rewrite u64_small by lia. apply IH; [exact Hno | lia | lia | lia]. }
    rewrite Hnext. unfold hdr_at in *.
    destruct (delta_log b !! offset) as [e |] eqn:He; simpl.
    + destruct (Z.eqb_spec (u32 (hdr_type (e_hdr e))) DAXFS_DELTA_WRITE)
        as [Ht |]; [| reflexivity].
      destruct (Z.eqb_spec (hdr_ino (e_hdr e)) ino) as [Hi |]; [| reflexivity].
      destruct (Hno _ _ He (conj Ht Hi)).
    + reflexivity.
Qed.

Lemma file_data_scan_total b depth ino pos len fuel : forall offset,
  0 <= offset ->
  delta_size b <= 2 ^ 64 - 2 ^ 32 ->
  (Z.to_nat (delta_size b - offset) <= fuel)%nat ->
  exists r,
    file_data_scan fuel b depth offset ino pos len = Some r
    /\ forall p chunk, r = Some (p, chunk) ->
         0 <= len -> 0 <= chunk <= len.
Proof.
  induction fuel as [| fuel IH]; intros offset Hoff Hsz Hfuel; simpl.
  - destruct (Z.ltb_spec offset (delta_size b)); [lia |].
    eexists. split; [reflexivity | discriminate].
  - destruct (Z.ltb_spec offset (delta_size b));
      [| eexists; split; [reflexivity | discriminate]].
    pose proof (u32_range (hdr_total_size (hdr_at (delta_log b) offset))) as Hr.
    destruct (Z.eqb_spec (u32 (hdr_total_size (hdr_at (delta_log b) offset))) 0)
      as [| Hnz]; [eexists; split; [reflexivity | discriminate] |].
    destruct (IH (u64 (offset
                       + u32 (hdr_total_size (hdr_at (delta_log b) offset)))))
      as (r & Hnext & Hchunk); [rewrite u64_small by lia; lia | lia
                               | rewrite u64_small by lia; lia |].
    rewrite Hnext.
    destruct ((u32 (hdr_type (hdr_at (delta_log b) offset)) =? DAXFS_DELTA_WRITE)
              && (hdr_ino (hdr_at (delta_log b) offset) =? ino));
      [| exists r; auto].
    destruct (e_body <$> delta_log b !! offset) as [[wr | | | | |] |];
      try (exists r; split; [reflexivity | exact Hchunk]).
    destruct ((wr_offset wr <=? pos) && (pos <? u64 (wr_offset wr + wr_len wr)));
      [| exists r; auto].
    eexists. split; [reflexivity |].
    intros p chunk E. injection E as _ <-.
    assert (0 <= u64 (wr_len wr - (pos - wr_offset wr))).
    { unfold u64. apply Z.mod_pos_bound. lia. }
    lia.
Qed.

Lemma resolve_file_data_delta_unfold b depth ino pos len :
  resolve_file_data_delta b depth ino pos len
  = match file_data_scan (Z.to_nat (delta_size b)) b depth 0 ino pos len with
    | None => None
    | Some (Some r) => Some (Some r)
    | Some None =>
        match parent b with
        | Some p => resolve_file_data_delta p (S depth) ino pos len
        | None => Some None
        end
    end.
Proof. destruct b as [log sz cap dax ii di [p |]]; reflexivity. Qed.

Lemma branch_chain_unfold b :
  branch_chain b
  = b :: match parent b with
         | Some p => branch_chain p
         | None => []
         end.
Proof. destruct b as [log sz cap dax ii di [p |]]; reflexivity. Qed.

(** A chain none of whose logs has a WRITE record of the file yields no
    data pointer. *)
Lemma resolve_file_data_delta_silent b ino pos len : forall depth,
  Forall (fun b' => delta_size b' <= 2 ^ 64 - 2 ^ 32
                    /\ no_write_of (delta_log b') ino) (branch_chain b) ->
  resolve_file_data_delta b depth ino pos len = Some None.
Proof.
  induction b as [log sz cap dax ii di | log sz cap dax ii di p IH]
    using branch_ctx_ind; intros depth Hall;
    rewrite branch_chain_unfold in Hall;
    apply Forall_cons in Hall as [[Hsz Hno] Hrest];
    rewrite resolve_file_data_delta_unfold;
    rewrite (file_data_scan_silent _ _ _ _ _ _ 0 Hno) by lia.
  - reflexivity.
  - apply IH. exact Hrest.
Qed.

Lemma resolve_file_data_delta_total b ino pos len : forall depth,
  Forall (fun b' => delta_size b' <= 2 ^ 64 - 2 ^ 32) (branch_chain b) ->
  exists r,
    resolve_file_data_delta b depth ino pos len = Some r
    /\ forall p chunk, r = Some (p, chunk) ->
         0 <= len -> 0 <= chunk <= len.
Proof.
  induction b as [log sz cap dax ii di | log sz cap dax ii di p IH]
    using branch_ctx_ind; intros depth Hall;
    rewrite branch_chain_unfold in Hall;
    apply Forall_cons in Hall as [Hsz Hrest];
    rewrite resolve_file_data_delta_unfold;
    match goal with
    | |- context [file_data_scan ?f ?b ?d 0 ?i ?ps ?l] =>
        destruct (file_data_scan_total b d i ps l f 0) as (r & -> & Hr);
          [lia | exact Hsz | lia |]
    end;
    (destruct r as [r |]; [exists (Some r); auto |]).
  - exists None. split; [reflexivity | discriminate].
  - apply IH. exact Hrest.
Qed.

Lemma daxfs_resolve_file_data_total info ino pos len :
  chain_bounded info ->
  base_table_ok info ->
  1 <= ino ->
  0 <= len ->
  exists p chunk,
    daxfs_resolve_file_data info ino pos len = Some (p, chunk)
    /\ (p <> None -> 0 <= chunk <= len).
Proof.
  unfold chain_bounded, base_table_ok, daxfs_resolve_file_data.
  intros Hchain Hbase Hino Hlen.
  assert (Hdelta : exists r,
             match current_branch info with
             | Some b => resolve_file_data_delta b 0 ino pos len
             | None => Some None
             end = Some r
             /\ forall p chunk, r = Some (p, chunk) -> 0 <= chunk <= len).
  { destruct (current_branch info) as [b |].
    - destruct (resolve_file_data_delta_total b ino pos len 0%nat Hchain)
        as (r & -> & Hr).
      exists r. split; [reflexivity |]. intros p chunk E. eauto.
    - exists None. split; [reflexivity | discriminate]. }
  destruct Hdelta as (r & -> & Hr).
  destruct r as [[p chunk] |].
  { exists (Some p), chunk. split; [reflexivity |]. intros _. eauto. }
  destruct (base_inodes info) as [inodes |];
    [| exists None, 0; split; [reflexivity | congruence]].
  destruct (Z.leb_spec ino (base_inode_count info));
    [| exists None, 0; split; [reflexivity | congruence]].
  unfold base_inode_at. destruct (Z.leb_spec 1 ino); [| lia].
  destruct (lookup_lt_is_Some_2 inodes (Z.to_nat (ino - 1))) as [raw ->]; [lia |].
  destruct (Z.leb_spec (bi_size raw) pos);
    [exists None, 0; split; [reflexivity | congruence] |].
  eexists _, _. split; [reflexivity |]. intros _. lia.
Qed.

Lemma load_length info p n :
  0 <= n -> Z.of_nat (length (load info p n)) <= n.
Proof.
  intros Hn.
  assert (Hb : forall buf off, Z.of_nat (length (bytes_at buf off n)) <= n).
  { intros buf off. unfold bytes_at. rewrite length_take. lia. }
  unfold load. destruct p as [depth entry data_off | offset]; [| apply Hb].
  destruct (current_branch info ≫= _) as [b |]; [| simpl; lia].
  destruct (delta_log b !! entry); [apply Hb | simpl; lia].
Qed.

(** The loop of [daxfs_read_iter] with a destination that takes all that
    is asked for. *)
Lemma read_iter_loop_bounds info ino ki_pos fuel :
  chain_bounded info ->
  base_table_ok info ->
  1 <= ino ->
  forall pos count total room out,
  0 <= count <= room ->
  (Z.to_nat count <= fuel)%nat ->
  exists total' out',
    read_iter_loop fuel info ino ki_pos pos count total room out
    = Some (total', pos + (total' - total), out')
    /\ total <= total' <= total + count
    /\ Z.of_nat (length out') <= Z.of_nat (length out) + (total' - total).
Proof.
  intros Hchain Hbase Hino.
  induction fuel as [| fuel IH]; intros pos count total room out Hcount Hfuel;
    simpl.
  - destruct (Z.ltb_spec 0 count); [lia |].
    exists total, out. rewrite Z.sub_diag, Z.add_0_r.
    split; [reflexivity | lia].
  - destruct (Z.ltb_spec 0 count).
    2:{ exists total, out. rewrite Z.sub_diag, Z.add_0_r.
        split; [reflexivity | lia]. }
    destruct (daxfs_resolve_file_data_total info ino pos count Hchain Hbase
                Hino) as (p & chunk & -> & Hchunk); [lia |].
    destruct p as [src |].
    2:{ exists total, out. rewrite Z.sub_diag, Z.add_0_r.
        split; [reflexivity | lia]. }
    destruct (Hchunk ltac:(discriminate)) as [Hc0 Hc1].
    destruct (Z.eqb_spec chunk 0).
    { exists total, out. rewrite Z.sub_diag, Z.add_0_r.
      split; [reflexivity | lia]. }
    rewrite (Z.min_l chunk room) by lia. rewrite Z.eqb_refl.
    destruct (IH (pos + chunk) (count - chunk) (total + chunk) (room - chunk)
                (out ++ load info src chunk)) as (total' & out' & -> & Ht & Hl);
      [lia | lia |].
    exists total', out'.
    split; [f_equal; f_equal; f_equal; lia |].
    split; [lia |].
    rewrite length_app, Nat2Z.inj_add in Hl.
    pose proof (load_length info src chunk Hc0). lia.
Qed.

(** X11.  [daxfs_read_iter] into a destination that takes all that is
    asked for, over logs that are at most 2^64 - 2^32 bytes long and an
    inode table that covers [base_inode_count]: the call ends; it
    returns no more bytes than were asked for, none at or past
    [i_size], and never reads across [i_size]; [ki_pos] moves on by the
    number returned; and no more bytes are copied out than that. *)
Theorem read_iter_bounds (info : daxfs_info) (inode : vfs_inode)
    (ki_pos count room : Z) :
  chain_bounded info ->
  base_table_ok info ->
  1 <= i_ino inode ->
  0 <= ki_pos ->
  0 <= count <= room ->
  ki_pos + count < 2 ^ 64 ->
  exists ret out,
    daxfs_read_iter info inode ki_pos count room
    = Some (ret, ki_pos + ret, out)
    /\ 0 <= ret <= count
    /\ (i_size inode <= ki_pos -> ret = 0)
    /\ (ki_pos < i_size inode -> ki_pos + ret <= i_size inode)
    /\ Z.of_nat (length out) <= ret.
Proof.
  intros Hchain Hbase Hino Hpos Hcount Hwrap. unfold daxfs_read_iter.
  destruct (Z.leb_spec (i_size inode) ki_pos).
  { exists 0, []. rewrite Z.add_0_r. simpl. split; [reflexivity | lia]. }
  rewrite u64_small by lia.
  set (count' := if i_size inode <? ki_pos + count
                 then i_size inode - ki_pos else count).
  assert (Hc : 0 <= count' <= count /\ ki_pos + count' <= i_size inode).
  { unfold count'. destruct (Z.ltb_spec (i_size inode) (ki_pos + count)); lia. }
  destruct (read_iter_loop_bounds info (i_ino inode) ki_pos
              (Z.to_nat count') Hchain Hbase Hino ki_pos count' 0 room [])
    as (ret & out & -> & Hret & Hlen); [lia | lia |].
  exists ret, out. rewrite Z.sub_0_r. simpl in Hlen.
  split; [reflexivity | lia].
Qed.

Lemma daxfs_resolve_file_data_silent info b ino pos len :
  current_branch info = Some b ->
  Forall (fun b' => delta_size b' <= 2 ^ 64 - 2 ^ 32
                    /\ no_write_of (delta_log b') ino) (branch_chain b) ->
  daxfs_resolve_file_data info ino pos len
  = daxfs_resolve_file_data (set_current_branch info None) ino pos len.
Proof.
  intros Hcur Hall. unfold daxfs_resolve_file_data. rewrite Hcur.
  rewrite (resolve_file_data_delta_silent b ino pos len 0%nat Hall).
  reflexivity.
Qed.

Lemma read_iter_loop_silent info b ino ki_pos fuel :
  current_branch info = Some b ->
  Forall (fun b' => delta_size b' <= 2 ^ 64 - 2 ^ 32
                    /\ no_write_of (delta_log b') ino) (branch_chain b) ->
  forall pos count total room out,
  read_iter_loop fuel info ino ki_pos pos count total room out
  = read_iter_loop fuel (set_current_branch info None) ino ki_pos pos count
                   total room out.
Proof.
  intros Hcur Hall.
  induction fuel as [| fuel IH]; intros pos count total room out; simpl;
    [reflexivity |].
  destruct (0 <? count); [| reflexivity].
  rewrite (daxfs_resolve_file_data_silent info b ino pos count Hcur Hall).
  destruct (daxfs_resolve_file_data (set_current_branch info None) ino pos
              count) as [[[src |] chunk] |] eqn:Er; try reflexivity.
  assert (Hsrc : exists offset, src = PtrMem offset).
  { unfold daxfs_resolve_file_data in Er. simpl in Er.
    destruct (base_inodes info); [| discriminate].
    destruct (ino <=? base_inode_count info); [| discriminate].
    destruct (base_inode_at _ _) as [raw |]; [| discriminate].
    destruct (bi_size raw <=? pos); [discriminate |].
    destruct (daxfs_mem_ptr _ _) as [offset |]; [| discriminate].
    injection Er as <- _. eauto. }
  destruct Hsrc as [offset ->].
  destruct (chunk =? 0); [reflexivity |].
  change (load (set_current_branch info None) (PtrMem offset))
    with (load info (PtrMem offset)).
  rewrite IH. reflexivity.
Qed.

Lemma read_iter_loop_silent_read info b inode ki_pos count room :
  current_branch info = Some b ->
  Forall (fun b' => delta_size b' <= 2 ^ 64 - 2 ^ 32
                    /\ no_write_of (delta_log b') (i_ino inode))
         (branch_chain b) ->
  daxfs_read_iter info inode ki_pos count room
  = daxfs_read_iter (set_current_branch info None) inode ki_pos count room.
Proof.
  intros Hcur Hall.
  unfold daxfs_read_iter. destruct (i_size inode <=? ki_pos); [reflexivity |].
  apply (read_iter_loop_silent info b _ ki_pos _ Hcur Hall).
Qed.

(** X12.  A file of which no log up the chain holds a WRITE record is
    resolved and read as if there were no branch at all:
    [daxfs_resolve_file_data] and [daxfs_read_iter] answer as they do
    with [current_branch] unset, whatever other records the branches
    hold. *)
Theorem untouched_file_reads_base (info : daxfs_info) (b : daxfs_branch_ctx)
    (inode : vfs_inode) (ki_pos count room pos len : Z) :
  current_branch info = Some b ->
  Forall (fun b' => delta_size b' <= 2 ^ 64 - 2 ^ 32
                    /\ no_write_of (delta_log b') (i_ino inode))
         (branch_chain b) ->
  daxfs_resolve_file_data info (i_ino inode) pos len
  = daxfs_resolve_file_data (set_current_branch info None) (i_ino inode)
                            pos len
  /\ daxfs_read_iter info inode ki_pos count room
     = daxfs_read_iter (set_current_branch info None) inode ki_pos count room.
Proof.
  intros Hcur Hall. split.
  - exact (daxfs_resolve_file_data_silent info b _ pos len Hcur Hall).
  - exact (read_iter_loop_silent_read info b inode ki_pos count room Hcur Hall).
Qed.

Lemma read_iter_loop_done fuel info ino ki_pos pos total room out :
  read_iter_loop fuel info ino ki_pos pos 0 total room out
  = Some (total, pos, out).
Proof. destruct fuel; reflexivity. Qed.


(** *** At the sample filesystem *)

Lemma no_write_of_check log ino :
  forallb (fun kv : Z * delta_entry =>
             negb ((u32 (hdr_type (e_hdr kv.2)) =? DAXFS_DELTA_WRITE)
                   && (hdr_ino (e_hdr kv.2) =? ino)))
          (map_to_list log) = true ->
  no_write_of log ino.
Proof.
  intros Hall offset e He [Ht Hi].
  rewrite forallb_forall in Hall.
  specialize (Hall (offset, e)). simpl in Hall.
  rewrite Ht, Hi, !Z.eqb_refl in Hall.
  assert (Hin : In (offset, e) (map_to_list log)).
  { apply list_elem_of_In, elem_of_map_to_list. exact He. }
  specialize (Hall Hin). discriminate.
Qed.

Lemma sample_created_chain :
  branch_chain (branch_of sample_created)
  = [branch_of sample_created; fresh_branch 4096 None].
Proof. by_computation. Qed.

Lemma sample_written_chain :
  branch_chain (branch_of sample_written.1)
  = [branch_of sample_written.1; fresh_branch 4096 None].
Proof. by_computation. Qed.

(** [/a.txt] after "AAAA" has been written: ten bytes asked for, four
    returned. *)
Lemma read_iter_bounds_witness :
  exists ret out,
    daxfs_read_iter sample_written.1 sample_written.2 0 10 10
    = Some (ret, 0 + ret, out)
    /\ 0 <= ret <= 10
    /\ (i_size sample_written.2 <= 0 -> ret = 0)
    /\ (0 < i_size sample_written.2 -> 0 + ret <= i_size sample_written.2)
    /\ Z.of_nat (length out) <= ret.
Proof.
  apply (read_iter_bounds sample_written.1 sample_written.2 0 10 10).
  - unfold chain_bounded.
    assert (Hc : current_branch sample_written.1
                 = Some (branch_of sample_written.1)) by by_computation.
    rewrite Hc, sample_written_chain.
    repeat (apply Forall_cons_2 || apply Forall_nil_2); by_computation.
  - by_computation.
  - by_computation.
  - lia.
  - lia.
  - by_computation.
Defined.

(** The base file [/foo] in the child branch that has created
    [/a.txt]. *)
Lemma untouched_file_reads_base_witness :
  daxfs_resolve_file_data sample_created (i_ino sample_base_file) 0 4
  = daxfs_resolve_file_data (set_current_branch sample_created None)
                            (i_ino sample_base_file) 0 4
  /\ daxfs_read_iter sample_created sample_base_file 0 4 4
     = daxfs_read_iter (set_current_branch sample_created None)
                       sample_base_file 0 4 4.
Proof.
  apply (untouched_file_reads_base sample_created (branch_of sample_created)
           sample_base_file 0 4 4 0 4).
  - by_computation.
  - rewrite sample_created_chain.
    repeat (apply Forall_cons_2 || apply Forall_nil_2);
      (split; [by_computation | apply no_write_of_check; by_computation]).
Defined.


(** ** What a write leaves behind *)

Lemma write_iter_index_walk t inode hdr end_ :
  exists t',
    write_iter_index t inode hdr end_ [] = (t', [])
    /\ exists ie,
         inode_index_walk t' (i_ino inode) = Some ie
         /\ ie_hdr ie = hdr
         /\ ie_size ie
            = match inode_index_walk t (i_ino inode) with
              | Some old => Z.max (ie_size old) end_
              | None => end_
              end
         /\ ie_deleted ie
            = match inode_index_walk t (i_ino inode) with
              | Some old => ie_deleted old
              | None => false
              end.
Proof.
  induction t as [| l IHl e r IHr]; simpl.
  - eexists. split; [reflexivity |]. simpl. rewrite Z.ltb_irrefl.
    eexists. split; [reflexivity |]. simpl. auto.
  - destruct (i_ino inode <? ie_ino e) eqn:E1.
    + destruct IHl as (l' & -> & ie & Hw & Hrest).
      eexists. split; [reflexivity |]. simpl. rewrite E1. eauto.
    + destruct (ie_ino e <? i_ino inode) eqn:E2.
      * destruct IHr as (r' & -> & ie & Hw & Hrest).
        eexists. split; [reflexivity |]. simpl. rewrite E1, E2. eauto.
      * eexists. split; [reflexivity |]. simpl. rewrite E1, E2.
        eexists. split; [reflexivity |]. simpl.
        split; [reflexivity |]. split; [| reflexivity].
        destruct (Z.ltb_spec (ie_size e) end_); lia.
Qed.

Lemma write_iter_index_walk_other t inode hdr end_ o ino' :
  ino' <> i_ino inode ->
  inode_index_walk (write_iter_index t inode hdr end_ o).1 ino'
  = inode_index_walk t ino'.
Proof.
  intros Hne. induction t as [| l IHl e r IHr]; simpl.
  - destruct (kzalloc o) as [[] o']; simpl; [| reflexivity].
    destruct (ino' <? i_ino inode) eqn:E1; [reflexivity |].
    destruct (i_ino inode <? ino') eqn:E2; [reflexivity |]. lia.
  - destruct (i_ino inode <? ie_ino e) eqn:E1.
    + destruct (write_iter_index l inode hdr end_ o) as [l' o'].
      simpl in *. rewrite IHl. reflexivity.
    + destruct (ie_ino e <? i_ino inode) eqn:E2.
      * destruct (write_iter_index r inode hdr end_ o) as [r' o'].
        simpl in *. rewrite IHr. reflexivity.
      * simpl. destruct (ino' <? ie_ino e) eqn:E3; [reflexivity |].
        destruct (ie_ino e <? ino') eqn:E4; [reflexivity |]. lia.
Qed.

(** X14.  A [daxfs_write_iter] of a non-empty buffer that fits the log,
    with the user copy going through and no allocation failing, returns
    the length and moves [ki_pos] on by it; [i_size] becomes the larger of
    what it was and the end of the write; the inode's index entry points
    at the new record and its size is the larger of what it was and the
    end of the write (the end of the write for a new entry), its deleted
    flag as before; the entries of other inodes answer as before. *)
Theorem write_extends_file (info : daxfs_info) (b : daxfs_branch_ctx)
    (inode : vfs_inode) (ki_pos : Z) (from : list byte) (now : Z) :
  let len := Z.of_nat (length from) in
  current_branch info = Some b ->
  from <> [] ->
  0 <= delta_size b ->
  delta_size b + (sizeof_hdr + 16 + len) <= delta_capacity b ->
  delta_capacity b < 2 ^ 64 ->
  0 <= ki_pos -> ki_pos + len < 2 ^ 64 ->
  exists b' inode',
    daxfs_write_iter info inode ki_pos from len now []
    = Some (len, set_current_branch info (Some b'), inode', ki_pos + len, [])
    /\ i_ino inode' = i_ino inode
    /\ i_size inode' = Z.max (i_size inode) (ki_pos + len)
    /\ daxfs_delta_lookup_inode b' (i_ino inode) = Some (delta_size b)
    /\ daxfs_delta_get_size b' (i_ino inode)
       = inl match daxfs_delta_get_size b (i_ino inode) with
             | inl old => Z.max old (ki_pos + len)
             | inr _ => ki_pos + len
             end
    /\ daxfs_delta_is_deleted b' (i_ino inode)
       = daxfs_delta_is_deleted b (i_ino inode)
    /\ forall ino', ino' <> i_ino inode ->
         daxfs_delta_lookup_inode b' ino' = daxfs_delta_lookup_inode b ino'
         /\ daxfs_delta_get_size b' ino' = daxfs_delta_get_size b ino'
         /\ daxfs_delta_is_deleted b' ino' = daxfs_delta_is_deleted b ino'.
Proof.
  intros len Hcur Hfrom Hsz Hfits Hcap Hpos Hwrap.
  assert (Hlen : 0 < len) by (unfold len; destruct from; [done | simpl; lia]).
  unfold daxfs_write_iter. fold len.
  destruct (Z.eqb_spec len 0); [lia |].
  rewrite Hcur.
  rewrite (u64_small (sizeof_hdr + 16 + len)) by (unfold sizeof_hdr in *; lia).
  rewrite daxfs_delta_alloc_fits
    by (rewrite u64_small; unfold sizeof_hdr in *; lia).
  rewrite Z.eqb_refl. simpl negb. cbv iota.
  rewrite (u64_small (ki_pos + len)) by lia.
  match goal with
  | |- context [write_iter_index ?t inode ?h ?e []] =>
      destruct (write_iter_index_walk t inode h e)
        as (t' & Et & ie & Hw & Hh & Hs & Hd);
      pose proof (fun ino' => write_iter_index_walk_other t inode h e [] ino')
        as Hother;
      rewrite Et in Hother |- *
  end.
  simpl in Hother.
  eexists _, _. split; [reflexivity |].
  unfold daxfs_delta_lookup_inode, daxfs_delta_get_size,
    daxfs_delta_is_deleted.
  simpl inode_index in *.
  rewrite Hw. simpl.
  split; [destruct (i_size inode <? ki_pos + len); reflexivity |].
  split; [destruct (Z.ltb_spec (i_size inode) (ki_pos + len)); simpl; lia |].
  split; [rewrite Hh; reflexivity |].
  split; [rewrite Hs; destruct (inode_index_walk (inode_index b) (i_ino inode));
          reflexivity |].
  split; [rewrite Hd; destruct (inode_index_walk (inode_index b) (i_ino inode));
          reflexivity |].
  intros ino' Hne. rewrite (Hother ino' Hne). auto.
Qed.

(** X15.  A [daxfs_write_iter] whose user copy comes up short returns
    [-EFAULT] with the record already in the log: the log is packed with
    the record at its end and [delta_size] has grown by the record's
    size, while the inode, [ki_pos] and both indices are as before. *)
Theorem faulted_write_keeps_record (info : daxfs_info)
    (b : daxfs_branch_ctx) (es : list delta_entry) (inode : vfs_inode)
    (ki_pos : Z) (from : list byte) (copied now : Z) (o : alloc_oracle) :
  let len := Z.of_nat (length from) in
  current_branch info = Some b ->
  log_inv b es ->
  from <> [] ->
  copied <> len ->
  sizeof_hdr + 16 + len < 2 ^ 32 ->
  delta_size b + (sizeof_hdr + 16 + len) <= delta_capacity b ->
  delta_capacity b < 2 ^ 64 ->
  exists b' e,
    daxfs_write_iter info inode ki_pos from copied now o
    = Some (- EFAULT, set_current_branch info (Some b'), inode, ki_pos, o)
    /\ log_inv b' (es ++ [e])
    /\ entry_total_size e = sizeof_hdr + 16 + len
    /\ delta_size b' = delta_size b + (sizeof_hdr + 16 + len)
    /\ inode_index b' = inode_index b
    /\ dirent_index b' = dirent_index b.
Proof.
  intros len Hcur (Hp & Hle & Hdax) Hfrom Hcopied Htot Hfits Hcap.
  pose proof (packed_le _ _ _ _ Hp) as Hsz.
  assert (Hlen : 0 < len) by (unfold len; destruct from; [done | simpl; lia]).
  unfold daxfs_write_iter. fold len.
  destruct (Z.eqb_spec len 0); [lia |].
  rewrite Hcur.
  rewrite (u64_small (sizeof_hdr + 16 + len)) by (unfold sizeof_hdr in *; lia).
  rewrite daxfs_delta_alloc_fits
    by (rewrite u64_small; unfold sizeof_hdr in *; lia).
  rewrite (u64_small (delta_size b + _)) by (unfold sizeof_hdr in *; lia).
  destruct (Z.eqb_spec copied len); [contradiction |]. simpl negb. cbv iota.
  set (e := mk_entry
              (mk_hdr DAXFS_DELTA_WRITE (u32 (sizeof_hdr + 16 + len))
                      (u64 (i_ino inode)) (u64 now))
              (BodyWrite (mk_write (u64 ki_pos) (u32 len) 0))
              (bytes_at from 0 copied
               ++ replicate (Z.to_nat (len - copied)) x00)).
  assert (He : entry_total_size e = sizeof_hdr + 16 + len).
  { unfold entry_total_size. simpl. apply u32_small.
    unfold sizeof_hdr in *. lia. }
  eexists _, e. split; [reflexivity |].
  split; [| split; [exact He | split; [| split]; reflexivity]].
  split; [| split]; simpl; [| lia | reflexivity].
  rewrite <- He. apply packed_snoc; [exact Hp |].
  rewrite He. unfold sizeof_hdr in *. lia.
Qed.

(** *** At the sample filesystem *)

(** "AAAA" written at offset 0 of the new file [/a.txt]. *)
Lemma write_extends_file_witness :
  exists b' inode',
    daxfs_write_iter sample_created sample_file 0
      (bytes "AAAA") 4 1000 []
    = Some (4, set_current_branch sample_created (Some b'), inode', 4, [])
    /\ i_size inode' = 4
    /\ daxfs_delta_lookup_inode b' 3 = Some 53
    /\ daxfs_delta_get_size b' 3 = inl 4.
Proof.
  destruct (write_extends_file sample_created
              (branch_of sample_created) sample_file 0 (bytes "AAAA") 1000)
    as (b' & inode' & E & _ & Hs & Hl & Hg & _).
  - by_computation.
  - by_computation.
  - by_computation.
  - by_computation.
  - by_computation.
  - lia.
  - by_computation.
  - change (i_ino sample_file) with 3 in Hl, Hg.
    exists b', inode'. split; [exact E |].
    split; [rewrite Hs; by_computation |].
    split; [rewrite Hl; by_computation |].
    rewrite Hg. by_computation.
Defined.

(** The same write with the user copy stopping after two bytes. *)
Lemma faulted_write_keeps_record_witness :
  exists b' e,
    daxfs_write_iter sample_created sample_file 0
      (bytes "AAAA") 2 1000 []
    = Some (- EFAULT, set_current_branch sample_created (Some b'),
            sample_file, 0, [])
    /\ log_inv b' (sample_created_entries ++ [e])
    /\ delta_size b' = 97
    /\ inode_index b' = inode_index (branch_of sample_created).
Proof.
  destruct (faulted_write_keeps_record sample_created
              (branch_of sample_created) sample_created_entries sample_file
              0 (bytes "AAAA") 2 1000 [])
    as (b' & e & E & Hinv & _ & Hsz & Hii & _).
  - by_computation.
  - split; [| split; by_computation].
    apply (packed_cons _ 0
             (mk_entry (mk_hdr DAXFS_DELTA_CREATE 53 3 999)
                       (BodyCreate (mk_create 1 3 33188 5 0)) (bytes "a.txt"))
             [] 53); [by_computation | split; by_computation |].
    exact (packed_nil _ 53).
  - by_computation.
  - by_computation.
  - by_computation.
  - by_computation.
  - by_computation.
  - exists b', e. split; [exact E |]. split; [exact Hinv |].
    split; [rewrite Hsz; by_computation | exact Hii].
Defined.

(** ** The storage layer *)

(** X16.  [daxfs_mem_ptr] and [daxfs_mem_offset] undo each other inside
    the mapped window and refuse what lies outside: an offset below
    [size] gives a pointer whose offset is the one given, an offset at or
    past [size] gives NULL; a pointer inside the window gives the offset
    whose pointer it is, a pointer outside gives [(u64)-1]. *)
Theorem mem_ptr_offset_round_trip (info : daxfs_info) (mem_base : Z) :
  (forall offset,
      0 <= offset < size info ->
      exists p,
        daxfs_mem_ptr info offset = Some p
        /\ daxfs_mem_offset info mem_base (mem_base + p) = offset)
  /\ (forall offset, size info <= offset -> daxfs_mem_ptr info offset = None)
  /\ (forall ptr,
        mem_base <= ptr < mem_base + size info ->
        daxfs_mem_ptr info (daxfs_mem_offset info mem_base ptr)
        = Some (ptr - mem_base))
  /\ (forall ptr,
        ptr < mem_base \/ mem_base + size info <= ptr ->
        daxfs_mem_offset info mem_base ptr = U64_MAX).
Proof.
  unfold daxfs_mem_ptr, daxfs_mem_offset. repeat split.
  - intros offset Hoff. exists offset.
    destruct (Z.leb_spec (size info) offset); [lia |].
    split; [reflexivity |].
    destruct (Z.ltb_spec (mem_base + offset) mem_base); [lia |].
    destruct (Z.leb_spec (mem_base + size info) (mem_base + offset)); [lia |].
    simpl. lia.
  - intros offset Hoff.
    destruct (Z.leb_spec (size info) offset); [reflexivity | lia].
  - intros ptr Hptr.
    destruct (Z.ltb_spec ptr mem_base); [lia |].
    destruct (Z.leb_spec (mem_base + size info) ptr); [lia |]. simpl.
    destruct (Z.leb_spec (size info) (ptr - mem_base)); [lia | reflexivity].
  - intros ptr [Hptr | Hptr].
    + destruct (Z.ltb_spec ptr mem_base); [reflexivity | lia].
    + destruct (Z.leb_spec (mem_base + size info) ptr); [| lia].
      rewrite orb_true_r. reflexivity.
Qed.

(** X17.  Two reservations in a row that fit the delta region (no sum
    wrapping): [daxfs_mem_alloc_region] returns the old
    [delta_alloc_offset] for the first and the end of the first for the
    second, so the two ranges lie back to back without overlap; the
    in-memory and the persisted [delta_alloc_offset] end at the end of
    the second. *)
Theorem alloc_regions_are_adjacent (info : daxfs_info) (size1 size2 : Z) :
  let offset := delta_alloc_offset info in
  let region_end :=
    sb_delta_region_offset (super info) + sb_delta_region_size (super info) in
  0 <= offset -> 0 <= size1 -> 0 <= size2 ->
  region_end < 2 ^ 64 ->
  offset + size1 + size2 <= region_end ->
  exists info1 info2,
    daxfs_mem_alloc_region info size1 = (offset, info1)
    /\ daxfs_mem_alloc_region info1 size2 = (offset + size1, info2)
    /\ delta_alloc_offset info2 = offset + size1 + size2
    /\ sb_delta_alloc_offset (super info2) = offset + size1 + size2
    /\ current_branch info2 = current_branch info
    /\ mem info2 = mem info.
Proof.
  intros offset region_end Hoff Hs1 Hs2 Hend Hfit.
  unfold daxfs_mem_alloc_region. fold offset. fold region_end.
  rewrite (u64_small region_end) by lia.
  rewrite (u64_small (offset + size1)) by lia.
  destruct (Z.ltb_spec region_end (offset + size1)); [lia |].
  eexists _, _. split; [reflexivity |]. simpl.
  fold region_end.
  rewrite (u64_small region_end) by lia.
  rewrite (u64_small (offset + size1 + size2)) by lia.
  destruct (Z.ltb_spec region_end (offset + size1 + size2)); [lia |].
  split; [reflexivity |]. simpl. auto.
Qed.

(** *** At the sample filesystem *)

Lemma alloc_regions_are_adjacent_witness :
  exists info1 info2,
    daxfs_mem_alloc_region sample_info 4096 = (12288, info1)
    /\ daxfs_mem_alloc_region info1 8192 = (16384, info2)
    /\ delta_alloc_offset info2 = 24576.
Proof.
  destruct (alloc_regions_are_adjacent sample_info 4096 8192)
    as (info1 & info2 & E1 & E2 & Hoff & _).
  - by_computation.
  - lia.
  - lia.
  - by_computation.
  - by_computation.
  - exists info1, info2. split; [exact E1 |]. split; [exact E2 | exact Hoff].
Defined.

(** The first byte of [/foo] in the mapped window, the window mapped at
    address 4096. *)
Lemma mem_ptr_offset_round_trip_witness :
  daxfs_mem_ptr sample_info 64 = Some 64
  /\ daxfs_mem_offset sample_info 4096 (4096 + 64) = 64
  /\ daxfs_mem_ptr sample_info (size sample_info) = None
  /\ daxfs_mem_offset sample_info 4096 4095 = U64_MAX.
Proof.
  destruct (mem_ptr_offset_round_trip sample_info 4096)
    as (Hin & Hout & _ & Hbad).
  destruct (Hin 64) as (p & Hp & Ho); [split; by_computation |].
  assert (Hp' : daxfs_mem_ptr sample_info 64 = Some 64) by by_computation.
  rewrite Hp' in Hp. injection Hp as <-.
  split; [exact Hp' |]. split; [exact Ho |].
  split; [apply Hout; lia | apply Hbad; left; lia].
Defined.

(** ** Listing a directory *)

Lemma emit_all_app ds1 : forall pos ctx ds2,
  emit_all pos ctx (ds1 ++ ds2)
  = match emit_all pos ctx ds1 with
    | IterReturn c => IterReturn c
    | IterNext pos' c => emit_all pos' c ds2
    end.
Proof.
  induction ds1 as [| d ds1 IH]; intros pos ctx ds2; simpl; [reflexivity |].
  destruct (emit_at pos ctx d); [reflexivity | apply IH].
Qed.

Lemma iterate_base_listing info inodes fuel : forall child_ino pos ctx ds,
  base_listing fuel info inodes child_ino = Some ds ->
  iterate_base fuel info inodes child_ino pos ctx
  = Some (emit_all pos ctx ds).
Proof.
  induction fuel as [| fuel IH]; intros child_ino pos ctx ds; simpl;
    destruct (negb (child_ino =? 0) && (child_ino <=? base_inode_count info));
    try discriminate; try (intros E; injection E as <-; reflexivity).
  destruct (base_inode_at inodes child_ino) as [child |]; [| discriminate].
  destruct (match current_branch info with
            | Some b => deleted_in_chain b child_ino
            | None => false
            end).
  - apply IH.
  - destruct (base_listing fuel info inodes (bi_next_sibling child))
      as [rest |] eqn:Er; [| discriminate].
    simpl. intros E. injection E as <-. simpl.
    destruct (emit_at pos ctx _); [reflexivity |].
    apply IH. exact Er.
Qed.

Lemma iterate_scan_listing above branch dir_ino fuel : forall offset pos ctx ds,
  scan_listing fuel above branch dir_ino offset = Some ds ->
  iterate_scan fuel above branch dir_ino offset pos ctx
  = Some (emit_all pos ctx ds).
Proof.
  induction fuel as [| fuel IH]; intros offset pos ctx ds; simpl;
    destruct (offset <? delta_size branch);
    try discriminate; try (intros E; injection E as <-; reflexivity).
  destruct (u32 (hdr_total_size (hdr_at (delta_log branch) offset)) =? 0);
    [intros E; injection E as <-; reflexivity |].
  destruct (scan_candidate above (delta_log branch) dir_ino offset) as [d |].
  - destruct (scan_listing fuel above branch dir_ino _) as [rest |] eqn:Er;
      [| discriminate].
    simpl. intros E. injection E as <-. simpl.
    destruct (emit_at pos ctx d); [reflexivity |].
    apply IH. exact Er.
  - apply IH.
Qed.

Lemma iterate_branches_listing dir_ino branch : forall above pos ctx ds,
  branches_listing above branch dir_ino = Some ds ->
  iterate_branches above branch dir_ino pos ctx
  = Some (emit_all pos ctx ds).
Proof.
  induction branch as [log sz cap dax ii di | log sz cap dax ii di p IH]
    using branch_ctx_ind; intros above pos ctx ds; simpl;
    destruct (scan_listing _ above _ dir_ino 0) as [here |] eqn:Eh;
    try discriminate;
    rewrite (iterate_scan_listing _ _ _ _ _ pos ctx _ Eh).
  - intros E. injection E as <-. destruct (emit_all pos ctx here); reflexivity.
  - destruct (branches_listing _ p dir_ino) as [rest |] eqn:Er;
      [| discriminate].
    simpl. intros E. injection E as <-. rewrite emit_all_app.
    destruct (emit_all pos ctx here) as [c | pos' c]; [reflexivity |].
    apply IH. exact Er.
Qed.

(** What a run of [emit_at] calls comes to: the entries before
    [ctx->pos] are passed over, the actor takes of the rest what it has
    room for, and [ctx->pos] ends behind the last entry taken. *)
Lemma emit_all_closed ds : forall pos ctx,
  pos <= ctx_pos ctx ->
  iter_ctx (emit_all pos ctx ds)
  = ctx_after ctx (take (ctx_room ctx)
                        (drop (Z.to_nat (ctx_pos ctx - pos)) ds)).
Proof.
  assert (Hid : forall ctx, ctx = ctx_after ctx []).
  { intros [p r o]. unfold ctx_after. simpl.
    rewrite Z.add_0_r, Nat.sub_0_r, app_nil_r. reflexivity. }
  induction ds as [| d ds IH]; intros pos ctx Hpos; simpl.
  - rewrite drop_nil, take_nil. apply Hid.
  - unfold emit_at.
    destruct (Z.leb_spec (ctx_pos ctx) pos).
    + replace (ctx_pos ctx - pos) with 0 by lia. simpl.
      unfold dir_emit. destruct ctx as [p [| room] out]; simpl in *.
      * apply (Hid (mk_dir_context p 0 out)).
      * rewrite IH by (simpl; lia). simpl.
        replace (pos + 1 - (pos + 1)) with 0 by lia.
        change (Z.to_nat 0) with 0%nat. rewrite !drop_0.
        unfold ctx_after. simpl. rewrite <- app_assoc. simpl.
        f_equal. lia.
    + simpl. rewrite IH by lia.
      replace (Z.to_nat (ctx_pos ctx - pos))
        with (S (Z.to_nat (ctx_pos ctx - (pos + 1)))) by lia.
      reflexivity.
Qed.

Lemma iterate_entries_listing info dir_ino ctx listing :
  dir_listing info dir_ino = Some listing ->
  iterate_entries info dir_ino ctx = Some (iter_ctx (emit_all 2 ctx listing)).
Proof.
  unfold dir_listing, iterate_entries. intros Hl.
  assert (Hbranches : forall from_base,
             match current_branch info with
             | Some b => (from_base ++.) <$> branches_listing [] b dir_ino
             | None => Some from_base
             end = Some listing ->
             match emit_all 2 ctx from_base with
             | IterReturn c => Some c
             | IterNext pos' c =>
                 match current_branch info with
                 | Some b =>
                     match iterate_branches [] b dir_ino pos' c with
                     | None => None
                     | Some (IterReturn c') => Some c'
                     | Some (IterNext _ c') => Some c'
                     end
                 | None => Some c
                 end
             end = Some (iter_ctx (emit_all 2 ctx listing))).
  { intros from_base E.
    destruct (current_branch info) as [b |].
    - destruct (branches_listing [] b dir_ino) as [rest |] eqn:Er;
        [| discriminate].
      simpl in E. injection E as <-. rewrite emit_all_app.
      destruct (emit_all 2 ctx from_base) as [c | pos' c]; [reflexivity |].
      rewrite (iterate_branches_listing _ _ _ pos' c _ Er).
      destruct (emit_all pos' c rest); reflexivity.
    - injection E as <-.
      destruct (emit_all 2 ctx from_base); reflexivity. }
  destruct (base_inodes info) as [inodes |]; [| exact (Hbranches [] Hl)].
  destruct (dir_ino <=? base_inode_count info); [| exact (Hbranches [] Hl)].
  destruct (base_inode_at inodes dir_ino) as [dir_raw |]; [| discriminate].
  destruct (base_listing _ info inodes (bi_first_child dir_raw))
    as [from_base |] eqn:Eb; [| discriminate].
  rewrite (iterate_base_listing _ _ _ _ 2 ctx _ Eb).
  exact (Hbranches from_base Hl).
Qed.

Lemma ctx_after_cons p room out d em :
  ctx_after (mk_dir_context p (S room) out) (d :: em)
  = ctx_after (mk_dir_context (p + 1) room (out ++ [d])) em.
Proof.
  unfold ctx_after. simpl ctx_pos. simpl ctx_room. simpl ctx_out.
  rewrite <- app_assoc. simpl length. rewrite Nat2Z.inj_succ.
  f_equal. lia.
Qed.

Lemma ctx_after_nil ctx : ctx_after ctx [] = ctx.
Proof.
  destruct ctx as [p r o]. unfold ctx_after. simpl.
  rewrite Z.add_0_r, Nat.sub_0_r, app_nil_r. reflexivity.
Qed.

(** [daxfs_iterate] in closed form. *)
Lemma daxfs_iterate_closed (info : daxfs_info) (dir_ino parent_ino : Z)
    (ctx : dir_context) (listing : list dir_entry) :
  dir_listing info dir_ino = Some listing ->
  0 <= ctx_pos ctx ->
  daxfs_iterate info dir_ino parent_ino ctx
  = Some (ctx_after ctx
            (take (ctx_room ctx)
                  (drop (Z.to_nat (ctx_pos ctx))
                        (dot_entries dir_ino parent_ino ++ listing)))).
Proof.
  intros Hl Hpos.
  assert (Hrest : forall c,
             2 <= ctx_pos c ->
             iterate_entries info dir_ino c
             = Some (ctx_after c
                       (take (ctx_room c)
                             (drop (Z.to_nat (ctx_pos c - 2)) listing)))).
  { intros c Hc. rewrite (iterate_entries_listing _ _ _ _ Hl).
    rewrite emit_all_closed by exact Hc. reflexivity. }
  unfold daxfs_iterate, dir_emit_dots, dir_emit.
  destruct ctx as [p room out]. simpl in *.
  destruct (Z.eqb_spec p 0) as [-> | Hp0].
  - (* from the start *)
    destruct room as [| [| room]]; simpl.
    + rewrite ctx_after_nil. reflexivity.
    + rewrite ctx_after_cons, ctx_after_nil. reflexivity.
    + rewrite Hrest by (simpl; lia). simpl.
      rewrite !ctx_after_cons. reflexivity.
  - simpl. destruct (Z.eqb_spec p 1) as [-> | Hp1].
    + destruct room as [| room]; simpl.
      * rewrite ctx_after_nil. reflexivity.
      * rewrite Hrest by (simpl; lia). simpl.
        rewrite ctx_after_cons. reflexivity.
    + rewrite Hrest by (simpl; lia). simpl.
      replace (Z.to_nat p) with (S (S (Z.to_nat (p - 2)))) by lia.
      reflexivity.
Qed.

(** X18.  [daxfs_iterate] with [ctx->pos] not negative, on a directory
    whose listing comes to an end: the actor is handed ".", ".." and the
    entries of the listing from position [ctx->pos] on, in order, as many
    as it takes, after what it held already; [ctx->pos] ends behind the
    last entry handed over. *)
Theorem iterate_resumes (info : daxfs_info) (dir_ino parent_ino : Z)
    (ctx : dir_context) (listing : list dir_entry) :
  dir_listing info dir_ino = Some listing ->
  0 <= ctx_pos ctx ->
  daxfs_iterate info dir_ino parent_ino ctx
  = Some (ctx_after ctx
            (take (ctx_room ctx)
                  (drop (Z.to_nat (ctx_pos ctx))
                        (dot_entries dir_ino parent_ino ++ listing)))).
Proof.
  intros Hl Hpos.
  rewrite (daxfs_iterate_closed info dir_ino parent_ino ctx listing Hl Hpos).
  reflexivity.
Qed.

(** X19.  Reading a directory in two calls gives what one call gives:
    if a call with room for [room1] entries is followed by a call that
    starts at the position the first one left and has room for [room2],
    the second ends with the entries, the position and the room left
    over of a single call with room for [room1 + room2]. *)
Theorem iterate_in_two_calls (info : daxfs_info) (dir_ino parent_ino : Z)
    (listing : list dir_entry) (pos : Z) (room1 room2 : nat)
    (out : list dir_entry) (c1 c2 : dir_context) :
  dir_listing info dir_ino = Some listing ->
  0 <= pos ->
  daxfs_iterate info dir_ino parent_ino (mk_dir_context pos room1 out)
  = Some c1 ->
  daxfs_iterate info dir_ino parent_ino
    (mk_dir_context (ctx_pos c1) room2 (ctx_out c1)) = Some c2 ->
  daxfs_iterate info dir_ino parent_ino
    (mk_dir_context pos (room1 + room2) out)
  = Some (mk_dir_context (ctx_pos c2) (ctx_room c1 + ctx_room c2)
                         (ctx_out c2)).
Proof.
  intros Hl Hpos E1 E2.
  pose proof (fun ctx => daxfs_iterate_closed info dir_ino parent_ino ctx
                          listing Hl) as Hres.
  set (full := dot_entries dir_ino parent_ino ++ listing) in Hres.
  clearbody full.
  rewrite Hres in E1 by exact Hpos.
  injection E1 as <-.
  rewrite Hres in E2 by (simpl; lia).
  injection E2 as <-.
  rewrite Hres by exact Hpos.
  unfold ctx_after. cbn [ctx_pos ctx_room ctx_out].
  set (rest := drop (Z.to_nat pos) full).
  set (em1 := take room1 rest).
  assert (Hdrop : drop (Z.to_nat (pos + Z.of_nat (length em1))) full
                  = drop room1 rest).
  { assert (Hlen : length em1 = Nat.min room1 (length rest))
      by (unfold em1; apply length_take).
    assert (Hrest : length rest = (length full - Z.to_nat pos)%nat)
      by (unfold rest; apply length_drop).
    unfold rest. rewrite drop_drop.
    replace (Z.to_nat (pos + Z.of_nat (length em1)))
      with (Z.to_nat pos + length em1)%nat by lia.
    destruct (Nat.le_gt_cases room1 (length rest)) as [Hle | Hgt].
    - rewrite Hlen, Nat.min_l by exact Hle. reflexivity.
    - rewrite !drop_ge by lia. reflexivity. }
  rewrite Hdrop.
  set (em2 := take room2 (drop room1 rest)).
  assert (Hem : take (room1 + room2) rest = em1 ++ em2)
    by (symmetry; apply take_take_drop).
  rewrite Hem.
  rewrite length_app, Nat2Z.inj_add, <- app_assoc.
  assert (length em1 <= room1)%nat by (unfold em1; rewrite length_take; lia).
  assert (length em2 <= room2)%nat by (unfold em2; rewrite length_take; lia).
  f_equal. f_equal; lia.
Qed.

(** *** What a listing holds *)

(** The scan of a packed log comes across every entry. *)
Lemma scan_listing_packed above b dir_ino offset es fuel :
  packed (delta_log b) offset es (delta_size b) ->
  0 <= offset -> delta_size b < 2 ^ 64 ->
  (Z.to_nat (delta_size b - offset) <= fuel)%nat ->
  scan_listing fuel above b dir_ino offset
  = Some (omap (fun oe : Z * delta_entry =>
                  scan_candidate above (delta_log b) dir_ino oe.1)
               (with_offsets offset es)).
Proof.
  remember (delta_size b) as end_ eqn:Hend.
  intros Hp. revert fuel.
  induction Hp as [offset | offset e es end_ Hlook Hsz Hp IH];
    intros fuel Hoff Hlt Hfuel.
  - destruct fuel; simpl; rewrite <- Hend, Z.ltb_irrefl; reflexivity.
  - pose proof (packed_le _ _ _ _ Hp) as Hle.
    unfold entry_total_size in *.
    destruct fuel as [| fuel]; [lia |]. simpl. rewrite <- Hend.
    destruct (Z.ltb_spec offset end_); [| lia].
    unfold hdr_at, entry_total_size. rewrite Hlook. rewrite u32_small by lia.
    rewrite (u64_small (offset + _)) by lia.
    destruct (Z.eqb_spec (hdr_total_size (e_hdr e)) 0); [lia |].
    rewrite (IH Hend) by lia.
    destruct (scan_candidate above (delta_log b) dir_ino offset); reflexivity.
Qed.

Lemma branches_listing_here above b dir_ino listing :
  branches_listing above b dir_ino = Some listing ->
  exists here rest,
    scan_listing (Z.to_nat (delta_size b)) above b dir_ino 0 = Some here
    /\ listing = here ++ rest.
Proof.
  destruct b as [log sz cap dax ii di [p |]]; simpl;
    destruct (scan_listing _ above _ dir_ino 0) as [here |];
    try discriminate.
  - destruct (branches_listing _ p dir_ino) as [rest |]; [| discriminate].
    simpl. intros E. injection E as <-. eauto.
  - intros E. injection E as <-. exists here, []. rewrite app_nil_r. auto.
Qed.

Lemma dir_listing_current info b dir_ino listing :
  current_branch info = Some b ->
  dir_listing info dir_ino = Some listing ->
  exists from_base here rest,
    scan_listing (Z.to_nat (delta_size b)) [] b dir_ino 0 = Some here
    /\ listing = from_base ++ here ++ rest.
Proof.
  intros Hcur. unfold dir_listing. rewrite Hcur.
  destruct (match base_inodes info with
            | Some inodes => _
            | None => _
            end) as [from_base |]; [| discriminate].
  destruct (branches_listing [] b dir_ino) as [bl |] eqn:Eb; [| discriminate].
  simpl. intros E. injection E as <-.
  destruct (branches_listing_here _ _ _ _ Eb) as (here & rest & Hh & ->).
  eauto.
Qed.

(** A CREATE or MKDIR record appended to a packed log of the current
    branch is in the listing of its directory. *)
Lemma create_entry_then_listed `{Jhash} info b es type dir_ino name mode
    new_ino now o info' o' listing :
  type = DAXFS_DELTA_CREATE \/ type = DAXFS_DELTA_MKDIR ->
  current_branch info = Some b ->
  log_inv b es ->
  delta_capacity b <= 2 ^ 64 - 2 ^ 32 ->
  0 <= dir_ino < 2 ^ 64 ->
  Z.of_nat (length name) < 2 ^ 16 ->
  create_entry info type dir_ino name mode new_ino now o = Some (0, info', o') ->
  dir_listing info' dir_ino = Some listing ->
  mk_dir_entry name (u64 new_ino) (dtype_of_mode (u32 mode)) ∈ listing.
Proof.
  intros Ht Hcur (Hp & Hle & Hdax) Hcap Hdir Hlen Hc Hl.
  pose proof (packed_le _ _ _ _ Hp) as Hsz.
  unfold create_entry in Hc.
  destruct (daxfs_name_exists info dir_ino name _) as [[? |] |];
    try discriminate.
  rewrite Hcur in Hc.
  destruct (kzalloc o) as [[] o1]; [| discriminate].
  destruct (daxfs_delta_append b type new_ino _ name now o1)
    as [[ret b'] o2] eqn:Ea.
  injection Hc as -> <- <-.
  destruct (daxfs_delta_append_ok _ _ _ _ _ _ _ _ _ Ea)
    as (Hfit & Hlog & Hsize & _).
  set (e := appended_entry type new_ino
              (BodyCreate (mk_create (u64 dir_ino) (u64 new_ino) (u32 mode)
                             (u16 (Z.of_nat (length name))) 0))
              name now) in *.
  assert (Htotal : u64 (sizeof_hdr + (24 + Z.of_nat (length name)))
                   = sizeof_hdr + (24 + Z.of_nat (length name)))
    by (apply u64_small; unfold sizeof_hdr; lia).
  assert (Hesz : entry_total_size e
                 = sizeof_hdr + (24 + Z.of_nat (length name))).
  { unfold e, appended_entry, entry_total_size. simpl. rewrite Htotal.
    apply u32_small. unfold sizeof_hdr. lia. }
  simpl sizeof_body in Hfit, Hsize. rewrite Htotal, <- Hesz in Hfit, Hsize.
  rewrite u64_small in Hfit, Hsize by (rewrite Hesz; unfold sizeof_hdr; lia).
  assert (Hcur' : current_branch
                    (set_current_branch
                       (if sb_next_inode_id (super info) <=? new_ino
                        then set_next_inode_id info (u64 (new_ino + 1))
                        else info) (Some b')) = Some b') by reflexivity.
  destruct (dir_listing_current _ _ _ _ Hcur' Hl)
    as (from_base & here & rest & Hhere & ->).
  assert (Hp' : packed (delta_log b') 0 (es ++ [e]) (delta_size b')).
  { rewrite Hlog, Hsize. apply packed_snoc; [exact Hp |].
    rewrite Hesz. unfold sizeof_hdr. lia. }
  rewrite (scan_listing_packed [] b' dir_ino 0 (es ++ [e])) in Hhere;
    [| exact Hp' | lia | rewrite Hsize, Hesz; unfold sizeof_hdr; lia | lia].
  injection Hhere as <-.
  rewrite !elem_of_app. right. left.
  rewrite with_offsets_app, omap_app, elem_of_app. right.
  rewrite (packed_sum _ _ _ _ Hp), Z.sub_0_r, Z.add_0_l. simpl.
  unfold scan_candidate, hdr_at. rewrite Hlog, lookup_insert_eq.
  assert (Hty : bool_decide (u32 (hdr_type (e_hdr e)) = DAXFS_DELTA_CREATE
                             \/ u32 (hdr_type (e_hdr e)) = DAXFS_DELTA_MKDIR)
                = true).
  { apply bool_decide_eq_true. unfold e, appended_entry. simpl.
    rewrite u32_small by apply u32_range.
    destruct Ht as [-> | ->]; [left | right]; reflexivity. }
  rewrite Hty. unfold e, appended_entry. simpl.
  rewrite (u64_small dir_ino), Z.eqb_refl by lia. simpl.
  rewrite u16_small, bytes_at_all by lia.
  apply list_elem_of_here.
Qed.

(** X20.  After a [daxfs_create] or [daxfs_mkdir] that returns 0 in a
    current branch whose log is packed (directory inode number within 64
    bits, name shorter than 2^16 bytes), a listing of the directory holds
    the new name with the new inode number and the type of the mode
    recorded, whether or not the index allocations went through. *)
Theorem create_then_listed `{Jhash} (info info' : daxfs_info)
    (b : daxfs_branch_ctx) (es : list delta_entry) (dir_ino : Z)
    (name : list byte) (mode new_ino now : Z) (o o' : alloc_oracle)
    (listing : list dir_entry) :
  current_branch info = Some b ->
  log_inv b es ->
  delta_capacity b <= 2 ^ 64 - 2 ^ 32 ->
  0 <= dir_ino < 2 ^ 64 ->
  Z.of_nat (length name) < 2 ^ 16 ->
  (daxfs_create info dir_ino name mode new_ino now o = Some (0, info', o') ->
   dir_listing info' dir_ino = Some listing ->
   mk_dir_entry name (u64 new_ino) (dtype_of_mode (u32 mode)) ∈ listing)
  /\ (daxfs_mkdir info dir_ino name mode new_ino now o = Some (0, info', o') ->
      dir_listing info' dir_ino = Some listing ->
      mk_dir_entry name (u64 new_ino)
                   (dtype_of_mode (u32 (Z.lor mode S_IFDIR))) ∈ listing).
Proof.
  intros Hcur Hinv Hcap Hdir Hlen. split; intros Hc Hl.
  - eapply create_entry_then_listed; try exact Hc; eauto.
  - eapply create_entry_then_listed; try exact Hc; eauto.
Qed.

Lemma base_listing_not_deleted info inodes fuel : forall child_ino listing d,
  base_listing fuel info inodes child_ino = Some listing ->
  d ∈ listing ->
  match current_branch info with
  | Some b => deleted_in_chain b (d_ino d)
  | None => false
  end = false.
Proof.
  induction fuel as [| fuel IH]; intros child_ino listing d; simpl;
    destruct (negb (child_ino =? 0) && (child_ino <=? base_inode_count info));
    try discriminate;
    try (intros E; injection E as <-; intros Hin; inversion Hin).
  destruct (base_inode_at inodes child_ino) as [child |]; [| discriminate].
  destruct (match current_branch info with
            | Some b => deleted_in_chain b child_ino
            | None => false
            end) eqn:Hdel; [apply IH |].
  destruct (base_listing fuel info inodes (bi_next_sibling child))
    as [rest |] eqn:Er; [| discriminate].
  simpl. intros E. injection E as <-. intros Hin.
  apply elem_of_cons in Hin as [-> | Hin]; [exact Hdel |].
  exact (IH _ _ _ Er Hin).
Qed.

Lemma scan_listing_candidate above b dir_ino fuel : forall offset listing d,
  scan_listing fuel above b dir_ino offset = Some listing ->
  d ∈ listing ->
  exists offset', scan_candidate above (delta_log b) dir_ino offset' = Some d.
Proof.
  induction fuel as [| fuel IH]; intros offset listing d; simpl;
    destruct (offset <? delta_size b);
    try discriminate;
    try (intros E; injection E as <-; intros Hin; inversion Hin).
  destruct (u32 (hdr_total_size (hdr_at (delta_log b) offset)) =? 0);
    [intros E; injection E as <-; intros Hin; inversion Hin |].
  destruct (scan_candidate above (delta_log b) dir_ino offset) as [d0 |] eqn:Ec;
    [| apply IH].
  destruct (scan_listing fuel above b dir_ino _) as [rest |] eqn:Er;
    [| discriminate].
  simpl. intros E. injection E as <-. intros Hin.
  apply elem_of_cons in Hin as [-> | Hin]; [eauto |].
  exact (IH _ _ _ Er Hin).
Qed.

Lemma branches_listing_candidate dir_ino b : forall above listing d,
  branches_listing above b dir_ino = Some listing ->
  d ∈ listing ->
  (exists offset, scan_candidate above (delta_log b) dir_ino offset = Some d)
  \/ (exists further b' offset,
        scan_candidate (above ++ b :: further) (delta_log b') dir_ino offset
        = Some d).
Proof.
  induction b as [log sz cap dax ii di | log sz cap dax ii di p IH]
    using branch_ctx_ind; intros above listing d; simpl;
    destruct (scan_listing _ above _ dir_ino 0) as [here |] eqn:Eh;
    try discriminate.
  - intros E. injection E as <-. intros Hin. left.
    exact (scan_listing_candidate _ _ _ _ _ _ _ Eh Hin).
  - destruct (branches_listing _ p dir_ino) as [rest |] eqn:Er;
      [| discriminate].
    simpl. intros E. injection E as <-. intros Hin.
    apply elem_of_app in Hin as [Hin | Hin].
    + left. exact (scan_listing_candidate _ _ _ _ _ _ _ Eh Hin).
    + right. destruct (IH _ _ _ Er Hin)
        as [[offset Hc] | (further & b' & offset & Hc)].
      * exists [], p, offset. exact Hc.
      * exists (p :: further), b', offset.
        rewrite <- app_assoc in Hc. exact Hc.
Qed.

Lemma scan_candidate_record above log dir_ino offset d :
  scan_candidate above log dir_ino offset = Some d ->
  deleted_above above (d_ino d) = false
  /\ exists e cr,
       log !! offset = Some e
       /\ e_body e = BodyCreate cr
       /\ cr_new_ino cr = d_ino d
       /\ (u32 (hdr_type (e_hdr e)) = DAXFS_DELTA_CREATE
           \/ u32 (hdr_type (e_hdr e)) = DAXFS_DELTA_MKDIR).
Proof.
  unfold scan_candidate, hdr_at. intros E.
  match type of E with
  | context [bool_decide ?P] => destruct (bool_decide P) eqn:Ht
  end; [| discriminate].
  apply bool_decide_eq_true in Ht.
  destruct (log !! offset) as [[hdr body payload] |]; [| discriminate].
  destruct body as [| cr | | | |]; try discriminate.
  destruct (cr_parent_ino cr =? dir_ino); [| discriminate]. simpl in E.
  destruct (deleted_above above (cr_new_ino cr)) eqn:Hd; [discriminate |].
  simpl in E. injection E as <-. simpl.
  split; [exact Hd |]. eexists _, cr. split; [reflexivity |]. auto.
Qed.

(** What an unlink with no allocation failing leaves in the current
    branch. *)
Lemma unlink_state `{Jhash} info b dir_ino name inode_ino now info' o' :
  current_branch info = Some b ->
  daxfs_unlink info dir_ino name inode_ino now [] = Some (0, info', o') ->
  exists b' del,
    current_branch info' = Some b'
    /\ delta_log b'
       = <[delta_size b := appended_entry DAXFS_DELTA_DELETE inode_ino
                             (BodyDelete del) name now]> (delta_log b)
    /\ daxfs_delta_is_deleted b' inode_ino = true.
Proof.
  intros Hcur. unfold daxfs_unlink. rewrite Hcur.
  simpl kzalloc. cbv iota beta.
  destruct (daxfs_delta_append b DAXFS_DELTA_DELETE inode_ino _ name now [])
    as [[ret b'] o2] eqn:Ea.
  intros E. inversion E; subst ret info' o2; clear E.
  apply daxfs_delta_append_ok in Ea.
  destruct Ea as (_ & Hlog & _ & b2 & Hlog2 & _ & _ & _ & Hreq).
  simpl in Hreq.
  destruct (index_add_inode_quiet b2 inode_ino (delta_size b) true
              U64_MAX U32_MAX) as [b3 [E3 Hd]].
  rewrite E3 in Hreq.
  destruct (index_add_dirent b3 _ _ _ (delta_size b) true [])
    as [[ret4 b4] o4] eqn:E4.
  injection Hreq as -> _.
  eexists b4, _. split; [reflexivity |]. split; [exact Hlog |].
  unfold daxfs_delta_is_deleted in *.
  destruct (index_add_dirent_inode_index _ _ _ _ _ _ _ _ _ _ E4) as (-> & _).
  exact Hd.
Qed.

(** X21.  After a [daxfs_unlink] that returns 0 with no allocation
    failing, of an inode that no CREATE or MKDIR record of the current
    branch's log makes, no listing of any directory holds an entry with
    that inode number: entries of the base image and of parent branches
    are left out. *)
Theorem unlinked_is_not_listed `{Jhash} (info info' : daxfs_info)
    (b : daxfs_branch_ctx) (dir_ino : Z) (name : list byte)
    (inode_ino now : Z) (o' : alloc_oracle) (listed_dir : Z)
    (listing : list dir_entry) :
  current_branch info = Some b ->
  no_create_of (delta_log b) inode_ino ->
  daxfs_unlink info dir_ino name inode_ino now [] = Some (0, info', o') ->
  dir_listing info' listed_dir = Some listing ->
  forall d, d ∈ listing -> d_ino d <> inode_ino.
Proof.
  intros Hcur Hno Hu Hl d Hin Hino.
  destruct (unlink_state _ _ _ _ _ _ _ _ Hcur Hu)
    as (b' & del & Hcur' & Hlog & Hdel).
  assert (Hchain : deleted_in_chain b' inode_ino = true).
  { destruct b' as [log sz cap dax ii di pa]. simpl.
    simpl in Hdel. rewrite Hdel. reflexivity. }
  unfold dir_listing in Hl. rewrite Hcur' in Hl.
  destruct (match base_inodes info' with
            | Some inodes => _
            | None => _
            end) as [from_base |] eqn:Ebase; [| discriminate].
  destruct (branches_listing [] b' listed_dir) as [bl |] eqn:Eb;
    [| discriminate].
  simpl in Hl. injection Hl as <-.
  apply elem_of_app in Hin as [Hin | Hin].
  - (* from the base image *)
    destruct (base_inodes info') as [inodes |];
      [| injection Ebase as <-; inversion Hin].
    destruct (listed_dir <=? base_inode_count info');
      [| injection Ebase as <-; inversion Hin].
    destruct (base_inode_at inodes listed_dir) as [dir_raw |];
      [| discriminate].
    pose proof (base_listing_not_deleted _ _ _ _ _ _ Ebase Hin) as Hnd.
    rewrite Hcur', Hino, Hchain in Hnd. discriminate.
  - (* from the delta logs *)
    destruct (branches_listing_candidate _ _ _ _ _ Eb Hin)
      as [[offset Hc] | (further & b2 & offset & Hc)];
      apply scan_candidate_record in Hc
        as (Hnd & e & cr & He & Hbody & Hnew & Hty).
    + rewrite Hlog in He.
      destruct (decide (offset = delta_size b)) as [-> | Hne].
      * rewrite lookup_insert_eq in He. injection He as <-.
        discriminate Hbody.
      * rewrite lookup_insert_ne in He by congruence.
        apply (Hno _ _ _ He Hbody). congruence.
    + simpl in Hnd. rewrite Hino, Hdel in Hnd. discriminate.
Qed.

(** *** At the sample filesystem *)

Lemma sample_created_listing :
  dir_listing sample_created 1 = Some [sample_foo_entry; sample_a_txt_entry].
Proof. by_computation. Qed.

(** The root directory from the start, with room for three entries. *)
Lemma iterate_resumes_witness :
  daxfs_iterate sample_created 1 1 (mk_dir_context 0 3 [])
  = Some (mk_dir_context 3 0
            (dot_entries 1 1 ++ [sample_foo_entry])).
Proof.
  rewrite (iterate_resumes sample_created 1 1 (mk_dir_context 0 3 [])
             [sample_foo_entry; sample_a_txt_entry]).
  - reflexivity.
  - exact sample_created_listing.
  - simpl. lia.
Defined.

(** The same directory read one entry first, then three. *)
Lemma iterate_in_two_calls_witness :
  daxfs_iterate sample_created 1 1 (mk_dir_context 0 1 [])
  = Some (mk_dir_context 1 0 [mk_dir_entry (bytes ".") 1 DT_DIR])
  /\ daxfs_iterate sample_created 1 1
       (mk_dir_context 1 3 [mk_dir_entry (bytes ".") 1 DT_DIR])
     = Some (mk_dir_context 4 0
               (dot_entries 1 1 ++ [sample_foo_entry; sample_a_txt_entry]))
  /\ daxfs_iterate sample_created 1 1 (mk_dir_context 0 (1 + 3) [])
     = Some (mk_dir_context 4 (0 + 0)
               (dot_entries 1 1 ++ [sample_foo_entry; sample_a_txt_entry])).
Proof.
  assert (E1 : daxfs_iterate sample_created 1 1 (mk_dir_context 0 1 [])
               = Some (mk_dir_context 1 0 [mk_dir_entry (bytes ".") 1 DT_DIR]))
    by by_computation.
  assert (E2 : daxfs_iterate sample_created 1 1
                 (mk_dir_context 1 3 [mk_dir_entry (bytes ".") 1 DT_DIR])
               = Some (mk_dir_context 4 0
                         (dot_entries 1 1
                          ++ [sample_foo_entry; sample_a_txt_entry])))
    by by_computation.
  split; [exact E1 |]. split; [exact E2 |].
  exact (iterate_in_two_calls sample_created 1 1
           [sample_foo_entry; sample_a_txt_entry] 0 1 3 []
           _ _ sample_created_listing ltac:(lia) E1 E2).
Defined.

Lemma create_then_listed_witness :
  @daxfs_create sample_jhash sample_info 1 (bytes "a.txt") 33188 3 999 []
  = Some (0, sample_created, [])
  /\ dir_listing sample_created 1
     = Some [sample_foo_entry; sample_a_txt_entry]
  /\ mk_dir_entry (bytes "a.txt") (u64 3) (dtype_of_mode (u32 33188))
     ∈ [sample_foo_entry; sample_a_txt_entry].
Proof.
  assert (E : @daxfs_create sample_jhash sample_info 1 (bytes "a.txt") 33188
                3 999 [] = Some (0, sample_created, [])) by by_computation.
  split; [exact E |]. split; [exact sample_created_listing |].
  destruct (@create_then_listed sample_jhash sample_info sample_created
              (branch_of sample_info) [] 1 (bytes "a.txt") 33188 3 999 [] []
              [sample_foo_entry; sample_a_txt_entry]) as [Hc _].
  - by_computation.
  - split; [exact (packed_nil _ 0) | split; by_computation].
  - by_computation.
  - lia.
  - by_computation.
  - exact (Hc E sample_created_listing).
Defined.

Lemma no_create_of_check log ino :
  forallb (fun kv : Z * delta_entry =>
             match e_body kv.2 with
             | BodyCreate cr => negb (cr_new_ino cr =? ino)
             | _ => true
             end)
          (map_to_list log) = true ->
  no_create_of log ino.
Proof.
  intros Hall offset e cr He Hbody Hino.
  rewrite forallb_forall in Hall.
  specialize (Hall (offset, e)). simpl in Hall.
  rewrite Hbody, Hino, Z.eqb_refl in Hall.
  assert (Hin : In (offset, e) (map_to_list log)).
  { apply list_elem_of_In, elem_of_map_to_list. exact He. }
  specialize (Hall Hin). discriminate.
Qed.

Lemma unlinked_is_not_listed_witness :
  @daxfs_unlink sample_jhash sample_created 1 (bytes "foo") 2 1000 []
  = Some (0, sample_created_unlinked, [])
  /\ dir_listing sample_created_unlinked 1 = Some [sample_a_txt_entry]
  /\ forall d, d ∈ [sample_a_txt_entry] -> d_ino d <> 2.
Proof.
  assert (E : @daxfs_unlink sample_jhash sample_created 1 (bytes "foo") 2
                1000 [] = Some (0, sample_created_unlinked, []))
    by by_computation.
  assert (Hl : dir_listing sample_created_unlinked 1
               = Some [sample_a_txt_entry]) by by_computation.
  split; [exact E |]. split; [exact Hl |].
  apply (@unlinked_is_not_listed sample_jhash sample_created
           sample_created_unlinked (branch_of sample_created) 1 (bytes "foo")
           2 1000 [] 1 [sample_a_txt_entry]).
  - by_computation.
  - apply no_create_of_check. by_computation.
  - exact E.
  - exact Hl.
Defined.

(** ** Filling a folio *)

Lemma folio_write_all folio data :
  length data = length folio -> folio_write folio 0 data = data.
Proof.
  intros Hlen. unfold folio_write. simpl.
  rewrite drop_ge by lia. apply app_nil_r.
Qed.

Lemma folio_write_head folio data :
  (length data <= length folio)%nat ->
  folio_write folio 0 data = data ++ drop (length data) folio.
Proof. intros Hlen. unfold folio_write. reflexivity. Qed.

Lemma folio_write_tail folio off data :
  0 <= off ->
  (Z.to_nat off + length data = length folio)%nat ->
  folio_write folio off data = take (Z.to_nat off) folio ++ data.
Proof.
  intros Hoff Hlen. unfold folio_write.
  rewrite drop_ge by lia. rewrite app_nil_r. reflexivity.
Qed.

(** X22.  [daxfs_read_folio] on a folio of [len] bytes returns 0 and
    leaves no byte of the folio as it found it in two cases.  A folio at
    or past [i_size] is all zeros.  A folio that starts inside a
    base-image file of which no log up the chain holds a WRITE record,
    the inode's size being the size the base image records, holds the
    bytes of the mapped window from [base_offset + data_offset + pos] up
    to the end of the folio or of the file, then zeros. *)
Theorem read_folio_of_base_file (info : daxfs_info) (inode : vfs_inode)
    (inodes : list daxfs_base_inode) (raw : daxfs_base_inode)
    (pos len : Z) (folio : list byte) :
  Z.of_nat (length folio) = len ->
  (i_size inode <= pos ->
   daxfs_read_folio info inode pos len folio
   = Some (0, replicate (Z.to_nat len) x00))
  /\ (match current_branch info with
      | Some b =>
          Forall (fun b' => delta_size b' <= 2 ^ 64 - 2 ^ 32
                            /\ no_write_of (delta_log b') (i_ino inode))
                 (branch_chain b)
      | None => True
      end ->
      base_inodes info = Some inodes ->
      i_ino inode <= base_inode_count info ->
      base_inode_at inodes (i_ino inode) = Some raw ->
      i_size inode = bi_size raw ->
      0 <= pos < i_size inode ->
      0 < len ->
      let abs_offset :=
        sb_base_offset (super info) + bi_data_offset raw + pos in
      let n := Z.min len (i_size inode - pos) in
      0 <= abs_offset ->
      abs_offset + n <= Z.of_nat (length (mem info)) ->
      abs_offset < size info <= 2 ^ 64 ->
      daxfs_read_folio info inode pos len folio
      = Some (0, bytes_at (mem info) abs_offset n
                 ++ replicate (Z.to_nat (len - n)) x00)).
Proof.
  intros Hfolio. split.
  - intros Heof. unfold daxfs_read_folio.
    destruct (Z.leb_spec (i_size inode) pos); [| lia].
    unfold folio_zero_range. rewrite folio_write_all; [reflexivity |].
    rewrite length_replicate. lia.
  - intros Hchain Hbase Hino Hraw Hsize Hpos Hlen abs_offset n Habs Hmem Hmap.
    assert (Hn : 0 < n <= len) by (unfold n; lia).
    unfold daxfs_read_folio.
    destruct (Z.leb_spec (i_size inode) pos); [lia |].
    destruct (Z.to_nat len) as [| fuel] eqn:Hfuel; [lia |].
    simpl read_folio_loop.
    destruct (Z.ltb_spec 0 len); [| lia].
    rewrite Z.add_0_r, Z.sub_0_r.
    destruct (Z.ltb_spec pos (i_size inode)); [| lia]. simpl andb. cbv iota.
    assert (Hres : daxfs_resolve_file_data info (i_ino inode) pos len
                   = Some (Some (PtrMem abs_offset), n)).
    { assert (Hnone : daxfs_resolve_file_data info (i_ino inode) pos len
                      = daxfs_resolve_file_data (set_current_branch info None)
                          (i_ino inode) pos len).
      { destruct (current_branch info) as [b |] eqn:Hcur.
        - exact (daxfs_resolve_file_data_silent info b _ pos len Hcur Hchain).
        - destruct info; simpl in Hcur; subst; reflexivity. }
      rewrite Hnone. unfold daxfs_resolve_file_data. simpl.
      rewrite Hbase.
      destruct (Z.leb_spec (i_ino inode) (base_inode_count info)); [| lia].
      rewrite Hraw. destruct (Z.leb_spec (bi_size raw) pos); [lia |].
      fold abs_offset. rewrite u64_small by lia.
      unfold daxfs_mem_ptr. simpl.
      destruct (Z.leb_spec (size info) abs_offset); [lia |]. simpl.
      unfold n. rewrite Hsize. reflexivity. }
    rewrite Hres. destruct (Z.eqb_spec n 0); [lia |].
    set (data := load info (PtrMem abs_offset) n).
    assert (Hdata : Z.of_nat (length data) = n).
    { unfold data, load, bytes_at. rewrite length_take, length_drop. lia. }
    assert (Hdone : forall f fo,
               read_folio_loop f info inode pos len (0 + n) fo
               = Some (n, fo)).
    { intros f fo. rewrite Z.add_0_l.
      destruct f; simpl;
        destruct ((n <? len) && (pos + n <? i_size inode)) eqn:Ec;
        try reflexivity;
        apply andb_true_iff in Ec as [E1 E2];
        apply Z.ltb_lt in E1, E2; unfold n in *; lia. }
    rewrite Hdone.
    rewrite folio_write_head by lia.
    destruct (Z.ltb_spec n len).
    + unfold folio_zero_range.
      rewrite folio_write_tail.
      * rewrite take_app_le by lia. rewrite take_ge by lia. reflexivity.
      * lia.
      * rewrite length_app, length_drop, length_replicate. lia.
    + rewrite drop_ge by lia. replace (len - n) with 0 by lia.
      reflexivity.
Qed.

(** *** At the sample filesystem *)

(** An eight-byte folio over the four bytes of [/foo]. *)
Lemma read_folio_of_base_file_witness :
  daxfs_read_folio sample_created sample_base_file 0 8 (replicate 8 xff)
  = Some (0, bytes "base" ++ replicate 4 x00).
Proof.
  destruct (read_folio_of_base_file sample_created sample_base_file
              sample_base (mk_base_inode 2 33188 0 0 4 64 0 3 1 1 0 0)
              0 8 (replicate 8 xff)) as [_ Hfile]; [by_computation |].
  rewrite Hfile.
  - by_computation.
  - assert (Hc : current_branch sample_created
                 = Some (branch_of sample_created)) by by_computation.
    rewrite Hc, sample_created_chain.
    repeat (apply Forall_cons_2 || apply Forall_nil_2);
      (split; [by_computation | apply no_write_of_check; by_computation]).
  - by_computation.
  - by_computation.
  - by_computation.
  - by_computation.
  - split; by_computation.
  - lia.
  - by_computation.
  - by_computation.
  - split; by_computation.
Defined.

(** ** What a lookup can find *)

Lemma name_exists_delta_sound `{Jhash} parent_ino name namelen i b :
  name_exists_delta b parent_ino name namelen = Some (NameFound i) ->
  exists b' hdr e cr,
    b' ∈ branch_chain b
    /\ daxfs_delta_lookup_dirent b' parent_ino name namelen = Some hdr
    /\ delta_log b' !! hdr = Some e
    /\ (u32 (hdr_type (e_hdr e)) = DAXFS_DELTA_CREATE
        \/ u32 (hdr_type (e_hdr e)) = DAXFS_DELTA_MKDIR)
    /\ e_body e = BodyCreate cr
    /\ cr_new_ino cr = i.
Proof.
  induction b as [log sz cap dax ii di | log sz cap dax ii di p IH]
    using branch_ctx_ind; intros E.
  - simpl in E.
    destruct (daxfs_delta_lookup_dirent _ parent_ino name namelen)
      as [hdr |] eqn:El; [| discriminate].
    unfold hdr_at in E. simpl in E.
    destruct (log !! hdr) as [e |] eqn:He; simpl in E;
      [| vm_compute in E; discriminate].
    destruct (u32 (hdr_type (e_hdr e)) =? DAXFS_DELTA_DELETE);
      [discriminate |].
    destruct (bool_decide _) eqn:Ht; [| discriminate].
    apply bool_decide_eq_true in Ht.
    destruct (e_body e) as [| cr | | | |] eqn:Hb; try discriminate.
    injection E as <-.
    eexists _, hdr, e, cr. split; [apply list_elem_of_here |]. auto 10.
  - simpl in E.
    assert (Hnext : name_exists_delta p parent_ino name namelen
                    = Some (NameFound i) ->
                    exists b' hdr e cr,
                      b' ∈ branch_chain
                             (mk_branch log sz cap dax ii di (Some p))
                      /\ daxfs_delta_lookup_dirent b' parent_ino name namelen
                         = Some hdr
                      /\ delta_log b' !! hdr = Some e
                      /\ (u32 (hdr_type (e_hdr e)) = DAXFS_DELTA_CREATE
                          \/ u32 (hdr_type (e_hdr e)) = DAXFS_DELTA_MKDIR)
                      /\ e_body e = BodyCreate cr
                      /\ cr_new_ino cr = i).
    { intros En. destruct (IH En) as (b' & hdr & e & cr & Hin & Hrest).
      exists b', hdr, e, cr. split; [| exact Hrest].
      simpl. apply list_elem_of_further. exact Hin. }
    destruct (daxfs_delta_lookup_dirent _ parent_ino name namelen)
      as [hdr |] eqn:El; [| exact (Hnext E)].
    unfold hdr_at in E. simpl in E.
    destruct (log !! hdr) as [e |] eqn:He; simpl in E.
    2:{ exact (Hnext E). }
    destruct (u32 (hdr_type (e_hdr e)) =? DAXFS_DELTA_DELETE);
      [discriminate |].
    destruct (bool_decide _) eqn:Ht; [| exact (Hnext E)].
    apply bool_decide_eq_true in Ht.
    destruct (e_body e) as [| cr | | | |] eqn:Hb; try exact (Hnext E).
    injection E as <-.
    eexists _, hdr, e, cr. split; [apply list_elem_of_here |]. auto 10.
Qed.

Lemma bytes_at_twice buf off n :
  bytes_at (bytes_at buf off n) 0 n = bytes_at buf off n.
Proof.
  unfold bytes_at. change (Z.to_nat 0) with 0%nat. rewrite drop_0.
  rewrite take_take. f_equal. lia.
Qed.

Lemma name_exists_base_sound info inodes name namelen i fuel : forall child_ino,
  name_exists_base fuel info inodes child_ino name namelen
  = Some (NameFound i) ->
  exists child,
    base_inode_at inodes i = Some child
    /\ 1 <= i <= base_inode_count info
    /\ bi_name_len child = namelen
    /\ bytes_at name 0 namelen
       = bytes_at (bytes_at (base_strtab info) (bi_name_offset child)
                            (bi_name_len child)) 0 namelen
    /\ match current_branch info with
       | Some b => deleted_in_chain b i
       | None => false
       end = false.
Proof.
  induction fuel as [| fuel IH]; intros child_ino; simpl;
    destruct (negb (child_ino =? 0) && (child_ino <=? base_inode_count info))
      eqn:Hc; try discriminate.
  destruct (base_inode_at inodes child_ino) as [child |] eqn:Hchild;
    [| discriminate].
  destruct ((namelen =? bi_name_len child) && bool_decide _) eqn:Hname;
    [| apply IH].
  destruct (match current_branch info with
            | Some b => deleted_in_chain b child_ino
            | None => false
            end) eqn:Hdel; [discriminate |].
  intros E. injection E as <-.
  apply andb_true_iff in Hname as [Hlen Hbytes].
  apply Z.eqb_eq in Hlen. apply bool_decide_eq_true in Hbytes.
  apply andb_true_iff in Hc as [_ Hcount]. apply Z.leb_le in Hcount.
  exists child. split; [exact Hchild |].
  split.
  { split; [| exact Hcount]. unfold base_inode_at in Hchild.
    destruct (Z.leb_spec 1 child_ino); [assumption | discriminate]. }
  split; [congruence |]. split; [exact Hbytes | exact Hdel].
Qed.

(** X23. A name that [daxfs_lookup] finds is backed by a record or by the
    base image: either some branch of the current chain has the name in its
    directory index, pointing at a CREATE or MKDIR record of its log whose
    new inode number is the one returned, or the base image has an inode
    with that number, in range, whose name in the string table is the name
    looked up and which no branch of the chain has deleted. *)
Theorem lookup_is_sound `{Jhash} (info : daxfs_info) (dir_ino : Z)
    (name : list byte) (i : Z) :
  let namelen := Z.of_nat (length name) in
  daxfs_lookup info dir_ino name = Some (NameFound i) ->
  (exists b0 b hdr e cr,
      current_branch info = Some b0
      /\ b ∈ branch_chain b0
      /\ daxfs_delta_lookup_dirent b dir_ino name namelen = Some hdr
      /\ delta_log b !! hdr = Some e
      /\ (u32 (hdr_type (e_hdr e)) = DAXFS_DELTA_CREATE
          \/ u32 (hdr_type (e_hdr e)) = DAXFS_DELTA_MKDIR)
      /\ e_body e = BodyCreate cr
      /\ cr_new_ino cr = i)
  \/ (exists inodes child,
        base_inodes info = Some inodes
        /\ base_inode_at inodes i = Some child
        /\ 1 <= i <= base_inode_count info
        /\ bi_name_len child = namelen
        /\ bytes_at (base_strtab info) (bi_name_offset child) namelen = name
        /\ match current_branch info with
           | Some b => deleted_in_chain b i
           | None => false
           end = false).
Proof.
  intros namelen. unfold daxfs_lookup, daxfs_name_exists. fold namelen.
  destruct (match current_branch info with
            | Some b => name_exists_delta b dir_ino name namelen
            | None => None
            end) as [r |] eqn:Ed.
  - intros E. injection E as ->. left.
    destruct (current_branch info) as [b0 |]; [| discriminate].
    destruct (name_exists_delta_sound _ _ _ _ _ Ed)
      as (b & hdr & e & cr & Hrest).
    exists b0, b, hdr, e, cr. split; [reflexivity | exact Hrest].
  - destruct (base_inodes info) as [inodes |]; [| discriminate].
    destruct (base_inode_count info <? dir_ino); [discriminate |].
    destruct (base_inode_at inodes dir_ino) as [parent_raw |];
      [| discriminate].
    intros E. right.
    destruct (name_exists_base_sound _ _ _ _ _ _ _ E)
      as (child & Hchild & Hi & Hlen & Hbytes & Hdel).
    exists inodes, child. split; [reflexivity |].
    split; [exact Hchild |]. split; [exact Hi |]. split; [exact Hlen |].
    split; [| exact Hdel].
    unfold namelen in Hbytes. rewrite bytes_at_all in Hbytes.
    rewrite Hlen in Hbytes. fold namelen in Hbytes.
    rewrite bytes_at_twice in Hbytes. symmetry. exact Hbytes.
Qed.

(** *** At the sample filesystem *)

Lemma lookup_is_sound_witness :
  @daxfs_lookup sample_jhash sample_created 1 (bytes "a.txt")
  = Some (NameFound 3)
  /\ ((exists b0 b hdr e cr,
         current_branch sample_created = Some b0
         /\ b ∈ branch_chain b0
         /\ @daxfs_delta_lookup_dirent sample_jhash b 1 (bytes "a.txt") 5
            = Some hdr
         /\ delta_log b !! hdr = Some e
         /\ (u32 (hdr_type (e_hdr e)) = DAXFS_DELTA_CREATE
             \/ u32 (hdr_type (e_hdr e)) = DAXFS_DELTA_MKDIR)
         /\ e_body e = BodyCreate cr
         /\ cr_new_ino cr = 3)
      \/ (exists inodes child,
            base_inodes sample_created = Some inodes
            /\ base_inode_at inodes 3 = Some child
            /\ 1 <= 3 <= base_inode_count sample_created
            /\ bi_name_len child = 5
            /\ bytes_at (base_strtab sample_created) (bi_name_offset child) 5
               = bytes "a.txt"
            /\ match current_branch sample_created with
               | Some b => deleted_in_chain b 3
               | None => false
               end = false)).
Proof.
  assert (E : @daxfs_lookup sample_jhash sample_created 1 (bytes "a.txt")
              = Some (NameFound 3)) by by_computation.
  split; [exact E |].
  exact (@lookup_is_sound sample_jhash sample_created 1 (bytes "a.txt") 3 E).
Defined.
